(** * Document-structure extraction (extractor.py): a shallow embedding

    The development follows [src/Challenge_1a/extractor.py]: the style
    profile, the title, the heading candidates, the levels and the outline,
    and [extract_document_structure] around them; and the batch driver of
    [src/Challenge_1a/process_pdfs.py].

    Conventions of the embedding.
    - Python floats (font sizes, coordinates, ratios) are idealised as exact
      rationals [Qc]; decimal literals such as [1.3] are the rationals they
      denote.  Quotients and products are exact where the code rounds them
      to binary64, so a value that lies on a threshold up to rounding can
      compare differently.  The statements about thresholds and gates are
      about the values that are compared, whatever computed them.
    - Python [str] values are [string]s over 8-bit characters.  Character
      classes, case mapping and whitespace follow Python on the ASCII range;
      characters above 127 are caseless and are neither whitespace, digits nor
      ASCII letters, and a text that contains them is measured in bytes.
      Keyword alternatives of the source that contain non-ASCII letters are
      listed by their UTF-8 bytes.  The embedding agrees with the code on
      ASCII text; on other text, lengths, white space, control characters
      and letter case can differ from Python's.
    - A regular expression of the source is a term of [regex], matched by
      [rmatch].
    - A Python exception is a value [Raise msg] of the error monad [exc];
      the exceptions that can occur on well-formed layout data are divisions
      by zero.
    - The external layout collaborator (PyMuPDF) is a record of the data it
      hands out: pages, blocks, lines, spans, page rectangle, metadata.
    - A dict is an association list in insertion order; the order in which a
      [set] is enumerated is a parameter, [set_order].
    - [extract_document_structure] returns its record together with the
      state of the document handle. *)

From Stdlib Require Import ZArith QArith Qround Qcanon Ascii String List Bool Lia Lqa
  DecimalString.
From stdpp Require Import base decidable option list numbers strings gmap sorting.

Local Open Scope string_scope.
Local Open Scope list_scope.

(** ** Numbers *)

Definition dec (n : Z) (d : positive) : Qc := Q2Qc (n # d).
Definition Qc_of_int (n : Z) : Qc := Q2Qc (inject_Z n).
Definition Qc_of_len (n : nat) : Qc := Qc_of_int (Z.of_nat n).

Definition Qc_ltb (x y : Qc) : bool := bool_decide (x < y)%Qc.
Definition Qc_leb (x y : Qc) : bool := bool_decide (x ≤ y)%Qc.
Definition Qc_eqb (x y : Qc) : bool := bool_decide (x = y).
Definition Qc_abs (x : Qc) : Qc := if Qc_ltb x 0%Qc then (- x)%Qc else x.

(** Python [round(x, 2)]: nearest multiple of 1/100, ties to the even one. *)
Definition round_half_even (x : Qc) : Z :=
  let f := Qfloor (this x) in
  let r := (x - Qc_of_int f)%Qc in
  if Qc_ltb r (dec 1 2) then f
  else if Qc_ltb (dec 1 2) r then (f + 1)%Z
  else if Z.even f then f else (f + 1)%Z.

Definition round2 (x : Qc) : Qc :=
  Q2Qc (round_half_even (x * dec 100 1)%Qc # 100).

(** ** The error monad: Python exceptions as values *)

Inductive exc (A : Type) : Type :=
| Ok (a : A)
| Raise (msg : string).
Arguments Ok {A} a.
Arguments Raise {A} msg.

Global Instance exc_ret : MRet exc := fun A a => Ok a.
Global Instance exc_bind : MBind exc := fun A B f m =>
  match m with
  | Ok a => f a
  | Raise e => Raise e
  end.

(** [a / b] on floats: raises [ZeroDivisionError] when [b] is zero. *)
Definition float_div (a b : Qc) : exc Qc :=
  if Qc_eqb b 0%Qc then Raise "float division by zero" else Ok (a / b)%Qc.

(** ** Characters and strings, as Python sees them *)

Definition chars := list ascii.

Definition code (c : ascii) : N := N_of_ascii c.

Definition in_range (lo hi : N) (c : ascii) : bool :=
  ((lo <=? code c) && (code c <=? hi))%N.

Definition is_digit (c : ascii) : bool := in_range 48 57 c.
Definition is_upper (c : ascii) : bool := in_range 65 90 c.
Definition is_lower (c : ascii) : bool := in_range 97 122 c.
Definition is_alpha (c : ascii) : bool := is_upper c || is_lower c.

(** [str.isspace] / regex [\s]: tab, LF, VT, FF, CR, FS, GS, RS, US, space. *)
Definition is_space (c : ascii) : bool :=
  in_range 9 13 c || in_range 28 32 c.

(** Regex [\w]: letters, digits, underscore; bytes above 127 count as
    letters. *)
Definition is_word (c : ascii) : bool :=
  is_alpha c || is_digit c || (code c =? 95)%N || (128 <=? code c)%N.

Definition lower_char (c : ascii) : ascii :=
  if is_upper c then ascii_of_N (code c + 32) else c.

Definition one_of (set : string) (c : ascii) : bool :=
  existsb (Ascii.eqb c) (list_ascii_of_string set).

Definition to_chars (s : string) : chars := list_ascii_of_string s.
Definition of_chars (l : chars) : string := string_of_list_ascii l.

Definition py_len (s : string) : nat := List.length (to_chars s).

Definition py_lower (s : string) : string :=
  of_chars (map lower_char (to_chars s)).

Fixpoint lstrip_chars (p : ascii -> bool) (l : chars) : chars :=
  match l with
  | c :: l' => if p c then lstrip_chars p l' else l
  | [] => []
  end.

Definition rstrip_chars (p : ascii -> bool) (l : chars) : chars :=
  rev (lstrip_chars p (rev l)).

Definition strip_chars (p : ascii -> bool) (l : chars) : chars :=
  rstrip_chars p (lstrip_chars p l).

Definition py_strip (s : string) : string :=
  of_chars (strip_chars is_space (to_chars s)).
Definition py_rstrip (s : string) : string :=
  of_chars (rstrip_chars is_space (to_chars s)).

(** [str.split()]: the maximal runs of non-whitespace characters. *)
Fixpoint split_ws_aux (cur : chars) (l : chars) : list chars :=
  match l with
  | [] => match cur with [] => [] | _ => [rev cur] end
  | c :: l' =>
      if is_space c
      then match cur with
           | [] => split_ws_aux [] l'
           | _ => rev cur :: split_ws_aux [] l'
           end
      else split_ws_aux (c :: cur) l'
  end.

Definition py_split (s : string) : list string :=
  map of_chars (split_ws_aux [] (to_chars s)).

Definition word_count_of (s : string) : nat := List.length (py_split s).

(** [sep.join(parts)] *)
Fixpoint py_join (sep : string) (parts : list string) : string :=
  match parts with
  | [] => ""
  | [p] => p
  | p :: ps => p +:+ sep +:+ py_join sep ps
  end.

Fixpoint starts_with (p l : chars) : bool :=
  match p, l with
  | [], _ => true
  | a :: p', b :: l' => Ascii.eqb a b && starts_with p' l'
  | _ :: _, [] => false
  end.

Fixpoint contains_chars (p l : chars) : bool :=
  starts_with p l ||
  match l with
  | [] => false
  | _ :: l' => contains_chars p l'
  end.

(** [needle in hay] *)
Definition py_in (needle hay : string) : bool :=
  contains_chars (to_chars needle) (to_chars hay).

Definition py_endswith (s suffix : string) : bool :=
  starts_with (rev (to_chars suffix)) (rev (to_chars s)).

(** [str.isupper]: some cased character, and no lowercase one. *)
Definition py_isupper (s : string) : bool :=
  existsb is_upper (to_chars s) && negb (existsb is_lower (to_chars s)).

(** [str.istitle]: uppercase only after an uncased character, lowercase
    only after a cased one, and at least one cased character. *)
Fixpoint istitle_aux (prev_cased cased : bool) (l : chars) : bool :=
  match l with
  | [] => cased
  | c :: l' =>
      if is_upper c then
        if prev_cased then false else istitle_aux true true l'
      else if is_lower c then
        if prev_cased then istitle_aux true true l' else false
      else istitle_aux false cased l'
  end.

Definition py_istitle (s : string) : bool :=
  istitle_aux false false (to_chars s).

(** ** Regular expressions

    The patterns of the source are written in this syntax and matched by a
    backtracking matcher in continuation-passing style.  The source only
    asks whether a match exists (or removes one that reaches the end of the
    text), so the order in which alternatives are tried does not matter. *)

Inductive regex : Type :=
| Eps
| Chr (f : ascii -> bool)
| Cat (r1 r2 : regex)
| Alt (r1 r2 : regex)
| Star (r : regex)
| WordB
| Eos.

Definition is_word_opt (o : option ascii) : bool :=
  match o with Some c => is_word c | None => false end.

(** [$] without MULTILINE: at the end, or before a final newline. *)
Definition at_eos (s : chars) : bool :=
  match s with
  | [] => true
  | [c] => (code c =? 10)%N
  | _ => false
  end.

Fixpoint rmatch (r : regex) (prev : option ascii) (s : chars)
    (k : option ascii -> chars -> bool) : bool :=
  match r with
  | Eps => k prev s
  | Chr f =>
      match s with
      | c :: s' => if f c then k (Some c) s' else false
      | [] => false
      end
  | Cat r1 r2 => rmatch r1 prev s (fun p' s' => rmatch r2 p' s' k)
  | Alt r1 r2 => if rmatch r1 prev s k then true else rmatch r2 prev s k
  | Star r1 =>
      (fix star (fuel : nat) (prev : option ascii) (s : chars) : bool :=
         if k prev s then true
         else
           match fuel with
           | O => false
           | S fuel' =>
               rmatch r1 prev s
                 (fun p' s' =>
                    if (List.length s' <? List.length s)%nat
                    then star fuel' p' s' else false)
           end) (List.length s) prev s
  | WordB =>
      if xorb (is_word_opt prev) (is_word_opt (head s)) then k prev s else false
  | Eos => if at_eos s then k prev s else false
  end.

Definition Plus (r : regex) : regex := Cat r (Star r).
Definition Opt (r : regex) : regex := Alt r Eps.

Fixpoint Rep (n : nat) (r : regex) : regex :=
  match n with
  | O => Eps
  | S n' => Cat r (Rep n' r)
  end.

(** [r{lo,lo+extra}] *)
Fixpoint RepUpTo (extra : nat) (r : regex) : regex :=
  match extra with
  | O => Eps
  | S e => Opt (Cat r (RepUpTo e r))
  end.
Definition RepRange (lo hi : nat) (r : regex) : regex :=
  Cat (Rep lo r) (RepUpTo (hi - lo) r).
Definition RepAtLeast (lo : nat) (r : regex) : regex :=
  Cat (Rep lo r) (Star r).

Fixpoint lit_chars (l : chars) : regex :=
  match l with
  | [] => Eps
  | c :: l' => Cat (Chr (Ascii.eqb c)) (lit_chars l')
  end.
Definition Lit (s : string) : regex := lit_chars (to_chars s).

Fixpoint AltL (rs : list regex) : regex :=
  match rs with
  | [] => Chr (fun _ => false)
  | [r] => r
  | r :: rs' => Alt r (AltL rs')
  end.
Definition Words (ws : list string) : regex := AltL (map Lit ws).

Fixpoint CatL (rs : list regex) : regex :=
  match rs with
  | [] => Eps
  | [r] => r
  | r :: rs' => Cat r (CatL rs')
  end.

Definition accept : option ascii -> chars -> bool := fun _ _ => true.

(** [bool(re.match(r, s))] *)
Definition re_match (r : regex) (s : string) : bool :=
  rmatch r None (to_chars s) accept.

(** [bool(re.search(r, s))]: a match starting at some position. *)
Fixpoint search_from (r : regex) (prev : option ascii) (s : chars) : bool :=
  if rmatch r prev s accept then true
  else
    match s with
    | [] => false
    | c :: s' => search_from r (Some c) s'
    end.
Definition re_search (r : regex) (s : string) : bool :=
  search_from r None (to_chars s).

Definition d : regex := Chr is_digit.
Definition ws : regex := Chr is_space.
Definition dot : regex := Chr (Ascii.eqb ".").

(** [re.sub(r'\s+', ' ', text)]: every maximal whitespace run becomes one
    space. *)
Fixpoint collapse_ws_chars (in_run : bool) (l : chars) : chars :=
  match l with
  | [] => []
  | c :: l' =>
      if is_space c
      then if in_run then collapse_ws_chars true l'
           else " "%char :: collapse_ws_chars true l'
      else c :: collapse_ws_chars false l'
  end.
Definition collapse_ws (s : string) : string :=
  of_chars (collapse_ws_chars false (to_chars s)).

(** The class [[\x00-\x08\x0b\x0c\x0e-\x1f\x7f-\x84\x86-\x9f]]. *)
Definition is_control (c : ascii) : bool :=
  in_range 0 8 c || in_range 11 12 c || in_range 14 31 c ||
  in_range 127 132 c || in_range 134 159 c.

Definition remove_control (s : string) : string :=
  of_chars (List.filter (fun c => negb (is_control c)) (to_chars s)).

(** ** Python built-ins on lists *)

Section Builtins.
Context {A : Type}.

(** [list.sort(key=...)] and [sorted]: stable.  [le a b] says that [a]
    may stay in front of [b]. *)
Fixpoint insert_sorted (le : A -> A -> bool) (x : A) (l : list A) : list A :=
  match l with
  | [] => [x]
  | y :: l' => if le x y then x :: l else y :: insert_sorted le x l'
  end.

Fixpoint sort_by (le : A -> A -> bool) (l : list A) : list A :=
  match l with
  | [] => []
  | x :: l' => insert_sorted le x (sort_by le l')
  end.

(** [max(l, key=...)]: the first element whose key is maximal. *)
Fixpoint py_max_by (lt : A -> A -> bool) (best : A) (l : list A) : A :=
  match l with
  | [] => best
  | x :: l' => py_max_by lt (if lt best x then x else best) l'
  end.

(** [min(l, key=...)]: the first element whose key is minimal. *)
Definition py_min_by (lt : A -> A -> bool) (best : A) (l : list A) : A :=
  py_max_by (fun a b => lt b a) best l.
End Builtins.

(** ** What the layout collaborator hands out *)

(** [bbox = (x0, y0, x1, y1)] *)
Record BBox := { x0 : Qc; y0 : Qc; x1 : Qc; y1 : Qc }.

Record Span := { span_text : string; span_font : string; span_size : Qc }.

Record Line := { line_bbox : BBox; line_spans : list Span }.

(** A block without a ["lines"] entry (an image) has [block_lines = []]. *)
Record Block := { block_bbox : BBox; block_lines : list Line }.

(** [get_text("dict")] and [get_text("dict", sort=True)] are two calls to
    the collaborator; each page carries both answers. *)
Record Page := {
  rect_width : Qc;
  rect_height : Qc;
  blocks : list Block;
  blocks_sorted : list Block
}.

(** [doc.metadata] is a dict; [metadata_title = None] when it has no
    ['title'] entry. *)
Record Document := { pages : list Page; metadata_title : option string }.

Definition metadata_get_title (doc : Document) : string :=
  default "Untitled" (metadata_title doc).

(** ** [_profile_document_styles] *)

(** A [Counter]: keys in insertion order. *)
Fixpoint counter_add (k : string) (n : nat) (c : list (string * nat))
    : list (string * nat) :=
  match c with
  | [] => [(k, n)]
  | (k', m) :: c' =>
      if String.eqb k k' then (k', m + n) :: c'
      else (k', m) :: counter_add k n c'
  end.

Definition counter_update (c upd : list (string * nat)) : list (string * nat) :=
  fold_left (fun acc kv => counter_add (fst kv) (snd kv) acc) upd c.

Record SizeStats := {
  count : nat;
  bold_count : nat;
  fonts : list (string * nat);
  total_chars : nat
}.

Definition any_keyword_in (keywords : list string) (s : string) : bool :=
  existsb (fun k => py_in k s) keywords.

Definition bold_keywords : list string := ["bold"; "heavy"; "black"; "demi"].

Definition add_span (span : Span) (st : SizeStats) : SizeStats :=
  {| count := count st + 1;
     bold_count :=
       if any_keyword_in bold_keywords (py_lower (span_font span))
       then bold_count st + 1 else bold_count st;
     fonts := counter_add (span_font span) 1 (fonts st);
     total_chars := total_chars st + py_len (py_strip (span_text span)) |}.

Definition empty_stats : SizeStats :=
  {| count := 0; bold_count := 0; fonts := []; total_chars := 0 |}.

(** [font_size_stats]: a dict keyed by rounded size, in insertion order. *)
Fixpoint stats_add (size : Qc) (span : Span) (m : list (Qc * SizeStats))
    : list (Qc * SizeStats) :=
  match m with
  | [] => [(size, add_span span empty_stats)]
  | (k, st) :: m' =>
      if Qc_eqb k size then (k, add_span span st) :: m'
      else (k, st) :: stats_add size span m'
  end.

Record HeadingSizes := {
  largest : Qc;
  second_largest : Qc;
  third_largest : Qc
}.

Record StyleProfile := {
  body_size : Qc;
  body_font : string;
  font_size_stats : list (Qc * SizeStats);
  heading_sizes : HeadingSizes;
  sorted_sizes : list Qc
}.

Definition all_spans (get : Page -> list Block) (doc : Document) : list Span :=
  flat_map (fun page =>
    flat_map (fun block => flat_map line_spans (block_lines block)) (get page))
    (pages doc).

Definition count_lt (a b : Qc * SizeStats) : bool :=
  (count (snd a) <? count (snd b))%nat.

Definition _profile_document_styles (doc : Document) : option StyleProfile :=
  let spans := all_spans blocks doc in
  match spans with
  | [] => None
  | _ =>
      let font_size_stats :=
        fold_left (fun m span => stats_add (round2 (span_size span)) span m)
                  spans [] in
      let body_candidates :=
        List.filter (fun kv => (100 <? total_chars (snd kv))%nat) font_size_stats in
      let body_size :=
        match body_candidates with
        | c :: cs => fst (py_max_by count_lt c cs)
        | [] =>
            match font_size_stats with
            | c :: cs => fst (py_max_by count_lt c cs)
            | [] => dec 10 1
            end
        end in
      let all_fonts :=
        fold_left (fun acc kv => counter_update acc (fonts (snd kv)))
                  font_size_stats [] in
      let body_font :=
        match all_fonts with
        | c :: cs =>
            fst (py_max_by (fun a b => (snd a <? snd b)%nat) c cs)
        | [] => "Unknown"
        end in
      let sorted_sizes :=
        sort_by (fun a b => Qc_leb b a) (map fst font_size_stats) in
      let heading_sizes :=
        {| largest := nth 0 sorted_sizes body_size;
           second_largest := nth 1 sorted_sizes body_size;
           third_largest := nth 2 sorted_sizes body_size |} in
      Some {| body_size := body_size;
              body_font := body_font;
              font_size_stats := font_size_stats;
              heading_sizes := heading_sizes;
              sorted_sizes := sorted_sizes |}
  end.

(** ** [_is_repetitive_text] and [_clean_repetitive_title] *)

Definition _is_repetitive_text (text : string) : bool :=
  let words := py_split (py_lower text) in
  if (List.length words <? 3)%nat then false
  else
    let word_counts :=
      fold_left (fun acc word =>
                   if (2 <? py_len word)%nat then counter_add word 1 acc else acc)
                words [] in
    existsb (fun kv => (3 <? snd kv)%nat) word_counts.

Definition last_lower_is (cleaned : list string) (w : string) : bool :=
  match last cleaned with
  | Some c => String.eqb (py_lower c) (py_lower w)
  | None => false
  end.

Fixpoint clean_words (words : list string) (i : nat) (rest : list string)
    (cleaned_words : list string) : list string :=
  match rest with
  | [] => cleaned_words
  | word :: rest' =>
      let prev1 := words !! (i - 1)%nat in
      let prev2 := words !! (i - 2)%nat in
      if (0 <? i)%nat &&
         match prev1 with
         | Some w1 => String.eqb (py_lower word) (py_lower w1)
         | None => false
         end
      then clean_words words (S i) rest' cleaned_words
      else if (1 <? i)%nat &&
              match prev2, prev1 with
              | Some w2, Some w1 =>
                  String.eqb (py_lower word) (py_lower w2) &&
                  (1 <? List.length cleaned_words)%nat &&
                  last_lower_is cleaned_words w1
              | _, _ => false
              end
      then clean_words words (S i) rest' cleaned_words
      else clean_words words (S i) rest' (cleaned_words ++ [word])
  end.

Definition _clean_repetitive_title (title : string) : string :=
  let words := py_split title in
  py_join " " (clean_words words 0 words []).

(** ** [_extract_title] *)

Record TextLine := {
  tl_text : string;
  tl_y : Qc;
  tl_size : Qc;
  tl_font : string;
  tl_bbox : BBox
}.

Record TitleCandidate := {
  tc_text : string;
  tc_score : Z;
  tc_y : Qc;
  tc_size : Qc
}.

Definition title_text_line (line : Line) : option TextLine :=
  match line_spans line with
  | [] => None
  | span :: _ =>
      let text := py_strip (String.concat "" (map span_text (line_spans line))) in
      if (py_len text <? 3)%nat then None
      else
        let text := collapse_ws text in
        let text := remove_control text in
        Some {| tl_text := text;
                tl_y := y0 (line_bbox line);
                tl_size := span_size span;
                tl_font := span_font span;
                tl_bbox := line_bbox line |}
  end.

Definition title_text_lines (page : Page) : list TextLine :=
  let top_section := (rect_height page * dec 5 10)%Qc in
  flat_map (fun block =>
    if Qc_ltb top_section (y0 (block_bbox block)) then []
    else omap title_text_line (block_lines block))
    (blocks page).

Definition title_skip_words : list string :=
  ["page"; "copyright"; "confidential"; "draft"].

Definition title_weight_words : list string := ["bold"; "heavy"; "black"].

Definition title_candidate (page : Page) (body_size : Qc) (line : TextLine)
    : exc (option TitleCandidate) :=
  if Qc_ltb (tl_size line) (body_size * dec 13 10)%Qc then Ok None
  else if any_keyword_in title_skip_words (py_lower (tl_text line)) then Ok None
  else
    let word_count := word_count_of (tl_text line) in
    if (20 <? word_count)%nat then Ok None
    else if py_endswith (py_rstrip (tl_text line)) "." then Ok None
    else
      size_ratio ← float_div (tl_size line) body_size;
      let s1 := if Qc_leb (dec 2 1) size_ratio then 10%Z
                else if Qc_leb (dec 15 10) size_ratio then 7%Z
                else if Qc_leb (dec 13 10) size_ratio then 5%Z
                else 0%Z in
      relative_y ← float_div (tl_y line) (rect_height page);
      let s2 := if Qc_ltb relative_y (dec 1 10) then 5%Z
                else if Qc_ltb relative_y (dec 2 10) then 3%Z
                else if Qc_ltb relative_y (dec 3 10) then 1%Z
                else 0%Z in
      let s3 := if any_keyword_in title_weight_words (py_lower (tl_font line))
                then 3%Z else 0%Z in
      let s4 := if (3 <=? word_count)%nat && (word_count <=? 15)%nat
                then 2%Z else 0%Z in
      Ok (Some {| tc_text := tl_text line;
                  tc_score := (s1 + s2 + s3 + s4)%Z;
                  tc_y := tl_y line;
                  tc_size := tl_size line |}).

Definition title_candidate_le (a b : TitleCandidate) : bool :=
  (tc_score b <? tc_score a)%Z ||
  ((tc_score a =? tc_score b)%Z && Qc_leb (tc_y a) (tc_y b)).

(** The loop over [remaining_candidates]; [break] ends it. *)
Fixpoint merge_title_parts (best_size : Qc) (best_y : Qc)
    (title_parts : list string) (remaining : list TitleCandidate)
    : list string :=
  match remaining with
  | [] => title_parts
  | candidate :: rest =>
      let y_diff := Qc_abs (tc_y candidate - best_y)%Qc in
      let size_diff := Qc_abs (tc_size candidate - best_size)%Qc in
      if Qc_ltb y_diff (best_size * dec 3 1)%Qc &&
         Qc_ltb size_diff (dec 4 1) &&
         (3 <=? tc_score candidate)%Z
      then
        let combined_text := py_join " " (title_parts ++ [tc_text candidate]) in
        if negb (_is_repetitive_text combined_text)
        then merge_title_parts best_size (tc_y candidate)
               (title_parts ++ [tc_text candidate]) rest
        else title_parts
      else title_parts
  end.

Definition extract_title_body (doc : Document) (style_profile : StyleProfile)
    : exc string :=
  match pages doc with
  | [] => Ok (metadata_get_title doc)
  | page :: _ =>
      let text_lines := title_text_lines page in
      match text_lines with
      | [] => Ok (metadata_get_title doc)
      | _ =>
          let text_lines :=
            sort_by (fun a b => Qc_leb (tl_y a) (tl_y b)) text_lines in
          let body_size := body_size style_profile in
          cands ← mapM (title_candidate page body_size) text_lines;
          let title_candidates := omap id cands in
          match text_lines, sort_by title_candidate_le title_candidates with
          | l0 :: ls, [] =>
              let max_size :=
                fold_left (fun m l => if Qc_ltb m (tl_size l) then tl_size l else m)
                          ls (tl_size l0) in
              let largest_lines :=
                List.filter (fun l => Qc_eqb (tl_size l) max_size) text_lines in
              match largest_lines with
              | b :: bs =>
                  Ok (tl_text (py_min_by (fun a b => Qc_ltb (tl_y a) (tl_y b)) b bs))
              | [] => Ok (metadata_get_title doc)
              end
          | _, best :: remaining_candidates =>
              let title_parts :=
                merge_title_parts (tc_size best) (tc_y best) [tc_text best]
                                  remaining_candidates in
              let final_title := py_strip (py_join " " title_parts) in
              let final_title := _clean_repetitive_title final_title in
              let final_title := collapse_ws final_title in
              Ok (if String.eqb final_title "" then metadata_get_title doc
                  else final_title)
          | [], [] => Ok (metadata_get_title doc)
          end
      end
  end.

(** [try: ... except Exception: return doc.metadata.get('title', 'Untitled')] *)
Definition _extract_title (doc : Document) (style_profile : StyleProfile)
    : string :=
  match extract_title_body doc style_profile with
  | Ok title => title
  | Raise _ => metadata_get_title doc
  end.

(** ** [_extract_headings]: the patterns *)

Definition roman : regex := Chr (one_of "IVXLCDM").
Definition letter : regex := Chr is_alpha.

(** The numbering shapes: [\d+\.\d+\.\d+\.\d+], [\d+\.\d+\.\d+],
    [\d+\.\d+], [\d+\.], [[IVXLCDM]+\.] and [[A-Za-z]\.]. *)
Definition seg4 : regex := CatL [Plus d; dot; Plus d; dot; Plus d; dot; Plus d].
Definition seg3 : regex := CatL [Plus d; dot; Plus d; dot; Plus d].
Definition seg2 : regex := CatL [Plus d; dot; Plus d].
Definition seg1 : regex := CatL [Plus d; dot].
Definition roman_dot : regex := CatL [Plus roman; dot].
Definition letter_dot : regex := CatL [letter; dot].

(** [heading_patterns['numbered']] *)
Definition numbered_shapes : list regex :=
  [seg4; seg3; seg2; seg1; roman_dot; letter_dot].

Definition pat_numbered : regex := Cat (AltL numbered_shapes) (Plus ws).

(** [heading_patterns['appendix']] *)
Definition pat_appendix : regex :=
  Cat (Words ["appendix"; "annex"; "anhang"; "appendice"; "附录"; "부록";
              "приложение"; "ملحق"]) WordB.

(** [heading_patterns['chapter']] *)
Definition pat_chapter : regex :=
  Cat (Words ["chapter"; "chapitre"; "kapitel"; "capitolo"; "capítulo"; "章";
              "장"; "глава"; "فصل"]) (Plus ws).

(** [heading_patterns['section']] *)
Definition pat_section : regex :=
  Cat (Words ["section"; "section"; "abschnitt"; "sezione"; "sección"; "节";
              "섹션"; "раздел"; "قسم"]) (Plus ws).

(** [[.,;:!?]\s*$] *)
Definition pat_sentence_end : regex :=
  CatL [Chr (one_of ".,;:!?"); Star ws; Eos].

Definition skip_patterns : list string :=
  ["page"; "seite"; "página"; "pagina"; "страница"; "页"; "페이지";
   "copyright"; "confidential"; "draft"; "preliminary";
   "table of contents"; "inhaltsverzeichnis"; "índice"; "sommaire";
   "date"; "remarks"; "version"; "revision"; "author"; "title"].

(** [^\d{1,2}\s+(jan|...|dec)\s+\d{4}$] *)
Definition pat_date_dmy : regex :=
  CatL [RepRange 1 2 d; Plus ws;
        Words ["jan"; "feb"; "mar"; "apr"; "may"; "jun"; "jul"; "aug"; "sep";
               "oct"; "nov"; "dec"];
        Plus ws; Rep 4 d; Eos].

(** [^\d{1,2}[/-]\d{1,2}[/-]\d{2,4}$] *)
Definition pat_date_numeric : regex :=
  CatL [RepRange 1 2 d; Chr (one_of "/-"); RepRange 1 2 d; Chr (one_of "/-");
        RepRange 2 4 d; Eos].

(** [^(january|...|december)\s+\d{1,2},?\s+\d{4}$] *)
Definition pat_date_long : regex :=
  CatL [Words ["january"; "february"; "march"; "april"; "may"; "june"; "july";
               "august"; "september"; "october"; "november"; "december"];
        Plus ws; RepRange 1 2 d; Opt (Chr (Ascii.eqb ",")); Plus ws;
        Rep 4 d; Eos].

(** [^\d+\.] *)
Definition pat_leading_number : regex := Cat (Plus d) dot.

(** [^[A-Z]{2,}\s*$] *)
Definition pat_caps_token : regex :=
  CatL [RepAtLeast 2 (Chr is_upper); Star ws; Eos].

Definition structural_keywords : list string :=
  ["summary"; "background"; "introduction"; "conclusion"; "appendix"].

(** [len(re.findall(r'[^\w\s]', text))] *)
Definition punct_count (text : string) : nat :=
  List.length (List.filter (fun c => negb (is_word c || is_space c)) (to_chars text)).

(** ** The non-heading filter (the [continue]s on the text of a line) *)

Definition is_date_like (text : string) : bool :=
  let text_lower := py_strip (py_lower text) in
  re_match pat_date_dmy text_lower ||
  re_match pat_date_numeric text ||
  re_match pat_date_long text_lower.

Definition is_single_label (text : string) : bool :=
  let text_lower := py_strip (py_lower text) in
  (word_count_of text =? 1)%nat && (py_len text <? 12)%nat &&
  negb (re_match pat_leading_number text) &&
  negb (any_keyword_in structural_keywords text_lower).

(** [len(findall) > len(text) * 0.3] *)
Definition too_much_punctuation (text : string) : bool :=
  Qc_ltb (Qc_of_len (py_len text) * dec 3 10)%Qc (Qc_of_len (punct_count text)).

(** [discarded text]: one of the filters of the loop body skips the line. *)
Definition discarded (text : string) : bool :=
  let word_count := word_count_of text in
  let text_lower := py_strip (py_lower text) in
  (py_len text <? 2)%nat
  || (15 <? word_count)%nat
  || re_search pat_sentence_end text
  || (word_count <? 2)%nat
  || existsb (fun pattern => String.eqb pattern text_lower) skip_patterns
  || is_date_like text
  || is_single_label text
  || re_match pat_caps_token text
  || too_much_punctuation text.

(** ** Signals, score and threshold of a surviving line *)

Record Signals := {
  word_count : nat;
  is_bold : bool;
  is_medium : bool;
  size_ratio : Qc;
  is_larger : bool;
  is_much_larger : bool;
  is_numbered : bool;
  is_appendix : bool;
  is_chapter : bool;
  is_section : bool;
  is_all_caps : bool;
  is_title_case : bool;
  is_short : bool;
  is_centered : bool;
  is_left_aligned : bool;
  has_space_before : bool;
  is_top_size : bool;
  is_second_size : bool;
  is_third_size : bool
}.

Definition medium_keywords : list string := ["medium"; "semi"].

Definition signals (style_profile : StyleProfile) (page : Page)
    (previous_block : option Block) (block : Block) (line : Line)
    (span : Span) (text : string) : exc Signals :=
  let body_size := body_size style_profile in
  let word_count := word_count_of text in
  let font_lower := py_lower (span_font span) in
  size_ratio ← float_div (span_size span) body_size;
  let line_center := ((x0 (line_bbox line) + x1 (line_bbox line)) / dec 2 1)%Qc in
  let page_center := (rect_width page / dec 2 1)%Qc in
  let hs := heading_sizes style_profile in
  Ok {| word_count := word_count;
        is_bold := any_keyword_in bold_keywords font_lower;
        is_medium := any_keyword_in medium_keywords font_lower;
        size_ratio := size_ratio;
        is_larger := Qc_ltb (dec 11 10) size_ratio;
        is_much_larger := Qc_ltb (dec 15 10) size_ratio;
        is_numbered := re_match pat_numbered text;
        is_appendix := re_match pat_appendix (py_lower text);
        is_chapter := re_match pat_chapter (py_lower text);
        is_section := re_match pat_section (py_lower text);
        is_all_caps := py_isupper text && (word_count <=? 10)%nat;
        is_title_case := py_istitle text;
        is_short := (word_count <=? 15)%nat;
        is_centered := Qc_ltb (Qc_abs (line_center - page_center)) (dec 50 1);
        is_left_aligned :=
          Qc_ltb (x0 (line_bbox line)) (rect_width page * dec 2 10)%Qc;
        has_space_before :=
          match previous_block with
          | Some pb =>
              Qc_ltb (body_size * dec 12 10)%Qc
                     (y0 (block_bbox block) - y1 (block_bbox pb))%Qc
          | None => false
          end;
        is_top_size := Qc_ltb (Qc_abs (span_size span - largest hs)) 1%Qc;
        is_second_size :=
          Qc_ltb (Qc_abs (span_size span - second_largest hs)) 1%Qc;
        is_third_size :=
          Qc_ltb (Qc_abs (span_size span - third_largest hs)) 1%Qc |}.

Definition bonus (b : bool) (n : Z) : Z := if b then n else 0%Z.

Definition score_of (s : Signals) : Z :=
  ((if is_much_larger s then 6
    else if is_larger s then 4
    else if Qc_ltb (dec 105 100) (size_ratio s) then 2 else 0)
   + (if is_bold s then 4 else if is_medium s then 2 else 0)
   + bonus (is_numbered s) 6
   + bonus (is_chapter s) 5
   + bonus (is_section s) 4
   + bonus (is_appendix s) 5
   + (if is_all_caps s && (word_count s <=? 5)%nat then 3
      else if is_title_case s then 2 else 0)
   + (if is_centered s then 1 else if is_left_aligned s then 1 else 0)
   + bonus (has_space_before s) 3
   + bonus (is_short s && (2 <=? word_count s)%nat) 2
   + (if is_top_size s then 4
      else if is_second_size s then 3
      else if is_third_size s then 2 else 0))%Z.

Definition min_threshold (s : Signals) : Z :=
  let min_threshold :=
    if is_numbered s || is_chapter s || is_appendix s then 6%Z
    else if is_much_larger s && is_bold s then 7%Z
    else if (word_count s <=? 5)%nat && is_larger s then 7%Z
    else 8%Z in
  if (10 <? word_count s)%nat || negb (is_larger s) then 10%Z
  else min_threshold.

Record HeadingCandidate := {
  h_text : string;
  h_size : Qc;
  h_font : string;
  h_page : nat;
  h_y : Qc;
  h_score : Z;
  h_is_numbered : bool;
  h_is_appendix : bool;
  h_is_chapter : bool;
  h_is_section : bool;
  h_is_bold : bool;
  h_is_all_caps : bool;
  h_size_ratio : Qc
}.

Definition make_candidate (page_num : nat) (line : Line) (span : Span)
    (text : string) (s : Signals) : HeadingCandidate :=
  {| h_text := text;
     h_size := span_size span;
     h_font := span_font span;
     h_page := page_num;
     h_y := y0 (line_bbox line);
     h_score := score_of s;
     h_is_numbered := is_numbered s;
     h_is_appendix := is_appendix s;
     h_is_chapter := is_chapter s;
     h_is_section := is_section s;
     h_is_bold := is_bold s;
     h_is_all_caps := is_all_caps s;
     h_size_ratio := size_ratio s |}.

Definition line_text (line : Line) : string :=
  py_strip (String.concat "" (map span_text (line_spans line))).

(** The body of [for line in block.get("lines", [])]: [None] for a line
    that is skipped or rejected, the candidate for one that is accepted.
    ([font_size_profiles] is only written by the source, never read, and is
    left out.) *)
Definition heading_line (style_profile : StyleProfile) (page : Page)
    (page_num : nat) (previous_block : option Block) (block : Block)
    (line : Line) : exc (option HeadingCandidate) :=
  match line_spans line with
  | [] => Ok None
  | span :: _ =>
      let text := line_text line in
      if discarded text then Ok None
      else
        s ← signals style_profile page previous_block block line span text;
        if (min_threshold s <=? score_of s)%Z
        then Ok (Some (make_candidate page_num line span text s))
        else Ok None
  end.

(** Header and footer zone: top and bottom 8% of the page. *)
Definition in_margin (page : Page) (block : Block) : bool :=
  Qc_ltb (y0 (block_bbox block)) (rect_height page * dec 8 100)%Qc ||
  Qc_ltb (rect_height page * dec 92 100)%Qc (y1 (block_bbox block)).

(** [for block in blocks]: a block in the margin is skipped before
    [previous_block] is updated. *)
Fixpoint heading_blocks (style_profile : StyleProfile) (page : Page)
    (page_num : nat) (previous_block : option Block) (bs : list Block)
    : exc (list HeadingCandidate) :=
  match bs with
  | [] => Ok []
  | block :: bs' =>
      if in_margin page block
      then heading_blocks style_profile page page_num previous_block bs'
      else
        found ← mapM (heading_line style_profile page page_num
                                   previous_block block)
                     (block_lines block);
        rest ← heading_blocks style_profile page page_num (Some block) bs';
        Ok (omap id found ++ rest)
  end.

(** [for page_num in range(1, len(doc))] *)
Fixpoint heading_pages (style_profile : StyleProfile) (page_num : nat)
    (ps : list Page) : exc (list HeadingCandidate) :=
  match ps with
  | [] => Ok []
  | page :: ps' =>
      here ← heading_blocks style_profile page page_num None
                            (blocks_sorted page);
      rest ← heading_pages style_profile (S page_num) ps';
      Ok (here ++ rest)
  end.

Definition heading_candidates (doc : Document) (style_profile : StyleProfile)
    : exc (list HeadingCandidate) :=
  heading_pages style_profile 1 (drop 1 (pages doc)).

(** ** Levels and outline entries *)

Inductive Level := H1 | H2 | H3 | H4.

Global Instance Level_eq_dec : EqDecision Level.
Proof. solve_decision. Defined.

Definition level_name (l : Level) : string :=
  match l with H1 => "H1" | H2 => "H2" | H3 => "H3" | H4 => "H4" end.

Record OutlineEntry := { o_level : Level; o_text : string; o_page : nat }.

Definition by_page_y (a b : HeadingCandidate) : bool :=
  (h_page a <? h_page b)%nat ||
  ((h_page a =? h_page b)%nat && Qc_leb (h_y a) (h_y b)).

(** *** Special headings: chapters and appendices *)

Definition is_special (h : HeadingCandidate) : bool :=
  h_is_chapter h || h_is_appendix h.

Definition special_entry (h : HeadingCandidate) : OutlineEntry :=
  {| o_level := H1; o_text := h_text h; o_page := h_page h |}.

(** *** Numbered headings: the level is read off the numbering *)

Definition is_plain_numbered (h : HeadingCandidate) : bool :=
  h_is_numbered h && negb (h_is_chapter h) && negb (h_is_appendix h).

Definition numbered_level (text : string) : Level :=
  if re_match seg4 text then H4
  else if re_match seg3 text then H3
  else if re_match seg2 text then H2
  else if re_match seg1 text then H1
  else if re_match roman_dot text then H1
  else if re_match letter_dot text then H2
  else H1.

Definition numbered_entry (h : HeadingCandidate) : OutlineEntry :=
  {| o_level := numbered_level (h_text h);
     o_text := h_text h;
     o_page := h_page h |}.

(** *** Unnumbered headings: levels by size cluster *)

Definition is_unnumbered (h : HeadingCandidate) : bool :=
  negb (h_is_numbered h) && negb (h_is_appendix h) && negb (h_is_chapter h).

Record SizeAnalysis := {
  a_count : nat;
  a_avg_score : Qc;
  a_bold_ratio : Qc;
  a_caps_ratio : Qc;
  a_size_ratio : Qc;
  a_headings : list HeadingCandidate
}.

(** [x / len(l)] with an integer numerator *)
Definition int_div (a b : Z) : exc Qc :=
  if (b =? 0)%Z then Raise "division by zero"
  else Ok (Qc_of_int a / Qc_of_int b)%Qc.

Definition count_if {A} (p : A -> bool) (l : list A) : Z :=
  Z.of_nat (List.length (List.filter p l)).

Definition sum_scores (l : list HeadingCandidate) : Z :=
  fold_left (fun acc h => (acc + h_score h)%Z) l 0%Z.

Definition analyse_size (body_size : Qc) (unnumbered : list HeadingCandidate)
    (size : Qc) : exc (Qc * SizeAnalysis) :=
  let headings_with_size :=
    List.filter (fun h => Qc_ltb (Qc_abs (h_size h - size)) (dec 5 10)) unnumbered in
  let n := Z.of_nat (List.length headings_with_size) in
  avg_score ← int_div (sum_scores headings_with_size) n;
  bold_ratio ← int_div (count_if h_is_bold headings_with_size) n;
  caps_ratio ← int_div (count_if h_is_all_caps headings_with_size) n;
  size_ratio ← float_div size body_size;
  Ok (size, {| a_count := List.length headings_with_size;
               a_avg_score := avg_score;
               a_bold_ratio := bold_ratio;
               a_caps_ratio := caps_ratio;
               a_size_ratio := size_ratio;
               a_headings := headings_with_size |}).

(** [improved_composite_score], on the analysis of a size *)
Definition improved_composite_score (a : SizeAnalysis) : Qc :=
  let size_weight := (a_size_ratio a * dec 6 10)%Qc in
  let format_weight := ((a_bold_ratio a + a_caps_ratio a) * dec 3 10)%Qc in
  let score_weight := ((a_avg_score a / dec 10 1) * dec 1 10)%Qc in
  (size_weight + format_weight + score_weight)%Qc.

(** [level_thresholds]: (level, min_size_ratio, min_score), in dict order. *)
Definition level_thresholds : list (Level * Qc * Qc) :=
  [ (H1, dec 16 10, dec 10 1);
    (H2, dec 14 10, dec 8 1);
    (H3, dec 12 10, dec 7 1);
    (H4, dec 11 10, dec 6 1) ].

Definition unused (assigned_levels : list Level) (level : Level) : bool :=
  negb (bool_decide (level ∈ assigned_levels)).

(** The first unused level whose two gates the cluster passes. *)
Definition gated_level (assigned_levels : list Level) (a : SizeAnalysis)
    : option Level :=
  match List.find (fun t =>
                let '(level, min_size_ratio, min_score) := t in
                unused assigned_levels level &&
                Qc_leb min_size_ratio (a_size_ratio a) &&
                Qc_leb min_score (a_avg_score a))
             level_thresholds with
  | Some (level, _, _) => Some level
  | None => None
  end.

(** The fallback: the first unused level of H1, H2, H3, H4. *)
Definition fallback_level (assigned_levels : list Level) : option Level :=
  List.find (unused assigned_levels) [H1; H2; H3; H4].

Definition pick_level (assigned_levels : list Level) (a : SizeAnalysis)
    : option Level :=
  match gated_level assigned_levels a with
  | Some level => Some level
  | None => fallback_level assigned_levels
  end.

(** [size_level_map[k] = v] on a dict in insertion order *)
Fixpoint dict_set {V} (k : Qc) (v : V) (m : list (Qc * V)) : list (Qc * V) :=
  match m with
  | [] => [(k, v)]
  | (k', v') :: m' =>
      if Qc_eqb k' k then (k', v) :: m' else (k', v') :: dict_set k v m'
  end.

Definition similar_sizes (unique_sizes : list Qc) (size : Qc) : list Qc :=
  List.filter (fun check_size => Qc_ltb (Qc_abs (check_size - size)) 1%Qc)
              unique_sizes.

(** One round of [for size in sorted_sizes], on a size with its analysis;
    the state is [(assigned_levels, size_level_map)]. *)
Definition assign_step (unique_sizes : list Qc)
    (st : list Level * list (Qc * Level)) (sa : Qc * SizeAnalysis)
    : list Level * list (Qc * Level) :=
  let '(assigned_levels, size_level_map) := st in
  let '(size, analysis) := sa in
  match pick_level assigned_levels analysis with
  | Some assigned_level =>
      (assigned_level :: assigned_levels,
       fold_left (fun m check_size => dict_set check_size assigned_level m)
                 (similar_sizes unique_sizes size) size_level_map)
  | None => st
  end.

Definition assign_levels (unique_sizes : list Qc)
    (sorted_sizes : list (Qc * SizeAnalysis))
    : list Level * list (Qc * Level) :=
  fold_left (assign_step unique_sizes) sorted_sizes ([], []).

(** [sorted(unique_sizes, key=improved_composite_score, reverse=True)];
    each size travels with its [size_analysis] entry. *)
Definition sort_by_composite (size_analysis : list (Qc * SizeAnalysis))
    : list (Qc * SizeAnalysis) :=
  sort_by (fun a b => Qc_leb (improved_composite_score (snd b))
                             (improved_composite_score (snd a)))
          size_analysis.

(** *** Text cleanup of an unnumbered heading *)

(** [\s*[\._]{2,}\s*(\d+|[ivx]+)\s*$] *)
Definition pat_toc_leader : regex :=
  CatL [Star ws; RepAtLeast 2 (Chr (one_of "._")); Star ws;
        Alt (Plus d) (Plus (Chr (one_of "ivx"))); Star ws; Eos].

Definition at_end : option ascii -> chars -> bool :=
  fun _ rest => match rest with [] => true | _ => false end.

(** [re.sub(r, '', s)] for a pattern that ends in [\s*$]: the leftmost
    match runs to the end of the text and is cut off. *)
Fixpoint cut_suffix (r : regex) (prev : option ascii) (s : chars) : chars :=
  if rmatch r prev s at_end then []
  else match s with
       | [] => []
       | c :: s' => c :: cut_suffix r (Some c) s'
       end.

Definition strip_toc_leader (s : string) : string :=
  of_chars (cut_suffix pat_toc_leader None (to_chars s)).

(** [re.sub(r'^[\s\._]+|[\s\._]+$', '', s)] *)
Definition strip_punct (s : string) : string :=
  of_chars (strip_chars (fun c => is_space c || one_of "._" c) (to_chars s)).

Definition clean_heading_text (text : string) : string :=
  let clean_text := py_strip text in
  let clean_text := strip_toc_leader clean_text in
  let clean_text := collapse_ws clean_text in
  let clean_text := remove_control clean_text in
  strip_punct clean_text.

Definition toc_words : list string := ["table of contents"; "contents"; "index"].

Definition keep_clean_text (title clean_text : string) : bool :=
  (2 <? py_len clean_text)%nat &&
  negb (String.eqb (py_lower clean_text) (py_lower title)) &&
  negb (existsb (String.eqb (py_lower clean_text)) toc_words).

(** [min(size_level_map.keys(), key=lambda s: abs(s - size_key), default=None)] *)
Definition closest_size (size_level_map : list (Qc * Level)) (size_key : Qc)
    : option (Qc * Level) :=
  match size_level_map with
  | [] => None
  | kv :: m' =>
      Some (py_min_by (fun a b => Qc_ltb (Qc_abs (fst a - size_key))
                                         (Qc_abs (fst b - size_key))) kv m')
  end.

(** The level of an unnumbered heading; [None] when the closest mapped size
    is missing, is [0.0] (which Python reads as false) or is 2.0 or more
    away. *)
Definition level_for (size_level_map : list (Qc * Level)) (h : HeadingCandidate)
    : option Level :=
  let size_key := round2 (h_size h) in
  match closest_size size_level_map size_key with
  | Some (closest, level) =>
      if negb (Qc_eqb closest 0%Qc) &&
         Qc_ltb (Qc_abs (closest - size_key)) (dec 2 1)
      then Some level else None
  | None => None
  end.

Definition unnumbered_entry (size_level_map : list (Qc * Level))
    (title : string) (h : HeadingCandidate) : option OutlineEntry :=
  match level_for size_level_map h with
  | Some level =>
      let clean_text := clean_heading_text (h_text h) in
      if keep_clean_text title clean_text
      then Some {| o_level := level; o_text := clean_text; o_page := h_page h |}
      else None
  | None => None
  end.

(** *** The final sort and the removal of duplicates *)

Definition by_page_text (a b : OutlineEntry) : bool :=
  (o_page a <? o_page b)%nat ||
  ((o_page a =? o_page b)%nat && String.leb (o_text a) (o_text b)).

Definition entry_key (item : OutlineEntry) : string * nat :=
  (py_lower (o_text item), o_page item).

Fixpoint remove_duplicates (seen : gset (string * nat))
    (outline : list OutlineEntry) : list OutlineEntry :=
  match outline with
  | [] => []
  | item :: rest =>
      let key := entry_key item in
      if bool_decide (key ∈ seen) then remove_duplicates seen rest
      else item :: remove_duplicates ({[ key ]} ∪ seen) rest
  end.

Definition finish_outline (outline : list OutlineEntry) : list OutlineEntry :=
  remove_duplicates ∅ (sort_by by_page_text outline).

(** ** [_extract_headings] *)

Section Extract.
(** The order in which Python enumerates [set(...)]: unspecified, so a
    parameter.  It lists each member of the set once. *)
Variable set_order : list Qc -> list Qc.

Definition unique_sizes_of (unnumbered : list HeadingCandidate) : list Qc :=
  sort_by (fun a b => Qc_leb b a)
          (set_order (map (fun h => round2 (h_size h)) unnumbered)).

Definition size_level_map_of (body_size : Qc)
    (unnumbered : list HeadingCandidate) : exc (list (Qc * Level)) :=
  let unique_sizes := unique_sizes_of unnumbered in
  size_analysis ← mapM (analyse_size body_size unnumbered) unique_sizes;
  Ok (snd (assign_levels unique_sizes (sort_by_composite size_analysis))).

Definition unnumbered_entries (body_size : Qc) (title : string)
    (unnumbered : list HeadingCandidate) : exc (list OutlineEntry) :=
  match unnumbered with
  | [] => Ok []
  | _ =>
      size_level_map ← size_level_map_of body_size unnumbered;
      Ok (omap (unnumbered_entry size_level_map title)
               (sort_by by_page_y unnumbered))
  end.

(** Everything after the scan of the pages. *)
Definition build_outline (style_profile : StyleProfile) (title : string)
    (heading_candidates : list HeadingCandidate) : exc (list OutlineEntry) :=
  match heading_candidates with
  | [] => Ok []
  | _ =>
      let special_headings :=
        sort_by by_page_y (List.filter is_special heading_candidates) in
      let numbered_headings :=
        sort_by by_page_y (List.filter is_plain_numbered heading_candidates) in
      let unnumbered_headings :=
        List.filter is_unnumbered heading_candidates in
      leveled ← unnumbered_entries (body_size style_profile) title
                                   unnumbered_headings;
      Ok (finish_outline (map special_entry special_headings ++
                          map numbered_entry numbered_headings ++
                          leveled))
  end.

Definition _extract_headings (doc : Document) (style_profile : StyleProfile)
    (title : string) : exc (list OutlineEntry) :=
  cands ← heading_candidates doc style_profile;
  build_outline style_profile title cands.

(** ** [extract_document_structure] *)

(** What [fitz.open(pdf_path)] does: raise, or hand out a document. *)
Inductive OpenResult :=
| OpenFails (e : string)
| Opened (doc : Document).

(** The document handle at the moment the function returns. *)
Inductive Handle := NoHandle | HandleOpen | HandleClosed.

Definition close (h : Handle) : Handle :=
  match h with
  | NoHandle => NoHandle
  | _ => HandleClosed
  end.

Record Output := { title : string; outline : list OutlineEntry }.

Definition extract_document_structure (pdf : OpenResult) : Output * Handle :=
  match pdf with
  | OpenFails e =>
      ({| title := "Error: Failed to open or read PDF: " +:+ e;
          outline := [] |}, NoHandle)
  | Opened doc =>
      let handle := HandleOpen in
      if (List.length (pages doc) =? 0)%nat
      then ({| title := "Error: Empty or invalid PDF."; outline := [] |},
            handle)
      else
        match _profile_document_styles doc with
        | None =>
            let handle := close handle in
            ({| title := "Error: PDF contains no text content.";
                outline := [] |}, handle)
        | Some style_profile =>
            let title := _extract_title doc style_profile in
            match _extract_headings doc style_profile title with
            | Raise e =>
                let handle := close handle in
                ({| title := "Error: Failed during content extraction: " +:+ e;
                    outline := [] |}, handle)
            | Ok outline =>
                let handle := close handle in
                ({| title := title; outline := outline |}, handle)
            end
        end
  end.
End Extract.

Arguments title : simpl never.

(** ** Sample documents *)

Definition box (a b c e : Z) : BBox :=
  {| x0 := dec a 1; y0 := dec b 1; x1 := dec c 1; y1 := dec e 1 |}.

Definition one_line (y : Z) (font : string) (size : Z) (text : string) : Block :=
  {| block_bbox := box 72 y 500 (y + size);
     block_lines :=
       [ {| line_bbox := box 72 y 500 (y + size);
            line_spans := [ {| span_text := text; span_font := font;
                               span_size := dec size 1 |} ] |} ] |}.

Definition sample_page (bs : list Block) : Page :=
  {| rect_width := dec 612 1; rect_height := dec 792 1;
     blocks := bs; blocks_sorted := bs |}.

Definition body_text : string :=
  "This paragraph is ordinary body text that runs long enough to count as the body of the document, which needs more than one hundred characters.".

Definition sample_doc : Document :=
  {| pages :=
       [ sample_page [ one_line 80 "Helvetica-Bold" 24 "Quarterly Report";
                       one_line 200 "Helvetica" 10 body_text;
                       one_line 230 "Helvetica" 10 body_text ];
         sample_page [ one_line 100 "Helvetica-Bold" 16 "1. Introduction";
                       one_line 140 "Helvetica" 10 body_text;
                       one_line 200 "Helvetica-Bold" 14 "1.1 Scope of Work";
                       one_line 240 "Helvetica" 10 body_text;
                       one_line 300 "Helvetica-Bold" 18 "Executive Summary";
                       one_line 340 "Helvetica-Bold" 18 "Quarterly Report";
                       one_line 380 "Helvetica-Bold" 16 "C. Methods" ] ];
     metadata_title := Some "meta" |}.

(** * Predicates of the statements, proof tactics and sample inputs *)

(** ** Results and failures *)

(** The record of a failure with message [msg]. *)
Definition error_record (msg : string) : Output :=
  {| title := "Error: " +:+ msg; outline := [] |}.

(** The failures that end in an error record, each with its message. *)
Inductive failure (set_order : list Qc → list Qc)
    : OpenResult → string → Prop :=
| open_failure (e : string) :
    failure set_order (OpenFails e) ("Failed to open or read PDF: " +:+ e)
| empty_failure (doc : Document) :
    pages doc = [] →
    failure set_order (Opened doc) "Empty or invalid PDF."
| no_text_failure (doc : Document) :
    pages doc ≠ [] →
    all_spans blocks doc = [] →
    failure set_order (Opened doc) "PDF contains no text content."
| extraction_failure (doc : Document) (style_profile : StyleProfile)
    (e : string) :
    pages doc ≠ [] →
    _profile_document_styles doc = Some style_profile →
    _extract_headings set_order doc style_profile
      (_extract_title doc style_profile) = Raise e →
    failure set_order (Opened doc)
            ("Failed during content extraction: " +:+ e).

(** ** Enumeration orders of a set *)

(** One order in which a set may be enumerated: first occurrences. *)
Definition first_seen_order : list Qc → list Qc := remove_dups.

(** Another one: last occurrences, in reverse. *)
Definition last_seen_order (l : list Qc) : list Qc := reverse (remove_dups l).

(** An enumeration of a set lists every member once. *)
Definition valid_set_order (set_order : list Qc → list Qc) : Prop :=
  ∀ l, NoDup (set_order l) ∧ ∀ x, x ∈ set_order l ↔ x ∈ l.

(** ** Runs of characters and numbering shapes *)

(** A continuation that refuses every text starting in the class [f]. *)
Definition refuses (f : ascii → bool) (k : option ascii → chars → bool) : Prop :=
  ∀ p c s, f c = true → k p (c :: s) = false.

(** Every character of [run] is in the class [f]. *)
Definition all_in (f : ascii → bool) (run : chars) : Prop :=
  Forall (λ c, f c = true) run.

(** What stops a run: the end of the text, or a character outside [f]. *)
Definition stops (f : ascii → bool) (tail : chars) : Prop :=
  match tail with
  | [] => True
  | c :: _ => f c = false
  end.

(** The character in front of the position reached after a run. *)
Definition after_run (prev : option ascii) (run : chars) : option ascii :=
  match last run with
  | Some c => Some c
  | None => prev
  end.

(** A dotted segment, and a roman numeral: non-empty runs. *)
Definition digits (run : chars) : Prop := run ≠ [] ∧ all_in is_digit run.

Definition romans (run : chars) : Prop :=
  run ≠ [] ∧ all_in (one_of "IVXLCDM") run.

(** What follows the numbering: whitespace, then anything. *)
Definition spaced (tail : chars) : Prop :=
  match tail with
  | w :: _ => is_space w = true
  | [] => False
  end.

(** The shapes of a numbered heading, each with the level it stands for. *)
Inductive numbering : chars → Level → Prop :=
| one_segment (n1 tail : chars) :
    digits n1 → spaced tail →
    numbering (n1 ++ "."%char :: tail) H1
| two_segments (n1 n2 tail : chars) :
    digits n1 → digits n2 → spaced tail →
    numbering (n1 ++ "."%char :: n2 ++ tail) H2
| three_segments (n1 n2 n3 tail : chars) :
    digits n1 → digits n2 → digits n3 → spaced tail →
    numbering (n1 ++ "."%char :: n2 ++ "."%char :: n3 ++ tail) H3
| four_segments (n1 n2 n3 n4 tail : chars) :
    digits n1 → digits n2 → digits n3 → digits n4 → spaced tail →
    numbering (n1 ++ "."%char :: n2 ++ "."%char :: n3 ++ "."%char :: n4 ++ tail)
              H4
| roman_numeral (r tail : chars) :
    romans r → spaced tail →
    numbering (r ++ "."%char :: tail) H1
| single_letter (c : ascii) (tail : chars) :
    is_alpha c = true → one_of "IVXLCDM" c = false → spaced tail →
    numbering (c :: "."%char :: tail) H2.

(** The continuation of [heading_patterns['numbered']] after a shape:
    [\s+], then anything. *)
Definition then_ws : option ascii → chars → bool :=
  λ p s, rmatch (Plus ws) p s accept.

(** ** Orders and ranks *)

(** The relation of a boolean comparison. *)
Definition le_rel {A : Type} (le : A → A → bool) : relation A :=
  λ x y, le x y = true.

(** The place of a level in the order H1, H2, H3, H4. *)
Definition level_rank (l : Level) : nat :=
  match l with H1 => 1 | H2 => 2 | H3 => 3 | H4 => 4 end.

(** ** Proof tactics *)

(** Facts about one character, by enumeration of the 256 of them. *)
Ltac by_char c :=
  destruct c as [[] [] [] [] [] [] [] []]; vm_compute; congruence.

(** Unfolds a dotted pattern and walks through its segments with [step]. *)
Ltac seg_steps step :=
  unfold seg4, seg3, seg2, seg1; cbn [CatL];
  repeat (rewrite step by assumption).

(** Rewrites [unused assigned l] by the memberships in the context. *)
Ltac decide_unused assigned :=
  unfold unused;
  repeat match goal with
         | H : _ ∈ assigned |- _ =>
             rewrite (bool_decide_eq_true_2 _ H); clear H
         | H : _ ∉ assigned |- _ =>
             rewrite (bool_decide_eq_false_2 _ H); clear H
         end.

(** ** Sample lines, profiles and candidates *)

(** A line that is the single token "SUMMARY", in large bold type. *)
Definition summary_line : Line :=
  {| line_bbox := box 72 300 500 318;
     line_spans := [ {| span_text := "SUMMARY"; span_font := "Helvetica-Bold";
                        span_size := dec 18 1 |} ] |}.

Definition summary_block : Block :=
  {| block_bbox := box 72 300 500 318; block_lines := [summary_line] |}.

(** Two style profiles with a body size of 10 points. *)
Definition any_profile : StyleProfile :=
  {| body_size := dec 10 1; body_font := "Helvetica"; font_size_stats := [];
     heading_sizes := {| largest := dec 18 1; second_largest := dec 14 1;
                         third_largest := dec 10 1 |};
     sorted_sizes := [dec 18 1; dec 14 1; dec 10 1] |}.

Definition tiered_profile : StyleProfile :=
  {| body_size := dec 10 1; body_font := "Helvetica"; font_size_stats := [];
     heading_sizes := {| largest := dec 24 1; second_largest := dec 18 1;
                         third_largest := dec 16 1 |};
     sorted_sizes := [dec 24 1; dec 18 1; dec 16 1; dec 10 1] |}.

(** A numbered line set in the body size, with a score of 9. *)
Definition plain_numbered_line : Line :=
  {| line_bbox := box 72 100 500 110;
     line_spans := [ {| span_text := "1. introduction overview";
                        span_font := "Helvetica"; span_size := dec 10 1 |} ] |}.

Definition plain_numbered_block : Block :=
  {| block_bbox := box 72 100 500 110; block_lines := [plain_numbered_line] |}.

Definition plain_numbered_span : Span :=
  {| span_text := "1. introduction overview"; span_font := "Helvetica";
     span_size := dec 10 1 |}.

(** The signals of that line under [tiered_profile]. *)
Definition plain_numbered_signals : exc Signals :=
  signals tiered_profile (sample_page [plain_numbered_block]) None
          plain_numbered_block plain_numbered_line plain_numbered_span
          "1. introduction overview".

(** A numbered candidate with the given text and size. *)
Definition candidate (text : string) (size : Qc) : HeadingCandidate :=
  {| h_text := text; h_size := size; h_font := "Helvetica"; h_page := 1;
     h_y := dec 100 1; h_score := 12; h_is_numbered := true;
     h_is_appendix := false; h_is_chapter := false; h_is_section := false;
     h_is_bold := false; h_is_all_caps := false;
     h_size_ratio := (size / dec 10 1)%Qc |}.

(** ** Further sample documents *)

(** A document that opens and has no page. *)
Definition empty_document : Document := {| pages := []; metadata_title := None |}.

(** A page of text set at font size 0. *)
Definition hidden_text_page : Page :=
  sample_page [ one_line 100 "Helvetica" 0 "Hidden text layer" ].

(** One such page, and two. *)
Definition hidden_text_doc : Document :=
  {| pages := [hidden_text_page]; metadata_title := None |}.

Definition hidden_text_doc2 : Document :=
  {| pages := [hidden_text_page; hidden_text_page]; metadata_title := None |}.

(** Heading-styled lines on the first page only; the second page is body
    text. *)
Definition first_page_headings_doc : Document :=
  {| pages :=
       [ sample_page [ one_line 80 "Helvetica-Bold" 24 "Quarterly Report";
                       one_line 200 "Helvetica-Bold" 16 "1. Introduction";
                       one_line 240 "Helvetica" 10 body_text;
                       one_line 300 "Helvetica-Bold" 16 "2. Methods";
                       one_line 340 "Helvetica" 10 body_text ];
         sample_page [ one_line 100 "Helvetica" 10 body_text;
                       one_line 140 "Helvetica" 10 body_text ] ];
     metadata_title := None |}.

(** Five unnumbered headings in five sizes on the second page. *)
Definition five_cluster_doc : Document :=
  {| pages :=
       [ sample_page [ one_line 80 "Helvetica-Bold" 36 "Annual Review";
                       one_line 200 "Helvetica" 10 body_text;
                       one_line 230 "Helvetica" 10 body_text ];
         sample_page [ one_line 100 "Helvetica-Bold" 30 "Alpha Heading One";
                       one_line 150 "Helvetica" 10 body_text;
                       one_line 200 "Helvetica-Bold" 27 "Beta Heading Two";
                       one_line 250 "Helvetica" 10 body_text;
                       one_line 300 "Helvetica-Bold" 24 "Gamma Heading Three";
                       one_line 350 "Helvetica" 10 body_text;
                       one_line 400 "Helvetica-Bold" 21 "Delta Heading Four";
                       one_line 450 "Helvetica" 10 body_text;
                       one_line 500 "Helvetica-Bold" 18 "Epsilon Heading Five";
                       one_line 550 "Helvetica" 10 body_text ] ];
     metadata_title := None |}.

(** A numbered heading, and a chapter heading, that repeat the title. *)
Definition numbered_title_doc : Document :=
  {| pages :=
       [ sample_page [ one_line 80 "Helvetica-Bold" 24 "1. Project Overview";
                       one_line 200 "Helvetica" 10 body_text;
                       one_line 230 "Helvetica" 10 body_text ];
         sample_page [ one_line 100 "Helvetica-Bold" 16 "1. Project Overview";
                       one_line 150 "Helvetica" 10 body_text ] ];
     metadata_title := None |}.

(** The same with a chapter heading, and with an unnumbered heading in
    capitals. *)
Definition chapter_title_doc : Document :=
  {| pages :=
       [ sample_page [ one_line 80 "Helvetica-Bold" 24 "Chapter 1 Overview";
                       one_line 200 "Helvetica" 10 body_text;
                       one_line 230 "Helvetica" 10 body_text ];
         sample_page [ one_line 100 "Helvetica-Bold" 16 "Chapter 1 Overview";
                       one_line 150 "Helvetica" 10 body_text;
                       one_line 200 "Helvetica-Bold" 16 "Project Overview Notes";
                       one_line 250 "Helvetica" 10 body_text ] ];
     metadata_title := None |}.

Definition unnumbered_title_doc : Document :=
  {| pages :=
       [ sample_page [ one_line 80 "Helvetica-Bold" 24 "Project Overview";
                       one_line 200 "Helvetica" 10 body_text;
                       one_line 230 "Helvetica" 10 body_text ];
         sample_page [ one_line 100 "Helvetica-Bold" 16 "PROJECT OVERVIEW";
                       one_line 150 "Helvetica" 10 body_text;
                       one_line 200 "Helvetica-Bold" 16 "Project Scope Notes";
                       one_line 250 "Helvetica" 10 body_text ] ];
     metadata_title := None |}.

(** * Further notions for the statements *)

(** ** Spans and their statistics *)

(** The rounded font sizes of all spans of the document, in reading order. *)
Definition rounded_sizes (doc : Document) : list Qc :=
  map (λ span, round2 (span_size span)) (all_spans blocks doc).

(** [font_size_stats] after the spans of a list have been added. *)
Definition stats_of (spans : list Span) : list (Qc * SizeStats) :=
  fold_left (λ m span, stats_add (round2 (span_size span)) span m) spans [].

(** The spans whose rounded size is [size]. *)
Definition spans_of_size (size : Qc) (spans : list Span) : list Span :=
  List.filter (λ span, Qc_eqb (round2 (span_size span)) size) spans.

(** The font name of the span indicates bold or heavy styling. *)
Definition bold_font (span : Span) : bool :=
  any_keyword_in bold_keywords (py_lower (span_font span)).

(** The characters of the stripped texts of the spans. *)
Definition text_chars (spans : list Span) : nat :=
  list_sum (map (λ span, py_len (py_strip (span_text span))) spans).

(** The spans set in [font]. *)
Definition font_uses (font : string) (spans : list Span) : nat :=
  List.length (List.filter (λ span, String.eqb font (span_font span)) spans).

(** [font_size_stats.get(size)], with the fresh entry for a missing size. *)
Fixpoint stats_get (size : Qc) (m : list (Qc * SizeStats)) : SizeStats :=
  match m with
  | [] => empty_stats
  | (k, st) :: m' => if Qc_eqb k size then st else stats_get size m'
  end.

(** [c[k]] on a [Counter]: 0 for a missing key. *)
Fixpoint counter_get (k : string) (c : list (string * nat)) : nat :=
  match c with
  | [] => 0
  | (k', m) :: c' => if String.eqb k k' then m else counter_get k c'
  end.

(** What the pairs of a list add to the key [k] of a counter. *)
Fixpoint sum_for (k : string) (upd : list (string * nat)) : nat :=
  match upd with
  | [] => 0
  | (k', n) :: upd' => (if String.eqb k k' then n else 0) + sum_for k upd'
  end.

(** The uses of the font [k] counted in all entries of [font_size_stats]. *)
Fixpoint fonts_total (k : string) (m : list (Qc * SizeStats)) : nat :=
  match m with
  | [] => 0
  | kv :: m' => sum_for k (fonts (snd kv)) + fonts_total k m'
  end.

(** The order of [sorted_sizes]: descending. *)
Definition desc (a b : Qc) : bool := Qc_leb b a.

(** A size with more than 100 characters of text behind it. *)
Definition substantial (kv : Qc * SizeStats) : bool :=
  (100 <? total_chars (snd kv))%nat.

(** [all_fonts]: the font counters of all sizes, added up. *)
Definition all_fonts_of (m : list (Qc * SizeStats)) : list (string * nat) :=
  fold_left (λ acc kv, counter_update acc (fonts (snd kv))) m [].

(** ** Words *)

(** How often [w] occurs in a list of words. *)
Definition occurrences (w : string) (words : list string) : nat :=
  List.length (List.filter (String.eqb w) words).

(** The words [_is_repetitive_text] counts: more than 2 characters. *)
Definition long_word (word : string) : bool := (2 <? py_len word)%nat.

(** No word repeats, ignoring case, the word before it or the word two
    places before it. *)
Definition no_close_repeat (words : list string) : Prop :=
  ∀ i w v, words !! i = Some w →
    words !! S i = Some v ∨ words !! S (S i) = Some v →
    py_lower v ≠ py_lower w.


(** ** Candidates and entries *)

(** The order of the final sort: by page, then by text. *)
Definition page_text_le (a b : OutlineEntry) : Prop :=
  (o_page a < o_page b)%nat ∨
  (o_page a = o_page b ∧ String.leb (o_text a) (o_text b) = true).

(** Neither the first nor the last character of [cs] is in the class [p]. *)
Definition trimmed (p : ascii → bool) (cs : chars) : Prop :=
  (∀ c, head cs = Some c → p c = false) ∧
  (∀ c, last cs = Some c → p c = false).

(** What the scan of the pages guarantees of a heading candidate: its text
    has no white space around it and
    passed the non-heading filter, its score reached the threshold, and its
    flags are those of its text. *)
Definition accepted_candidate (c : HeadingCandidate) : Prop :=
  trimmed is_space (to_chars (h_text c)) ∧
  discarded (h_text c) = false ∧
  (2 ≤ word_count_of (h_text c) ≤ 15)%nat ∧
  (6 ≤ h_score c)%Z ∧
  ((h_size_ratio c ≤ dec 11 10)%Qc ∨ (10 < word_count_of (h_text c))%nat →
   (10 ≤ h_score c)%Z) ∧
  h_is_numbered c = re_match pat_numbered (h_text c) ∧
  h_is_chapter c = re_match pat_chapter (py_lower (h_text c)) ∧
  h_is_appendix c = re_match pat_appendix (py_lower (h_text c)).

(** The state of the loop over the ranked clusters is well formed. *)
Definition levels_state_ok (unique_sizes : list Qc)
    (st : list Level * list (Qc * Level)) : Prop :=
  NoDup (fst st) ∧ NoDup (map fst (snd st)) ∧
  ∀ size level, (size, level) ∈ snd st →
                level ∈ fst st ∧ size ∈ unique_sizes.


(** ** [process_pdfs] (process_pdfs.py)

    The driver runs [extract_document_structure] on every PDF file of the
    input directory.  Its effects are recorded as a trace: the lines it
    prints and the JSON files it writes, each with the record that is
    dumped.  The directory listing is an input, in the order of
    [input_dir.glob]. *)

Record PdfFile := {
  pdf_name : string;
  pdf_stem : string;
  pdf_contents : OpenResult
}.

Inductive Event :=
| Print (text : string)
| Dump (output_file : string) (output_data : Output).

(** [str(n)] of a non-negative integer *)
Definition py_str_of_nat (n : nat) : string :=
  NilZero.string_of_uint (Nat.to_uint n).

Section Driver.
Variable set_order : list Qc -> list Qc.

(** The body of [for pdf_file in pdf_files]. *)
Definition process_pdf (pdf_file : PdfFile) : list Event :=
  let output_data :=
    fst (extract_document_structure set_order (pdf_contents pdf_file)) in
  let output_file := "/app/output/" +:+ pdf_stem pdf_file +:+ ".json" in
  [ Print ("Processing " +:+ pdf_name pdf_file +:+ "...");
    Dump output_file output_data;
    if py_in "Error:" (title output_data)
    then Print ("--> Finished " +:+ pdf_name pdf_file +:+ " with an error.")
    else
      let headings_count := List.length (outline output_data) in
      Print ("--> Successfully processed. Found " +:+
             py_str_of_nat headings_count +:+ " headings.") ].

Definition process_pdfs (pdf_files : list PdfFile) : list Event :=
  [ Print "Starting processing PDFs";
    Print ("Found " +:+ py_str_of_nat (List.length pdf_files) +:+
           " PDF(s) to process.") ] ++
  flat_map process_pdf pdf_files ++
  [ Print "Completed processing PDFs" ].
End Driver.

(** The files written in a trace, in order. *)
Definition dumps (trace : list Event) : list (string * Output) :=
  omap (λ ev, match ev with
              | Dump output_file output_data => Some (output_file, output_data)
              | Print _ => None
              end) trace.

(** ** A further sample document *)

(** A first page without a line of 1.3 times the body size. *)
Definition small_title_page : Page :=
  sample_page [ one_line 80 "Helvetica" 12 "Annual Report";
                one_line 120 "Helvetica" 12 "Second Edition";
                one_line 200 "Helvetica" 10 body_text;
                one_line 230 "Helvetica" 10 body_text ].

Definition small_title_doc : Document :=
  {| pages := [small_title_page]; metadata_title := Some "meta" |}.

(** ** The entries before the final sort, and the duplicate test *)

(** The list [outline] as the three paths have filled it, in the order of
    the [append]s, before the final sort. *)
Definition raw_outline (set_order : list Qc → list Qc)
    (style_profile : StyleProfile) (title : string)
    (heading_candidates : list HeadingCandidate) : exc (list OutlineEntry) :=
  let special_headings :=
    sort_by by_page_y (List.filter is_special heading_candidates) in
  let numbered_headings :=
    sort_by by_page_y (List.filter is_plain_numbered heading_candidates) in
  let unnumbered_headings :=
    List.filter is_unnumbered heading_candidates in
  leveled ← unnumbered_entries set_order (body_size style_profile) title
                               unnumbered_headings;
  Ok (map special_entry special_headings ++
      map numbered_entry numbered_headings ++
      leveled).

(** The key of the duplicate test and the loop that removes duplicates,
    with the lowercasing as a parameter: [entry_key] and
    [remove_duplicates] are their instances at [py_lower]. *)
Definition entry_key_with (lower : string → string) (item : OutlineEntry)
    : string * nat :=
  (lower (o_text item), o_page item).

Fixpoint remove_duplicates_with (lower : string → string)
    (seen : gset (string * nat)) (outline : list OutlineEntry)
    : list OutlineEntry :=
  match outline with
  | [] => []
  | item :: rest =>
      let key := entry_key_with lower item in
      if bool_decide (key ∈ seen) then remove_duplicates_with lower seen rest
      else item :: remove_duplicates_with lower ({[ key ]} ∪ seen) rest
  end.

(** Two pairs of headings on the second page that differ in letter case
    only. *)
Definition duplicate_headings_doc : Document :=
  {| pages :=
       [ sample_page [ one_line 80 "Helvetica-Bold" 24 "Quarterly Report";
                       one_line 200 "Helvetica" 10 body_text;
                       one_line 230 "Helvetica" 10 body_text ];
         sample_page [ one_line 100 "Helvetica-Bold" 18 "Project Scope Notes";
                       one_line 140 "Helvetica" 10 body_text;
                       one_line 200 "Helvetica-Bold" 18 "PROJECT SCOPE NOTES";
                       one_line 240 "Helvetica" 10 body_text;
                       one_line 300 "Helvetica-Bold" 16 "1. introduction";
                       one_line 340 "Helvetica-Bold" 16 "1. Introduction" ] ];
     metadata_title := None |}.

(** ** The gates of a level *)




(** * Properties *)

(** ** The non-heading filter *)

Lemma discarded_short text :
  (word_count_of text < 2)%nat → discarded text = true.
Proof.
  intros H. unfold discarded.
  replace (word_count_of text <? 2)%nat with true
    by (symmetry; apply Nat.ltb_lt; exact H).
  rewrite ?orb_true_r, ?orb_true_l. reflexivity.
Qed.

Lemma discarded_caps_token text :
  re_match pat_caps_token text = true → discarded text = true.
Proof.
  intros H. unfold discarded. rewrite H.
  rewrite ?orb_true_r, ?orb_true_l. reflexivity.
Qed.

Lemma single_label_is_one_word (text : string) :
  is_single_label text = true → (word_count_of text < 2)%nat.
Proof.
  unfold is_single_label. cbv zeta.
  intros [[[H _]%andb_prop _]%andb_prop _]%andb_prop.
  apply Nat.eqb_eq in H. lia.
Qed.

(** C7 (amended): a line that is one token never survives the non-heading
    filter, whether or not it contains a structural keyword ("summary",
    "background", ...): the test [word_count < 2] discards every line of one
    word, and the all-caps test discards every line that is a run of two or
    more capital letters; such a line never becomes a heading candidate.
    The keyword exemption belongs to the single-label filter, which only
    applies to lines that the word-count test has discarded already. *)
Theorem single_token_line_is_skipped
    (style_profile : StyleProfile) (page : Page) (page_num : nat)
    (previous_block : option Block) (block : Block) (line : Line) :
  (word_count_of (line_text line) = 1%nat ∨
   re_match pat_caps_token (line_text line) = true →
   discarded (line_text line) = true ∧
   heading_line style_profile page page_num previous_block block line
   = Ok None) ∧
  (∀ text, is_single_label text = true → (word_count_of text < 2)%nat).
Proof.
  split; [|apply single_label_is_one_word].
  intros H.
  assert (discarded (line_text line) = true) as Hd.
  { destruct H as [H|H]; [apply discarded_short; lia|].
    apply discarded_caps_token, H. }
  split; [exact Hd|]. unfold heading_line.
  destruct (line_spans line) as [|span rest]; [reflexivity|].
  rewrite Hd. reflexivity.
Qed.

Lemma single_token_line_is_skipped_witness :
  line_text summary_line = "SUMMARY" ∧
  discarded (line_text summary_line) = true ∧
  heading_line any_profile (sample_page [summary_block]) 1 None summary_block
               summary_line = Ok None.
Proof.
  split; [reflexivity|].
  apply (proj1 (single_token_line_is_skipped any_profile
                  (sample_page [summary_block]) 1 None summary_block
                  summary_line)).
  left. reflexivity.
Defined.

(** C7, as stated, fails: the line "SUMMARY" is a single all-caps token that
    contains the structural keyword "summary", and the filter discards it,
    as it discards the other four keywords in capitals and "Summary"; the
    line yields no heading candidate, even in large bold type. *)
Lemma summary_token_is_discarded :
  word_count_of "SUMMARY" = 1%nat ∧
  py_isupper "SUMMARY" = true ∧
  any_keyword_in structural_keywords (py_strip (py_lower "SUMMARY")) = true ∧
  re_match pat_caps_token "SUMMARY" = true ∧
  map discarded ["SUMMARY"; "BACKGROUND"; "INTRODUCTION"; "CONCLUSION";
                 "APPENDIX"; "Summary"]
  = [true; true; true; true; true; true] ∧
  heading_line any_profile (sample_page [summary_block]) 1 None summary_block
               summary_line = Ok None.
Proof. vm_compute. repeat split. Qed.

(** ** The document handle *)

(** On the zero-pages path the function returns with the handle still
    open. *)
Lemma zero_page_document_is_left_open (set_order : list Qc → list Qc) :
  extract_document_structure set_order (Opened empty_document) =
  ({| title := "Error: Empty or invalid PDF."; outline := [] |}, HandleOpen).
Proof. reflexivity. Qed.

(** The sibling paths: with at least one page the handle is closed on every
    return. *)
Lemma handle_closed_with_pages (set_order : list Qc → list Qc) (doc : Document) :
  pages doc ≠ [] →
  snd (extract_document_structure set_order (Opened doc)) = HandleClosed.
Proof.
  intros Hp. unfold extract_document_structure.
  destruct (pages doc) as [|p ps] eqn:E; [congruence|]. simpl.
  destruct (_profile_document_styles doc); [|reflexivity].
  destruct (_extract_headings _ _ _ _); reflexivity.
Qed.

(** C5: the state of the document handle on return.  A document that was
    opened is closed on the no-text path, on the extraction-failure path and
    on the success path, and is left open on the zero-pages path, where
    [doc.close()] is not called. *)
Theorem handle_on_return (set_order : list Qc → list Qc) (pdf : OpenResult) :
  snd (extract_document_structure set_order pdf) =
  match pdf with
  | OpenFails _ => NoHandle
  | Opened doc =>
      match pages doc with
      | [] => HandleOpen
      | _ :: _ => HandleClosed
      end
  end.
Proof.
  destruct pdf as [e|doc]; [reflexivity|].
  destruct (pages doc) as [|page ps] eqn:E.
  - unfold extract_document_structure. rewrite E. reflexivity.
  - apply handle_closed_with_pages. rewrite E. discriminate.
Qed.

(** ** The acceptance threshold *)

Lemma min_threshold_cases (s : Signals) :
  ((10 <? word_count s)%nat || negb (is_larger s) = true →
     min_threshold s = 10%Z) ∧
  ((10 <? word_count s)%nat || negb (is_larger s) = false →
     (is_numbered s || is_chapter s || is_appendix s = true →
        min_threshold s = 6%Z) ∧
     (is_numbered s || is_chapter s || is_appendix s = false →
        ((is_much_larger s && is_bold s) || (word_count s <=? 5)%nat = true →
           min_threshold s = 7%Z) ∧
        ((is_much_larger s && is_bold s) || (word_count s <=? 5)%nat = false →
           min_threshold s = 8%Z))).
Proof.
  unfold min_threshold.
  destruct (10 <? word_count s)%nat, (is_larger s), (is_numbered s),
    (is_chapter s), (is_appendix s), (is_much_larger s), (is_bold s),
    (word_count s <=? 5)%nat; cbn; intuition congruence.
Qed.

(** C6 (amended): for a line that survives the filter, the threshold is 10
    when the line has more than 10 words or is not larger than body size,
    whatever else holds; otherwise 6 when it matches a numbered, chapter or
    appendix pattern; otherwise 7 when it is much larger and bold, or has at
    most 5 words; otherwise 8.  The line is accepted if and only if its
    score reaches that threshold. *)
Theorem threshold_and_acceptance
    (style_profile : StyleProfile) (page : Page) (page_num : nat)
    (previous_block : option Block) (block : Block) (line : Line)
    (span : Span) (rest : list Span) (s : Signals) :
  line_spans line = span :: rest →
  discarded (line_text line) = false →
  signals style_profile page previous_block block line span (line_text line)
    = Ok s →
  let raised := (10 <? word_count s)%nat || negb (is_larger s) in
  let patterned := is_numbered s || is_chapter s || is_appendix s in
  let prominent :=
    (is_much_larger s && is_bold s) || (word_count s <=? 5)%nat in
  min_threshold s =
    (if raised then 10 else if patterned then 6 else if prominent then 7
     else 8)%Z ∧
  (heading_line style_profile page page_num previous_block block line
     = Ok (Some (make_candidate page_num line span (line_text line) s))
   ↔ (min_threshold s ≤ score_of s)%Z) ∧
  (heading_line style_profile page page_num previous_block block line
     = Ok None
   ↔ (score_of s < min_threshold s)%Z).
Proof.
  intros Hspans Hkeep Hsig raised patterned prominent.
  split.
  - destruct (min_threshold_cases s) as [H10 Hrest].
    subst raised patterned prominent.
    destruct ((10 <? word_count s)%nat || negb (is_larger s)) eqn:E1.
    + auto.
    + destruct (Hrest eq_refl) as [H6 H78].
      destruct (is_numbered s || is_chapter s || is_appendix s) eqn:E2.
      * auto.
      * destruct (H78 eq_refl) as [H7 H8].
        destruct ((is_much_larger s && is_bold s) || (word_count s <=? 5)%nat);
          auto.
  - unfold heading_line. rewrite Hspans, Hkeep, Hsig. cbn.
    destruct (Z.leb_spec (min_threshold s) (score_of s)); split; split;
      intros; try congruence; try lia; reflexivity.
Qed.

(** C6, as stated, fails: this numbered line passes the filter and scores 9,
    which is at least 6, and it is rejected, because a line that is not
    larger than body size gets the threshold 10. *)
Lemma numbered_line_threshold_is_ten :
  line_text plain_numbered_line = "1. introduction overview" ∧
  discarded "1. introduction overview" = false ∧
  match plain_numbered_signals with
  | Ok s => is_numbered s = true ∧ score_of s = 9%Z ∧ min_threshold s = 10%Z
  | Raise _ => False
  end ∧
  heading_line tiered_profile (sample_page [plain_numbered_block]) 1 None
               plain_numbered_block plain_numbered_line = Ok None.
Proof. vm_compute. repeat split. Qed.

Lemma threshold_and_acceptance_witness :
  match plain_numbered_signals with
  | Ok s =>
      min_threshold s = 10%Z ∧
      (heading_line tiered_profile (sample_page [plain_numbered_block]) 1 None
                    plain_numbered_block plain_numbered_line = Ok None
       ↔ (score_of s < min_threshold s)%Z)
  | Raise _ => False
  end.
Proof.
  destruct plain_numbered_signals as [s|e] eqn:E; [|vm_compute in E; discriminate].
  pose proof (threshold_and_acceptance tiered_profile
                (sample_page [plain_numbered_block]) 1 None plain_numbered_block
                plain_numbered_line plain_numbered_span [] s
                eq_refl eq_refl E) as (Hthr & _ & Hrej).
  split; [|exact Hrej].
  rewrite Hthr. vm_compute in E. injection E as <-. reflexivity.
Defined.

(** ** The error monad *)

Lemma bind_Ok {A B} (m : exc A) (f : A → exc B) (b : B) :
  (x ← m; f x) = Ok b ↔ ∃ a, m = Ok a ∧ f a = Ok b.
Proof.
  destruct m as [a|e]; cbn; split.
  - intros H. exists a. auto.
  - intros (a' & Ha & Hf). injection Ha as ->. exact Hf.
  - discriminate.
  - intros (a' & Ha & _). discriminate.
Qed.

Lemma bind_Raise {A B} (m : exc A) (f : A → exc B) (e : string) :
  (x ← m; f x) = Raise e ↔ m = Raise e ∨ ∃ a, m = Ok a ∧ f a = Raise e.
Proof.
  destruct m as [a|e']; cbn; split.
  - intros H. right. exists a. auto.
  - intros [H|(a' & Ha & Hf)]; [discriminate|]. injection Ha as ->. exact Hf.
  - intros [= ->]. left. reflexivity.
  - intros [[= ->]|(a' & Ha & _)]; [reflexivity|discriminate].
Qed.

Lemma mapM_cons {A B} (f : A → exc B) (a : A) (l : list A) :
  mapM f (a :: l) = (b ← f a; bs ← mapM f l; Ok (b :: bs)).
Proof. reflexivity. Qed.

Lemma mapM_Ok {A B} (f : A → exc B) (l : list A) (bs : list B) :
  mapM f l = Ok bs → Forall2 (λ a b, f a = Ok b) l bs.
Proof.
  revert bs. induction l as [|a l IH]; intros bs H.
  - injection H as <-. constructor.
  - rewrite mapM_cons in H.
    apply bind_Ok in H as (b & Hb & H).
    apply bind_Ok in H as (bs' & Hbs & H).
    injection H as <-. constructor; auto.
Qed.

Lemma mapM_Ok_all {A B} (f : A → exc B) (l : list A) :
  Forall (λ a, ∃ b, f a = Ok b) l → ∃ bs, mapM f l = Ok bs.
Proof.
  induction 1 as [|a l [b Hb] _ [bs Hbs]].
  - exists []. reflexivity.
  - exists (b :: bs). rewrite mapM_cons, Hb. cbn. rewrite Hbs. reflexivity.
Qed.

(** ** Sorting and the removal of duplicates *)

Lemma insert_sorted_perm {A} (le : A → A → bool) (x : A) (l : list A) :
  insert_sorted le x l ≡ₚ x :: l.
Proof.
  induction l as [|y l IH]; cbn; [reflexivity|].
  destruct (le x y); [reflexivity|].
  rewrite IH. apply Permutation_swap.
Qed.

Lemma sort_by_perm {A} (le : A → A → bool) (l : list A) :
  sort_by le l ≡ₚ l.
Proof.
  induction l as [|x l IH]; cbn; [reflexivity|].
  rewrite insert_sorted_perm, IH. reflexivity.
Qed.

Lemma elem_of_sort_by {A} (le : A → A → bool) (l : list A) (x : A) :
  x ∈ sort_by le l ↔ x ∈ l.
Proof. rewrite sort_by_perm. reflexivity. Qed.

Lemma elem_of_map {A B} (f : A → B) (l : list A) (y : B) :
  y ∈ map f l ↔ ∃ x, y = f x ∧ x ∈ l.
Proof. apply (list_elem_of_fmap f l y). Qed.

Lemma remove_duplicates_sublist (seen : gset (string * nat))
    (l : list OutlineEntry) :
  remove_duplicates seen l `sublist_of` l.
Proof.
  revert seen. induction l as [|item l IH]; intros seen; cbn.
  - constructor.
  - case_bool_decide.
    + apply sublist_cons, IH.
    + apply sublist_skip, IH.
Qed.

Lemma remove_duplicates_fresh (seen : gset (string * nat))
    (l : list OutlineEntry) (item : OutlineEntry) :
  item ∈ remove_duplicates seen l → entry_key item ∉ seen.
Proof.
  revert seen. induction l as [|x l IH]; intros seen; cbn.
  - intros H. inversion H.
  - case_bool_decide as Hx.
    + apply IH.
    + intros [->|H]%elem_of_cons; [exact Hx|].
      apply IH in H. intros Hs. apply H, elem_of_union_r, Hs.
Qed.

Lemma remove_duplicates_NoDup (seen : gset (string * nat))
    (l : list OutlineEntry) :
  NoDup (map entry_key (remove_duplicates seen l)).
Proof.
  revert seen. induction l as [|x l IH]; intros seen; cbn.
  - constructor.
  - case_bool_decide as Hx; [apply IH|].
    cbn. constructor; [|apply IH].
    intros (y & Hy & Hin)%elem_of_map.
    apply remove_duplicates_fresh in Hin. apply Hin. rewrite <- Hy.
    apply elem_of_union_l, elem_of_singleton. reflexivity.
Qed.

(** Every key that occurs among the entries, and is not yet seen, is kept. *)
Lemma remove_duplicates_complete (seen : gset (string * nat))
    (l : list OutlineEntry) (item : OutlineEntry) :
  item ∈ l → entry_key item ∉ seen →
  entry_key item ∈ map entry_key (remove_duplicates seen l).
Proof.
  revert seen. induction l as [|x l IH]; intros seen Hin Hseen.
  - inversion Hin.
  - cbn. case_bool_decide as Hx.
    + apply elem_of_cons in Hin as [->|Hin]; [contradiction|]. auto.
    + cbn. destruct (decide (entry_key item = entry_key x)) as [->|Hne].
      * left.
      * right. apply elem_of_cons in Hin as [->|Hin]; [congruence|].
        apply IH; [exact Hin|].
        intros [Hs%elem_of_singleton|Hs]%elem_of_union; contradiction.
Qed.

Lemma finish_outline_elem (raw : list OutlineEntry) (item : OutlineEntry) :
  item ∈ finish_outline raw → item ∈ raw.
Proof.
  unfold finish_outline. intros H.
  apply elem_of_sublist with (l2 := sort_by by_page_text raw) in H;
    [|apply remove_duplicates_sublist].
  apply elem_of_sort_by in H. exact H.
Qed.

(** ** Where the entries of the outline come from *)

Lemma heading_line_page (style_profile : StyleProfile) (page : Page)
    (page_num : nat) (previous_block : option Block) (block : Block)
    (line : Line) (c : HeadingCandidate) :
  heading_line style_profile page page_num previous_block block line
    = Ok (Some c) →
  h_page c = page_num.
Proof.
  unfold heading_line.
  destruct (line_spans line) as [|span rest]; [discriminate|].
  destruct (discarded (line_text line)); [discriminate|].
  intros (s & _ & H)%bind_Ok.
  destruct (min_threshold s <=? score_of s)%Z; [|discriminate].
  injection H as <-. reflexivity.
Qed.

Lemma heading_blocks_page (style_profile : StyleProfile) (page : Page)
    (page_num : nat) (bs : list Block) :
  ∀ (previous_block : option Block) (l : list HeadingCandidate),
    heading_blocks style_profile page page_num previous_block bs = Ok l →
    Forall (λ c, h_page c = page_num) l.
Proof.
  induction bs as [|block bs IH]; intros prev l; cbn.
  - intros [= <-]. constructor.
  - destruct (in_margin page block); [apply IH|].
    intros (found & Hfound & H)%bind_Ok.
    apply bind_Ok in H as (rest & Hrest & [= <-]).
    apply Forall_app. split; [|eapply IH; eassumption].
    apply Forall_forall. intros c (o & Ho & Hc)%list_elem_of_omap.
    cbn in Hc. subst o.
    apply mapM_Ok in Hfound.
    apply list_elem_of_lookup in Ho as [i Hi].
    destruct (Forall2_lookup_r _ _ _ _ _ Hfound Hi) as (line & _ & Hline).
    eapply heading_line_page, Hline.
Qed.

Lemma heading_pages_page (style_profile : StyleProfile) (ps : list Page) :
  ∀ (page_num : nat) (l : list HeadingCandidate),
    heading_pages style_profile page_num ps = Ok l →
    Forall (λ c, (page_num ≤ h_page c)%nat) l.
Proof.
  induction ps as [|page ps IH]; intros n l; cbn.
  - intros [= <-]. constructor.
  - intros (here & Hhere & H)%bind_Ok.
    apply bind_Ok in H as (rest & Hrest & [= <-]).
    apply Forall_app. split.
    + apply heading_blocks_page in Hhere.
      eapply Forall_impl; [exact Hhere|]. cbn. intros c ->. lia.
    + apply IH in Hrest. eapply Forall_impl; [exact Hrest|]. cbn. lia.
Qed.

Lemma heading_candidates_page (doc : Document) (style_profile : StyleProfile)
    (l : list HeadingCandidate) :
  heading_candidates doc style_profile = Ok l →
  Forall (λ c, (1 ≤ h_page c)%nat) l.
Proof. apply heading_pages_page. Qed.

Lemma unnumbered_entry_page (size_level_map : list (Qc * Level))
    (title : string) (h : HeadingCandidate) (e : OutlineEntry) :
  unnumbered_entry size_level_map title h = Some e → o_page e = h_page h.
Proof.
  unfold unnumbered_entry.
  destruct (level_for size_level_map h); [|discriminate].
  destruct (keep_clean_text _ _); [|discriminate].
  intros [= <-]. reflexivity.
Qed.

Lemma elem_of_filter_bool {A} (p : A → bool) (l : list A) (x : A) :
  x ∈ List.filter p l ↔ x ∈ l ∧ p x = true.
Proof. rewrite !list_elem_of_In. apply filter_In. Qed.

Section OutlineSources.
Variable set_order : list Qc → list Qc.

(** Every entry of the outline carries the page of a heading candidate. *)
Lemma build_outline_page (style_profile : StyleProfile) (title : string)
    (cands : list HeadingCandidate) (out : list OutlineEntry) :
  build_outline set_order style_profile title cands = Ok out →
  ∀ e, e ∈ out → ∃ h, h ∈ cands ∧ o_page e = h_page h.
Proof.
  unfold build_outline. destruct cands as [|c0 cs] eqn:E.
  - intros [= <-] e He. inversion He.
  - rewrite <- E. clear E c0 cs.
    intros (leveled & Hlev & [= <-])%bind_Ok e He.
    apply finish_outline_elem in He.
    apply elem_of_app in He as [He|He]; [|apply elem_of_app in He as [He|He]].
    + apply elem_of_map in He as (h & -> & Hh).
      apply elem_of_sort_by, elem_of_filter_bool in Hh as [Hh _]. eauto.
    + apply elem_of_map in He as (h & -> & Hh).
      apply elem_of_sort_by, elem_of_filter_bool in Hh as [Hh _]. eauto.
    + unfold unnumbered_entries in Hlev.
      destruct (List.filter is_unnumbered cands) as [|u0 us] eqn:Eu.
      * injection Hlev as <-. inversion He.
      * rewrite <- Eu in Hlev.
        apply bind_Ok in Hlev as (m & _ & [= <-]).
        apply list_elem_of_omap in He as (h & Hh & Hentry).
        apply elem_of_sort_by, elem_of_filter_bool in Hh as [Hh _].
        apply unnumbered_entry_page in Hentry. eauto.
Qed.

Lemma extract_headings_page (doc : Document) (style_profile : StyleProfile)
    (title : string) (out : list OutlineEntry) :
  _extract_headings set_order doc style_profile title = Ok out →
  Forall (λ e, (1 ≤ o_page e)%nat) out.
Proof.
  unfold _extract_headings. intros (cands & Hc & Hb)%bind_Ok.
  apply Forall_forall. intros e He.
  destruct (build_outline_page _ _ _ _ Hb e He) as (h & Hh & ->).
  apply heading_candidates_page in Hc.
  rewrite Forall_forall in Hc. auto.
Qed.

(** A document of one page has no heading candidates. *)
Lemma single_page_no_headings (doc : Document) (style_profile : StyleProfile)
    (title : string) (page : Page) :
  pages doc = [page] →
  _extract_headings set_order doc style_profile title = Ok [].
Proof.
  intros Hp. unfold _extract_headings, heading_candidates. rewrite Hp.
  reflexivity.
Qed.

End OutlineSources.

(** ** The shape of the result *)

Section Results.
Variable set_order : list Qc → list Qc.

Lemma heading_pages_no_blocks (style_profile : StyleProfile) (ps : list Page) :
  Forall (λ page, blocks_sorted page = []) ps →
  ∀ page_num, heading_pages style_profile page_num ps = Ok [].
Proof.
  induction 1 as [|page ps Hpage _ IH]; intros n; cbn; [reflexivity|].
  rewrite Hpage. cbn. rewrite IH. reflexivity.
Qed.

(** The outline of the result is what [_extract_headings] returned, or is
    empty. *)
Lemma result_outline (pdf : OpenResult) :
  outline (fst (extract_document_structure set_order pdf)) = [] ∨
  ∃ doc style_profile,
    pdf = Opened doc ∧
    _profile_document_styles doc = Some style_profile ∧
    _extract_headings set_order doc style_profile
      (_extract_title doc style_profile)
    = Ok (outline (fst (extract_document_structure set_order pdf))).
Proof.
  destruct pdf as [e|doc]; [left; reflexivity|].
  unfold extract_document_structure.
  destruct (List.length (pages doc) =? 0)%nat; [left; reflexivity|].
  destruct (_profile_document_styles doc) as [sp|] eqn:Esp;
    [|left; reflexivity].
  destruct (_extract_headings set_order doc sp (_extract_title doc sp))
    as [out|e] eqn:Eh; [|left; reflexivity].
  right. exists doc, sp. auto.
Qed.

(** C10: every entry of the returned outline has a page index of at least
    1, because headings are looked for on the pages from index 1 on.  When
    no line of those pages is accepted as a heading, the outline is empty,
    whatever the first page holds, also when the document is processed
    without failure. *)
Theorem outline_pages_start_at_one (pdf : OpenResult) :
  Forall (λ e, (1 ≤ o_page e)%nat)
         (outline (fst (extract_document_structure set_order pdf))) ∧
  ∀ doc style_profile, pdf = Opened doc →
    _profile_document_styles doc = Some style_profile →
    heading_pages style_profile 1 (drop 1 (pages doc)) = Ok [] →
    outline (fst (extract_document_structure set_order pdf)) = [].
Proof.
  split.
  - destruct (result_outline pdf) as [->|(doc & sp & _ & _ & H)].
    + constructor.
    + eapply extract_headings_page, H.
  - intros doc sp -> Hsp Hnone.
    destruct (result_outline (Opened doc))
      as [H|(doc' & sp' & [= <-] & Hsp' & H)]; [exact H|].
    rewrite Hsp in Hsp'. injection Hsp' as <-.
    unfold _extract_headings, heading_candidates in H.
    rewrite Hnone in H.
    apply bind_Ok in H as (cands & [= <-] & H).
    unfold build_outline in H. injection H as H. symmetry. exact H.
Qed.

End Results.

(** ** Error records *)

Lemma profile_none_iff (doc : Document) :
  _profile_document_styles doc = None ↔ all_spans blocks doc = [].
Proof.
  unfold _profile_document_styles.
  destruct (all_spans blocks doc); split; intros; congruence.
Qed.

Section Failures.
Variable set_order : list Qc → list Qc.

(** C2 (amended): the function returns a record for every input.  When the
    document fails to open, has zero pages, has at least one page and no
    text span, or heading extraction raises, the record has the title
    "Error:" followed by the message of that failure, and an empty outline.
    An exception inside title extraction is not such a failure: the title
    falls back to the metadata title, and the record is the ordinary one
    unless heading extraction raises. *)
Theorem failures_give_error_records (pdf : OpenResult) :
  (∀ msg, failure set_order pdf msg →
     fst (extract_document_structure set_order pdf) = error_record msg) ∧
  (∀ doc style_profile e out,
     pdf = Opened doc →
     pages doc ≠ [] →
     _profile_document_styles doc = Some style_profile →
     extract_title_body doc style_profile = Raise e →
     _extract_headings set_order doc style_profile (metadata_get_title doc)
       = Ok out →
     fst (extract_document_structure set_order pdf)
     = {| title := metadata_get_title doc; outline := out |}).
Proof.
  split.
  - intros msg Hf. destruct Hf as [e|doc Hp|doc Hp Hs|doc sp e Hp Hsp He].
    + reflexivity.
    + unfold extract_document_structure. rewrite Hp. reflexivity.
    + unfold extract_document_structure.
      destruct (pages doc) as [|p ps] eqn:E; [congruence|]. cbn.
      apply profile_none_iff in Hs. rewrite Hs. reflexivity.
    + unfold extract_document_structure.
      destruct (pages doc) as [|p ps] eqn:E; [congruence|]. cbn.
      rewrite Hsp, He. reflexivity.
  - intros doc sp e out -> Hp Hsp Ht Hh.
    unfold extract_document_structure.
    destruct (pages doc) as [|p ps] eqn:E; [congruence|]. cbn.
    rewrite Hsp. unfold _extract_title. rewrite Ht, Hh. reflexivity.
Qed.

End Failures.

(** C2, as stated, fails twice.  A document with zero pages has zero text
    spans and gets the empty-document error, not the no-text-content one.
    And when title extraction raises (here a division by a body size of
    zero), the record that comes back has the title "Untitled", which does
    not start with "Error:". *)
Lemma error_record_exceptions :
  (all_spans blocks empty_document = [] ∧
   fst (extract_document_structure first_seen_order (Opened empty_document))
   = {| title := "Error: Empty or invalid PDF."; outline := [] |}) ∧
  (match _profile_document_styles hidden_text_doc with
   | Some style_profile =>
       extract_title_body hidden_text_doc style_profile
       = Raise "float division by zero"
   | None => False
   end ∧
   fst (extract_document_structure first_seen_order (Opened hidden_text_doc))
   = {| title := "Untitled"; outline := [] |}).
Proof. vm_compute. repeat split. Qed.

Lemma failures_give_error_records_witness :
  fst (extract_document_structure first_seen_order (Opened hidden_text_doc2))
  = error_record "Failed during content extraction: float division by zero".
Proof.
  destruct (_profile_document_styles hidden_text_doc2) as [sp|] eqn:Esp;
    [|vm_compute in Esp; discriminate].
  apply (proj1 (failures_give_error_records first_seen_order
                  (Opened hidden_text_doc2))).
  apply (extraction_failure first_seen_order hidden_text_doc2 sp
           "float division by zero").
  - discriminate.
  - exact Esp.
  - vm_compute in Esp. injection Esp as <-. vm_compute. reflexivity.
Defined.

Lemma outline_pages_start_at_one_witness :
  title (fst (extract_document_structure first_seen_order
                (Opened first_page_headings_doc)))
  = "Quarterly Report" ∧
  outline (fst (extract_document_structure first_seen_order
                  (Opened first_page_headings_doc))) = [].
Proof.
  split; [vm_compute; reflexivity|].
  destruct (_profile_document_styles first_page_headings_doc) as [sp|] eqn:Esp;
    [|vm_compute in Esp; discriminate].
  apply (proj2 (outline_pages_start_at_one first_seen_order
                  (Opened first_page_headings_doc))
               first_page_headings_doc sp eq_refl Esp).
  vm_compute in Esp. injection Esp as <-. vm_compute. reflexivity.
Defined.

(** ** Matching runs of one character class *)

Lemma rmatch_Cat (r1 r2 : regex) prev s k :
  rmatch (Cat r1 r2) prev s k = rmatch r1 prev s (λ p' s', rmatch r2 p' s' k).
Proof. reflexivity. Qed.

Lemma rmatch_Alt (r1 r2 : regex) prev s k :
  rmatch (Alt r1 r2) prev s k =
  if rmatch r1 prev s k then true else rmatch r2 prev s k.
Proof. reflexivity. Qed.

Lemma rmatch_Chr_cons (f : ascii → bool) prev c s k :
  rmatch (Chr f) prev (c :: s) k = if f c then k (Some c) s else false.
Proof. reflexivity. Qed.

Lemma rmatch_Star_Chr (f : ascii → bool) prev s k :
  rmatch (Star (Chr f)) prev s k =
  if k prev s then true
  else match s with
       | c :: s' => if f c then rmatch (Star (Chr f)) (Some c) s' k else false
       | [] => false
       end.
Proof.
  destruct s as [|c s'].
  - cbn. destruct (k prev []); reflexivity.
  - change (rmatch (Star (Chr f)) prev (c :: s') k) with
      (if k prev (c :: s') then true
       else if f c
            then if (List.length s' <? S (List.length s'))%nat
                 then rmatch (Star (Chr f)) (Some c) s' k else false
            else false).
    replace (List.length s' <? S (List.length s'))%nat with true
      by (symmetry; apply Nat.ltb_lt; lia).
    reflexivity.
Qed.

Lemma rmatch_Plus_Chr (f : ascii → bool) prev s k :
  rmatch (Plus (Chr f)) prev s k =
  match s with
  | c :: s' => if f c then rmatch (Star (Chr f)) (Some c) s' k else false
  | [] => false
  end.
Proof. destruct s; reflexivity. Qed.

Lemma after_run_cons prev c run :
  after_run prev (c :: run) = after_run (Some c) run.
Proof.
  unfold after_run. destruct run as [|c' run']; [reflexivity|].
  rewrite last_cons_cons.
  destruct (last (c' :: run')) eqn:E; [reflexivity|].
  apply last_None in E. discriminate.
Qed.

Lemma rmatch_star_stop (f : ascii → bool) prev tail k :
  stops f tail → rmatch (Star (Chr f)) prev tail k = k prev tail.
Proof.
  intros Hs. rewrite rmatch_Star_Chr.
  destruct (k prev tail); [reflexivity|].
  destruct tail as [|c t]; [reflexivity|]. cbn in Hs. rewrite Hs. reflexivity.
Qed.

(** The whole run is consumed when the continuation refuses to start
    inside it. *)
Lemma rmatch_star_run (f : ascii → bool) (run tail : chars) k :
  all_in f run → stops f tail → refuses f k →
  ∀ prev, rmatch (Star (Chr f)) prev (run ++ tail) k
          = k (after_run prev run) tail.
Proof.
  intros Hrun Htail Hk. induction Hrun as [|c run Hc _ IH]; intros prev.
  - apply rmatch_star_stop, Htail.
  - rewrite rmatch_Star_Chr. cbn [app]. rewrite (Hk _ _ _ Hc), Hc, IH.
    rewrite after_run_cons. reflexivity.
Qed.

Lemma rmatch_plus_run (f : ascii → bool) (run tail : chars) k prev :
  run ≠ [] → all_in f run → stops f tail → refuses f k →
  rmatch (Plus (Chr f)) prev (run ++ tail) k = k (after_run prev run) tail.
Proof.
  intros Hne Hrun Htail Hk. destruct run as [|c run]; [congruence|].
  rewrite rmatch_Plus_Chr. cbn [app].
  inversion Hrun as [|? ? Hc Hrun']; subst.
  rewrite Hc, rmatch_star_run by assumption.
  rewrite after_run_cons. reflexivity.
Qed.

(** With nothing left to match, one character of the class is enough. *)
Lemma rmatch_plus_accept (f : ascii → bool) (c : ascii) (s : chars) prev :
  f c = true → rmatch (Plus (Chr f)) prev (c :: s) accept = true.
Proof.
  intros Hc. rewrite rmatch_Plus_Chr, Hc, rmatch_Star_Chr. reflexivity.
Qed.

Lemma rmatch_plus_fail (f : ascii → bool) (s : chars) prev k :
  stops f s → rmatch (Plus (Chr f)) prev s k = false.
Proof.
  intros Hs. rewrite rmatch_Plus_Chr. destruct s as [|c s]; [reflexivity|].
  cbn in Hs. rewrite Hs. reflexivity.
Qed.

Lemma rmatch_Chr_inv (f : ascii → bool) prev s k :
  rmatch (Chr f) prev s k = true →
  ∃ c s', s = c :: s' ∧ f c = true ∧ k (Some c) s' = true.
Proof.
  destruct s as [|c s']; cbn; [discriminate|].
  destruct (f c) eqn:E; [|discriminate]. eauto.
Qed.

Lemma rmatch_star_inv (f : ascii → bool) (s : chars) k :
  ∀ prev, rmatch (Star (Chr f)) prev s k = true →
  ∃ run tail, s = run ++ tail ∧ all_in f run ∧
              k (after_run prev run) tail = true.
Proof.
  induction s as [|c s IH]; intros prev; rewrite rmatch_Star_Chr.
  - destruct (k prev []) eqn:E; [|discriminate].
    intros _. exists [], []. repeat split; [constructor|exact E].
  - destruct (k prev (c :: s)) eqn:E.
    + intros _. exists [], (c :: s). repeat split; [constructor|exact E].
    + destruct (f c) eqn:Ec; [|discriminate].
      intros (run & tail & -> & Hrun & Hk)%IH.
      exists (c :: run), tail. rewrite after_run_cons.
      repeat split; [constructor; assumption|exact Hk].
Qed.

Lemma rmatch_plus_inv (f : ascii → bool) (s : chars) k prev :
  rmatch (Plus (Chr f)) prev s k = true →
  ∃ run tail, s = run ++ tail ∧ run ≠ [] ∧ all_in f run ∧
              k (after_run prev run) tail = true.
Proof.
  rewrite rmatch_Plus_Chr. destruct s as [|c s]; [discriminate|].
  destruct (f c) eqn:Ec; [|discriminate].
  intros (run & tail & -> & Hrun & Hk)%rmatch_star_inv.
  exists (c :: run), tail. rewrite after_run_cons.
  repeat split; [discriminate|constructor; assumption|exact Hk].
Qed.

(** ** Facts about single characters *)

Lemma digit_not_dot c : is_digit c = true → Ascii.eqb "." c = false.
Proof. by_char c. Qed.
Lemma digit_not_space c : is_digit c = true → is_space c = false.
Proof. by_char c. Qed.
Lemma space_not_digit c : is_space c = true → is_digit c = false.
Proof. by_char c. Qed.
Lemma space_not_dot c : is_space c = true → Ascii.eqb "." c = false.
Proof. by_char c. Qed.
Lemma space_not_roman c : is_space c = true → one_of "IVXLCDM" c = false.
Proof. by_char c. Qed.
Lemma roman_not_digit c : one_of "IVXLCDM" c = true → is_digit c = false.
Proof. by_char c. Qed.
Lemma roman_not_dot c : one_of "IVXLCDM" c = true → Ascii.eqb "." c = false.
Proof. by_char c. Qed.
Lemma roman_not_space c : one_of "IVXLCDM" c = true → is_space c = false.
Proof. by_char c. Qed.
Lemma roman_is_alpha c : one_of "IVXLCDM" c = true → is_alpha c = true.
Proof. by_char c. Qed.
Lemma alpha_not_digit c : is_alpha c = true → is_digit c = false.
Proof. by_char c. Qed.
Lemma dot_is_dot c : Ascii.eqb "." c = true → c = "."%char.
Proof. intros H. symmetry. apply Ascii.eqb_eq, H. Qed.

(** ** Numbering shapes *)

Lemma spaced_stops_digit tail : spaced tail → stops is_digit tail.
Proof. destruct tail as [|w t]; cbn; [auto|apply space_not_digit]. Qed.

Lemma spaced_stops_roman tail : spaced tail → stops (one_of "IVXLCDM") tail.
Proof. destruct tail as [|w t]; cbn; [auto|apply space_not_roman]. Qed.

Lemma spaced_no_dot tail p k : spaced tail → rmatch dot p tail k = false.
Proof.
  destruct tail as [|w t]; [reflexivity|].
  intros H. cbn in H. unfold dot.
  rewrite rmatch_Chr_cons, (space_not_dot _ H). reflexivity.
Qed.

Lemma spaced_plus_ws tail p : spaced tail → rmatch (Plus ws) p tail accept = true.
Proof.
  destruct tail as [|w t]; cbn [spaced]; [contradiction|].
  apply rmatch_plus_accept.
Qed.

Lemma digits_plus_accept n tail p :
  digits n → rmatch (Plus d) p (n ++ tail) accept = true.
Proof.
  intros [Hne Hall]. destruct n as [|c n]; [congruence|].
  inversion Hall; subst. apply rmatch_plus_accept. assumption.
Qed.

Lemma refuses_dot_digit k : refuses is_digit (λ p s, rmatch dot p s k).
Proof.
  intros p c s Hc. unfold dot. rewrite rmatch_Chr_cons, (digit_not_dot _ Hc).
  reflexivity.
Qed.

Lemma refuses_dot_roman k : refuses (one_of "IVXLCDM") (λ p s, rmatch dot p s k).
Proof.
  intros p c s Hc. unfold dot. rewrite rmatch_Chr_cons, (roman_not_dot _ Hc).
  reflexivity.
Qed.

Lemma refuses_ws_digit k : refuses is_digit (λ p s, rmatch (Plus ws) p s k).
Proof.
  intros p c s Hc. apply rmatch_plus_fail. cbn. apply digit_not_space, Hc.
Qed.

(** A segment followed by a dot. *)
Lemma segment_dot n rest p k :
  digits n →
  rmatch (Plus d) p (n ++ "."%char :: rest) (λ p' s', rmatch dot p' s' k)
  = k (Some "."%char) rest.
Proof.
  intros [Hne Hall]. unfold d.
  rewrite rmatch_plus_run; [reflexivity|assumption..|reflexivity|].
  apply refuses_dot_digit.
Qed.

(** A segment followed by whitespace cannot go on with a dot. *)
Lemma segment_no_dot n tail p k :
  digits n → spaced tail →
  rmatch (Plus d) p (n ++ tail) (λ p' s', rmatch dot p' s' k) = false.
Proof.
  intros [Hne Hall] Ht. unfold d.
  rewrite rmatch_plus_run;
    [apply spaced_no_dot, Ht|assumption..|apply spaced_stops_digit, Ht|].
  apply refuses_dot_digit.
Qed.

Lemma segment_ws n tail p :
  digits n → spaced tail →
  rmatch (Plus d) p (n ++ tail) (λ p' s', rmatch (Plus ws) p' s' accept) = true.
Proof.
  intros [Hne Hall] Ht. unfold d.
  rewrite rmatch_plus_run;
    [apply spaced_plus_ws, Ht|assumption..|apply spaced_stops_digit, Ht|].
  apply refuses_ws_digit.
Qed.

(** A segment that is followed by a dot cannot go on with whitespace. *)
Lemma segment_dot_no_ws n rest p :
  digits n →
  rmatch (Plus d) p (n ++ "."%char :: rest)
         (λ p' s', rmatch (Plus ws) p' s' accept) = false.
Proof.
  intros [Hne Hall]. unfold d.
  rewrite rmatch_plus_run; [reflexivity|assumption..|reflexivity|].
  apply refuses_ws_digit.
Qed.

Lemma no_digit_no_segment s p k :
  stops is_digit s → rmatch (Plus d) p s k = false.
Proof. apply rmatch_plus_fail. Qed.

Lemma re_match_of_chars (r : regex) (t : chars) :
  re_match r (of_chars t) = rmatch r None t accept.
Proof.
  unfold re_match, to_chars, of_chars.
  rewrite list_ascii_of_string_of_list_ascii. reflexivity.
Qed.

(** One step through a dotted number: a segment and its dot. *)
Lemma seg_step (r : regex) n rest p k :
  digits n →
  rmatch (Cat (Plus d) (Cat dot r)) p (n ++ "."%char :: rest) k
  = rmatch r (Some "."%char) rest k.
Proof.
  intros Hn. rewrite rmatch_Cat.
  change (λ p' s', rmatch (Cat dot r) p' s' k)
    with (λ p' s', rmatch dot p' s' (λ p'' s'', rmatch r p'' s'' k)).
  rewrite segment_dot by exact Hn. reflexivity.
Qed.

(** A segment that ends the number cannot be followed by [\.\d+...]. *)
Lemma seg_stuck (r : regex) n tail p k :
  digits n → spaced tail →
  rmatch (Cat (Plus d) (Cat dot r)) p (n ++ tail) k = false.
Proof.
  intros Hn Ht. rewrite rmatch_Cat.
  change (λ p' s', rmatch (Cat dot r) p' s' k)
    with (λ p' s', rmatch dot p' s' (λ p'' s'', rmatch r p'' s'' k)).
  apply segment_no_dot; assumption.
Qed.

Lemma seg_none (r : regex) s p k :
  stops is_digit s → rmatch (Cat (Plus d) r) p s k = false.
Proof. intros Hs. rewrite rmatch_Cat. apply rmatch_plus_fail, Hs. Qed.

Lemma seg_last_dot n rest p k :
  digits n →
  rmatch (Cat (Plus d) dot) p (n ++ "."%char :: rest) k = k (Some "."%char) rest.
Proof. intros Hn. rewrite rmatch_Cat. apply segment_dot, Hn. Qed.

Lemma seg_last_stuck n tail p k :
  digits n → spaced tail → rmatch (Cat (Plus d) dot) p (n ++ tail) k = false.
Proof. intros Hn Ht. rewrite rmatch_Cat. apply segment_no_dot; assumption. Qed.

(** The four dotted shapes against the four dotted patterns, under any
    continuation [k] for the shorter ones. *)
Lemma seg4_on_four n1 n2 n3 n4 tail :
  digits n1 → digits n2 → digits n3 → digits n4 →
  rmatch seg4 None
    (n1 ++ "."%char :: n2 ++ "."%char :: n3 ++ "."%char :: n4 ++ tail) accept
  = true.
Proof. intros. seg_steps seg_step. apply digits_plus_accept. assumption. Qed.

Lemma seg4_on_three n1 n2 n3 tail k :
  digits n1 → digits n2 → digits n3 → spaced tail →
  rmatch seg4 None (n1 ++ "."%char :: n2 ++ "."%char :: n3 ++ tail) k = false.
Proof. intros. seg_steps seg_step. apply seg_stuck; assumption. Qed.

Lemma seg4_on_two n1 n2 tail k :
  digits n1 → digits n2 → spaced tail →
  rmatch seg4 None (n1 ++ "."%char :: n2 ++ tail) k = false.
Proof. intros. seg_steps seg_step. apply seg_stuck; assumption. Qed.

Lemma seg4_on_one n1 tail k :
  digits n1 → spaced tail →
  rmatch seg4 None (n1 ++ "."%char :: tail) k = false.
Proof.
  intros. seg_steps seg_step. apply seg_none, spaced_stops_digit. assumption.
Qed.

Lemma seg3_on_three n1 n2 n3 tail :
  digits n1 → digits n2 → digits n3 →
  rmatch seg3 None (n1 ++ "."%char :: n2 ++ "."%char :: n3 ++ tail) accept
  = true.
Proof. intros. seg_steps seg_step. apply digits_plus_accept. assumption. Qed.

Lemma seg3_on_two n1 n2 tail k :
  digits n1 → digits n2 → spaced tail →
  rmatch seg3 None (n1 ++ "."%char :: n2 ++ tail) k = false.
Proof. intros. seg_steps seg_step. apply seg_stuck; assumption. Qed.

Lemma seg3_on_one n1 tail k :
  digits n1 → spaced tail →
  rmatch seg3 None (n1 ++ "."%char :: tail) k = false.
Proof.
  intros. seg_steps seg_step. apply seg_none, spaced_stops_digit. assumption.
Qed.

Lemma seg2_on_two n1 n2 tail :
  digits n1 → digits n2 →
  rmatch seg2 None (n1 ++ "."%char :: n2 ++ tail) accept = true.
Proof. intros. seg_steps seg_step. apply digits_plus_accept. assumption. Qed.

Lemma seg2_on_one n1 tail k :
  digits n1 → spaced tail →
  rmatch seg2 None (n1 ++ "."%char :: tail) k = false.
Proof.
  intros. seg_steps seg_step. apply no_digit_no_segment, spaced_stops_digit. assumption.
Qed.

Lemma seg1_on_one n1 tail k :
  digits n1 → rmatch seg1 None (n1 ++ "."%char :: tail) k = k (Some "."%char) tail.
Proof. intros. unfold seg1. cbn [CatL]. apply seg_last_dot. assumption. Qed.

Lemma seg4_then_ws n1 n2 n3 n4 tail :
  digits n1 → digits n2 → digits n3 → digits n4 → spaced tail →
  rmatch seg4 None
    (n1 ++ "."%char :: n2 ++ "."%char :: n3 ++ "."%char :: n4 ++ tail) then_ws
  = true.
Proof. intros. seg_steps seg_step. apply segment_ws; assumption. Qed.

Lemma seg3_then_ws n1 n2 n3 tail :
  digits n1 → digits n2 → digits n3 → spaced tail →
  rmatch seg3 None (n1 ++ "."%char :: n2 ++ "."%char :: n3 ++ tail) then_ws
  = true.
Proof. intros. seg_steps seg_step. apply segment_ws; assumption. Qed.

Lemma seg2_then_ws n1 n2 tail :
  digits n1 → digits n2 → spaced tail →
  rmatch seg2 None (n1 ++ "."%char :: n2 ++ tail) then_ws = true.
Proof. intros. seg_steps seg_step. apply segment_ws; assumption. Qed.

Lemma seg1_then_ws n1 tail :
  digits n1 → spaced tail →
  rmatch seg1 None (n1 ++ "."%char :: tail) then_ws = true.
Proof.
  intros. rewrite seg1_on_one by assumption. apply spaced_plus_ws. assumption.
Qed.

(** A text that does not start with a digit matches none of the dotted
    patterns. *)
Lemma segs_need_digit s k :
  stops is_digit s →
  rmatch seg4 None s k = false ∧ rmatch seg3 None s k = false ∧
  rmatch seg2 None s k = false ∧ rmatch seg1 None s k = false.
Proof.
  intros Hs. unfold seg4, seg3, seg2, seg1. cbn [CatL].
  repeat split; apply seg_none, Hs.
Qed.

Lemma roman_dot_on_roman r rest k :
  romans r → rmatch roman_dot None (r ++ "."%char :: rest) k = k (Some "."%char) rest.
Proof.
  intros [Hne Hall]. unfold roman_dot, roman. cbn [CatL].
  rewrite rmatch_Cat, rmatch_plus_run;
    [reflexivity|assumption..|reflexivity|apply refuses_dot_roman].
Qed.

Lemma roman_dot_needs_roman s k :
  stops (one_of "IVXLCDM") s → rmatch roman_dot None s k = false.
Proof.
  intros Hs. unfold roman_dot, roman. cbn [CatL].
  rewrite rmatch_Cat. apply rmatch_plus_fail, Hs.
Qed.

Lemma letter_dot_on_letter c rest k :
  is_alpha c = true →
  rmatch letter_dot None (c :: "."%char :: rest) k = k (Some "."%char) rest.
Proof.
  intros Hc. unfold letter_dot, letter, dot. cbn [CatL].
  rewrite rmatch_Cat, rmatch_Chr_cons, Hc, rmatch_Chr_cons. reflexivity.
Qed.

Lemma romans_stop_digit r rest : romans r → stops is_digit (r ++ rest).
Proof.
  intros [Hne Hall]. destruct r as [|c r]; [congruence|].
  inversion Hall; subst. cbn. apply roman_not_digit. assumption.
Qed.

(** The level that [numbered_level] reads off each shape. *)
Lemma numbering_level (t : chars) (level : Level) :
  numbering t level → numbered_level (of_chars t) = level.
Proof.
  intros Hn. unfold numbered_level. rewrite !re_match_of_chars.
  destruct Hn as [n1 tail H1' Ht|n1 n2 tail H1' H2' Ht
                 |n1 n2 n3 tail H1' H2' H3' Ht
                 |n1 n2 n3 n4 tail H1' H2' H3' H4' Ht
                 |r tail Hr Ht|c tail Hc Hnr Ht].
  - rewrite seg4_on_one, seg3_on_one, seg2_on_one, seg1_on_one by assumption.
    reflexivity.
  - rewrite seg4_on_two, seg3_on_two, seg2_on_two by assumption. reflexivity.
  - rewrite seg4_on_three, seg3_on_three by assumption. reflexivity.
  - rewrite seg4_on_four by assumption. reflexivity.
  - destruct (segs_need_digit (r ++ "."%char :: tail) accept
                (romans_stop_digit _ _ Hr)) as (-> & -> & -> & ->).
    rewrite roman_dot_on_roman by assumption. reflexivity.
  - destruct (segs_need_digit (c :: "."%char :: tail) accept
                (alpha_not_digit _ Hc)) as (-> & -> & -> & ->).
    rewrite roman_dot_needs_roman by exact Hnr.
    rewrite letter_dot_on_letter by exact Hc. reflexivity.
Qed.

Lemma pat_numbered_alts (t : chars) :
  rmatch pat_numbered None t accept =
  if rmatch seg4 None t then_ws then true
  else if rmatch seg3 None t then_ws then true
  else if rmatch seg2 None t then_ws then true
  else if rmatch seg1 None t then_ws then true
  else if rmatch roman_dot None t then_ws then true
  else rmatch letter_dot None t then_ws.
Proof. reflexivity. Qed.

(** Every shape matches [heading_patterns['numbered']]. *)
Lemma numbering_matches (t : chars) (level : Level) :
  numbering t level → re_match pat_numbered (of_chars t) = true.
Proof.
  intros Hn. rewrite re_match_of_chars, pat_numbered_alts.
  destruct Hn as [n1 tail H1' Ht|n1 n2 tail H1' H2' Ht
                 |n1 n2 n3 tail H1' H2' H3' Ht
                 |n1 n2 n3 n4 tail H1' H2' H3' H4' Ht
                 |r tail Hr Ht|c tail Hc Hnr Ht].
  - rewrite seg4_on_one, seg3_on_one, seg2_on_one, seg1_then_ws by assumption.
    reflexivity.
  - rewrite seg4_on_two, seg3_on_two, seg2_then_ws by assumption. reflexivity.
  - rewrite seg4_on_three, seg3_then_ws by assumption. reflexivity.
  - rewrite seg4_then_ws by assumption. reflexivity.
  - destruct (segs_need_digit (r ++ "."%char :: tail) then_ws
                (romans_stop_digit _ _ Hr)) as (-> & -> & -> & ->).
    rewrite roman_dot_on_roman by assumption.
    unfold then_ws. rewrite spaced_plus_ws by assumption. reflexivity.
  - destruct (segs_need_digit (c :: "."%char :: tail) then_ws
                (alpha_not_digit _ Hc)) as (-> & -> & -> & ->).
    rewrite roman_dot_needs_roman by exact Hnr.
    rewrite letter_dot_on_letter by exact Hc.
    unfold then_ws. apply spaced_plus_ws. assumption.
Qed.

(** *** Every numbered text has one of the shapes *)

Lemma then_ws_inv p tail : then_ws p tail = true → spaced tail.
Proof.
  unfold then_ws, ws. rewrite rmatch_Plus_Chr.
  destruct tail as [|w t]; [discriminate|]. cbn.
  destruct (is_space w); [reflexivity|discriminate].
Qed.

Lemma dot_inv p s k :
  rmatch dot p s k = true → ∃ rest, s = "."%char :: rest ∧ k (Some "."%char) rest = true.
Proof.
  intros (c & rest & -> & Hc & Hk)%rmatch_Chr_inv.
  apply dot_is_dot in Hc. subst c. eauto.
Qed.

Lemma seg_step_inv (r : regex) p t k :
  rmatch (Cat (Plus d) (Cat dot r)) p t k = true →
  ∃ n rest, t = n ++ "."%char :: rest ∧ digits n ∧
            rmatch r (Some "."%char) rest k = true.
Proof.
  rewrite rmatch_Cat.
  intros (n & tail & -> & Hne & Hall & Hk)%rmatch_plus_inv.
  rewrite rmatch_Cat in Hk. apply dot_inv in Hk as (rest & -> & Hk).
  exists n, rest. repeat split; assumption.
Qed.

Lemma seg_ws_inv p t :
  rmatch (Plus d) p t then_ws = true →
  ∃ n tail, t = n ++ tail ∧ digits n ∧ spaced tail.
Proof.
  intros (n & tail & -> & Hne & Hall & Hk)%rmatch_plus_inv.
  apply then_ws_inv in Hk. exists n, tail. repeat split; assumption.
Qed.

Lemma numbering_complete (t : chars) :
  rmatch pat_numbered None t accept = true → ∃ level, numbering t level.
Proof.
  rewrite pat_numbered_alts.
  destruct (rmatch seg4 None t then_ws) eqn:E4.
  { intros _. unfold seg4 in E4. cbn [CatL] in E4.
    apply seg_step_inv in E4 as (n1 & t1 & -> & H1' & E4).
    apply seg_step_inv in E4 as (n2 & t2 & -> & H2' & E4).
    apply seg_step_inv in E4 as (n3 & t3 & -> & H3' & E4).
    apply seg_ws_inv in E4 as (n4 & tail & -> & H4' & Ht).
    exists H4. constructor; assumption. }
  destruct (rmatch seg3 None t then_ws) eqn:E3.
  { intros _. unfold seg3 in E3. cbn [CatL] in E3.
    apply seg_step_inv in E3 as (n1 & t1 & -> & H1' & E3).
    apply seg_step_inv in E3 as (n2 & t2 & -> & H2' & E3).
    apply seg_ws_inv in E3 as (n3 & tail & -> & H3' & Ht).
    exists H3. constructor; assumption. }
  destruct (rmatch seg2 None t then_ws) eqn:E2.
  { intros _. unfold seg2 in E2. cbn [CatL] in E2.
    apply seg_step_inv in E2 as (n1 & t1 & -> & H1' & E2).
    apply seg_ws_inv in E2 as (n2 & tail & -> & H2' & Ht).
    exists H2. constructor; assumption. }
  destruct (rmatch seg1 None t then_ws) eqn:E1.
  { intros _. unfold seg1 in E1. cbn [CatL] in E1.
    rewrite rmatch_Cat in E1.
    apply rmatch_plus_inv in E1 as (n1 & t1 & -> & Hne & Hall & E1).
    apply dot_inv in E1 as (tail & -> & Ht). apply then_ws_inv in Ht.
    exists H1. apply one_segment; [split|]; assumption. }
  destruct (rmatch roman_dot None t then_ws) eqn:Er.
  { intros _. unfold roman_dot, roman in Er. cbn [CatL] in Er.
    rewrite rmatch_Cat in Er.
    apply rmatch_plus_inv in Er as (r & t1 & -> & Hne & Hall & Er).
    apply dot_inv in Er as (tail & -> & Ht). apply then_ws_inv in Ht.
    exists H1. apply roman_numeral; [split|]; assumption. }
  intros El. unfold letter_dot, letter in El. cbn [CatL] in El.
  rewrite rmatch_Cat in El.
  apply rmatch_Chr_inv in El as (c & t1 & -> & Hc & El).
  apply dot_inv in El as (tail & -> & Ht). apply then_ws_inv in Ht.
  destruct (one_of "IVXLCDM" c) eqn:Ec.
  - exists H1. apply (roman_numeral [c] tail); [split|assumption].
    + discriminate.
    + repeat constructor. exact Ec.
  - exists H2. apply single_letter; assumption.
Qed.

(** ** The level of a numbered heading *)

Lemma of_to_chars (s : string) : of_chars (to_chars s) = s.
Proof. apply string_of_list_ascii_of_string. Qed.

(** C1 (amended): the level of a numbered heading is read off its text
    alone, so two candidates with the same text get the same level whatever
    their font sizes.  A text matches the numbered pattern exactly when it
    has one of the numbering shapes, and the shape gives the level: one
    dotted segment H1, two H2, three H3, four H4, a roman numeral H1, and a
    single letter that is not one of I, V, X, L, C, D, M gives H2 (a single
    letter among those is a roman numeral and gives H1). *)
Theorem numbered_level_by_shape (h : HeadingCandidate) :
  (∀ h', h_text h' = h_text h →
         o_level (numbered_entry h') = o_level (numbered_entry h)) ∧
  (re_match pat_numbered (h_text h) = true ↔
   ∃ level, numbering (to_chars (h_text h)) level) ∧
  (∀ level, numbering (to_chars (h_text h)) level →
            o_level (numbered_entry h) = level).
Proof.
  split; [|split].
  - intros h' E. cbn. rewrite E. reflexivity.
  - split.
    + apply numbering_complete.
    + intros [level Hn]. rewrite <- (of_to_chars (h_text h)).
      eapply numbering_matches, Hn.
  - intros level Hn. cbn. rewrite <- (of_to_chars (h_text h)).
    apply numbering_level, Hn.
Qed.

(** ** Sorting gives one answer *)

Section SortBy.
Context {A : Type} (le : A → A → bool).
Hypothesis le_total : ∀ x y, le x y = true ∨ le y x = true.

Lemma insert_sorted_HdRel (a x : A) (l : list A) :
  (le_rel le) a x → HdRel (le_rel le) a l → HdRel (le_rel le) a (insert_sorted le x l).
Proof.
  intros Hax Hl. destruct l as [|y l]; cbn; [constructor; exact Hax|].
  destruct (le x y); constructor; [exact Hax|].
  inversion Hl; assumption.
Qed.

Lemma insert_sorted_Sorted (x : A) (l : list A) :
  Sorted (le_rel le) l → Sorted (le_rel le) (insert_sorted le x l).
Proof.
  induction 1 as [|y l Hl IH Hy]; cbn; [repeat constructor|].
  destruct (le x y) eqn:E.
  - constructor; [constructor; assumption|constructor; exact E].
  - constructor; [exact IH|].
    apply insert_sorted_HdRel; [|exact Hy].
    destruct (le_total x y) as [H|H]; [congruence|exact H].
Qed.

Lemma sort_by_Sorted (l : list A) : Sorted (le_rel le) (sort_by le l).
Proof.
  induction l as [|x l IH]; cbn; [constructor|].
  apply insert_sorted_Sorted, IH.
Qed.

Hypothesis le_trans : ∀ x y z, le x y = true → le y z = true → le x z = true.
Hypothesis le_antisym : ∀ x y, le x y = true → le y x = true → x = y.

(** The sorted list does not depend on the order of the input when no two
    different elements are tied. *)
Lemma sort_by_unique (l1 l2 : list A) :
  l1 ≡ₚ l2 → sort_by le l1 = sort_by le l2.
Proof.
  intros Hp.
  assert (Transitive (le_rel le)) by (intros x y z; apply le_trans).
  assert (AntiSymm (=) (le_rel le)) by (intros x y; apply le_antisym).
  apply (Sorted_unique (le_rel le)); [apply sort_by_Sorted..|].
  rewrite !sort_by_perm. exact Hp.
Qed.

End SortBy.

Lemma Qc_leb_true (x y : Qc) : Qc_leb x y = true ↔ (x ≤ y)%Qc.
Proof. unfold Qc_leb. apply bool_decide_eq_true. Qed.

Lemma Qc_ltb_true (x y : Qc) : Qc_ltb x y = true ↔ (x < y)%Qc.
Proof. unfold Qc_ltb. apply bool_decide_eq_true. Qed.

Lemma Qc_ltb_false (x y : Qc) : Qc_ltb x y = false ↔ (y ≤ x)%Qc.
Proof.
  unfold Qc_ltb. rewrite bool_decide_eq_false. split.
  - apply Qcnot_lt_le.
  - apply Qcle_not_lt.
Qed.

Lemma Qc_eqb_true (x y : Qc) : Qc_eqb x y = true ↔ x = y.
Proof. unfold Qc_eqb. apply bool_decide_eq_true. Qed.

(** ** The order in which a set is enumerated *)

Lemma first_seen_order_valid : valid_set_order first_seen_order.
Proof.
  intros l. split; [apply NoDup_remove_dups|].
  intros x. apply elem_of_remove_dups.
Qed.

Lemma last_seen_order_valid : valid_set_order last_seen_order.
Proof.
  intros l. unfold last_seen_order. split.
  - rewrite reverse_Permutation. apply NoDup_remove_dups.
  - intros x. rewrite elem_of_reverse. apply elem_of_remove_dups.
Qed.

Section Determinism.
Variables order1 order2 : list Qc → list Qc.
Hypothesis valid1 : valid_set_order order1.
Hypothesis valid2 : valid_set_order order2.

Lemma unique_sizes_of_order (unnumbered : list HeadingCandidate) :
  unique_sizes_of order1 unnumbered = unique_sizes_of order2 unnumbered.
Proof.
  unfold unique_sizes_of. apply sort_by_unique.
  - intros x y. rewrite !Qc_leb_true.
    destruct (Qclt_le_dec x y) as [H|H]; [right; apply Qclt_le_weak, H|left; exact H].
  - intros x y z. rewrite !Qc_leb_true. intros H1' H2'.
    eapply Qcle_trans; eassumption.
  - intros x y. rewrite !Qc_leb_true. intros H1' H2'.
    apply Qcle_antisym; assumption.
  - destruct (valid1 (map (λ h, round2 (h_size h)) unnumbered)) as [Hn1 He1].
    destruct (valid2 (map (λ h, round2 (h_size h)) unnumbered)) as [Hn2 He2].
    apply NoDup_Permutation; [assumption..|].
    intros x. rewrite He1, He2. reflexivity.
Qed.

Lemma build_outline_order (style_profile : StyleProfile) (title : string)
    (cands : list HeadingCandidate) :
  build_outline order1 style_profile title cands
  = build_outline order2 style_profile title cands.
Proof.
  unfold build_outline, unnumbered_entries, size_level_map_of.
  rewrite unique_sizes_of_order. reflexivity.
Qed.

(** C9: the engine is deterministic.  The embedding is a function of the
    document, and the one thing Python leaves open, the order in which the
    set of rounded sizes is enumerated, does not reach the result: two runs
    on the same document and spans return the same title and the same
    outline (and leave the handle in the same state), whatever order each
    run enumerates the set in. *)
Theorem extraction_is_deterministic (pdf : OpenResult) :
  extract_document_structure order1 pdf = extract_document_structure order2 pdf.
Proof.
  unfold extract_document_structure, _extract_headings.
  destruct pdf as [e|doc]; [reflexivity|].
  destruct (List.length (pages doc) =? 0)%nat; [reflexivity|].
  destruct (_profile_document_styles doc) as [sp|]; [|reflexivity].
  destruct (heading_candidates doc sp) as [cands|e]; [|reflexivity].
  cbn. rewrite build_outline_order. reflexivity.
Qed.

End Determinism.

Lemma extraction_is_deterministic_witness :
  extract_document_structure first_seen_order (Opened five_cluster_doc)
  = extract_document_structure last_seen_order (Opened five_cluster_doc).
Proof.
  apply (extraction_is_deterministic first_seen_order last_seen_order
           first_seen_order_valid last_seen_order_valid
           (Opened five_cluster_doc)).
Defined.

(** ** Headings that repeat the title *)

(** The unnumbered path: an entry never repeats the title and is never a
    table-of-contents word. *)
Lemma unnumbered_entry_not_title (size_level_map : list (Qc * Level))
    (doc_title : string) (h : HeadingCandidate) (e : OutlineEntry) :
  unnumbered_entry size_level_map doc_title h = Some e →
  py_lower (o_text e) ≠ py_lower doc_title ∧
  existsb (String.eqb (py_lower (o_text e))) toc_words = false.
Proof.
  unfold unnumbered_entry.
  destruct (level_for size_level_map h); [|discriminate].
  destruct (keep_clean_text doc_title (clean_heading_text (h_text h))) eqn:E;
    [|discriminate].
  intros [= <-]. cbn. unfold keep_clean_text in E.
  apply andb_true_iff in E as [E Htoc]. apply andb_true_iff in E as [_ Ht].
  apply negb_true_iff in Ht, Htoc. split; [|exact Htoc].
  apply String.eqb_neq, Ht.
Qed.

(** Three documents: a numbered heading and a chapter heading whose text is
    the title stay in the outline; an unnumbered one ("PROJECT OVERVIEW") is
    dropped. *)
Lemma headings_that_repeat_the_title :
  fst (extract_document_structure first_seen_order (Opened numbered_title_doc))
  = {| title := "1. Project Overview";
       outline := [ {| o_level := H1; o_text := "1. Project Overview";
                       o_page := 1 |} ] |} ∧
  fst (extract_document_structure first_seen_order (Opened chapter_title_doc))
  = {| title := "Chapter 1 Overview";
       outline := [ {| o_level := H1; o_text := "Chapter 1 Overview";
                       o_page := 1 |};
                    {| o_level := H1; o_text := "Project Overview Notes";
                       o_page := 1 |} ] |} ∧
  fst (extract_document_structure first_seen_order (Opened unnumbered_title_doc))
  = {| title := "Project Overview";
       outline := [ {| o_level := H1; o_text := "Project Scope Notes";
                       o_page := 1 |} ] |}.
Proof. vm_compute. repeat split. Qed.

(** C4: the special and the numbered paths do not compare a heading with
    the title: every accepted chapter, appendix or numbered heading has an
    entry with its (lowercased text, page) in the outline, whatever the
    title is, and so also when its text is the title.  Only the unnumbered
    path drops such a heading ([unnumbered_entry_not_title]). *)
Theorem special_and_numbered_headings_are_kept
    (set_order : list Qc → list Qc) (style_profile : StyleProfile)
    (doc_title : string) (cands : list HeadingCandidate)
    (out : list OutlineEntry) (h : HeadingCandidate) :
  build_outline set_order style_profile doc_title cands = Ok out →
  h ∈ cands →
  is_special h = true ∨ is_plain_numbered h = true →
  (py_lower (h_text h), h_page h) ∈ map entry_key out.
Proof.
  intros Hb Hh Hkind. unfold build_outline in Hb.
  destruct cands as [|c0 cs] eqn:E; [inversion Hh|]. rewrite <- E in *.
  apply bind_Ok in Hb as (leveled & _ & [= <-]).
  unfold finish_outline. destruct Hkind as [Hs|Hn].
  - apply (remove_duplicates_complete ∅ _ (special_entry h));
      [|apply not_elem_of_empty].
    apply elem_of_sort_by, elem_of_app. left.
    apply elem_of_map. exists h. split; [reflexivity|].
    apply elem_of_sort_by, elem_of_filter_bool. auto.
  - apply (remove_duplicates_complete ∅ _ (numbered_entry h));
      [|apply not_elem_of_empty].
    apply elem_of_sort_by, elem_of_app. right. apply elem_of_app. left.
    apply elem_of_map. exists h. split; [reflexivity|].
    apply elem_of_sort_by, elem_of_filter_bool. auto.
Qed.

Lemma special_and_numbered_headings_are_kept_witness :
  build_outline first_seen_order tiered_profile "1. Project Overview"
                [candidate "1. Project Overview" (dec 16 1)]
  = Ok [ {| o_level := H1; o_text := "1. Project Overview"; o_page := 1 |} ] ∧
  (py_lower "1. Project Overview", 1%nat)
  ∈ map entry_key
        [ {| o_level := H1; o_text := "1. Project Overview"; o_page := 1 |} ].
Proof.
  assert (build_outline first_seen_order tiered_profile "1. Project Overview"
            [candidate "1. Project Overview" (dec 16 1)]
          = Ok [ {| o_level := H1; o_text := "1. Project Overview";
                    o_page := 1 |} ]) as Hb by (vm_compute; reflexivity).
  split; [exact Hb|].
  apply (special_and_numbered_headings_are_kept first_seen_order tiered_profile
           "1. Project Overview" [candidate "1. Project Overview" (dec 16 1)]
           _ (candidate "1. Project Overview" (dec 16 1)) Hb).
  - left.
  - right. reflexivity.
Defined.

(** ** Numbered headings: examples *)

(** C1, as stated, fails for a single letter that is also a roman numeral:
    "C. Methods" has a single-letter-dot prefix, matches the numbered
    pattern, and gets H1, not H2 (here in the outline of [sample_doc]). *)
Lemma single_letter_C_gets_H1 :
  re_match pat_numbered "C. Methods" = true ∧
  re_match letter_dot "C. Methods" = true ∧
  o_level (numbered_entry (candidate "C. Methods" (dec 16 1))) = H1 ∧
  outline (fst (extract_document_structure first_seen_order (Opened sample_doc)))
  = [ {| o_level := H1; o_text := "1. Introduction"; o_page := 1 |};
      {| o_level := H2; o_text := "1.1 Scope of Work"; o_page := 1 |};
      {| o_level := H1; o_text := "C. Methods"; o_page := 1 |};
      {| o_level := H1; o_text := "Executive Summary"; o_page := 1 |} ].
Proof. vm_compute. repeat split. Qed.

Lemma numbered_level_by_shape_witness :
  o_level (numbered_entry (candidate "2.3.1 Scope" (dec 9 1))) = H3 ∧
  o_level (numbered_entry (candidate "2.3.1 Scope" (dec 30 1))) = H3.
Proof.
  assert (numbering (to_chars "2.3.1 Scope") H3) as Hn.
  { apply (three_segments ["2"%char] ["3"%char] ["1"%char]
             (to_chars " Scope"));
      try (split; [discriminate|repeat constructor]); reflexivity. }
  split.
  - apply (proj2 (proj2 (numbered_level_by_shape
                           (candidate "2.3.1 Scope" (dec 9 1)))) H3 Hn).
  - apply (proj2 (proj2 (numbered_level_by_shape
                           (candidate "2.3.1 Scope" (dec 30 1)))) H3 Hn).
Defined.

(** The examples of the specification. *)
Lemma numbered_level_examples :
  map numbered_level ["2. Scope"; "2.3 Scope"; "2.3.1 Scope"; "2.3.1.4 Scope";
                      "IV. Scope"; "a. Scope"; "C. Scope"]
  = [H1; H2; H3; H4; H1; H2; H1].
Proof. vm_compute. reflexivity. Qed.

(** ** Rounding and absolute values *)






(** ** Python's [min] with a key *)

Lemma py_min_by_spec {A} (g : A → Qc) (l : list A) :
  ∀ best,
    let r := py_min_by (λ a b, Qc_ltb (g a) (g b)) best l in
    r ∈ best :: l ∧ ∀ x, x ∈ best :: l → (g r ≤ g x)%Qc.
Proof.
  unfold py_min_by. induction l as [|y l IH]; intros best; cbn.
  - split; [left|]. intros x ->%list_elem_of_singleton. apply Qcle_refl.
  - destruct (Qc_ltb (g y) (g best)) eqn:E.
    + destruct (IH y) as [Hin Hmin]. split.
      * right. exact Hin.
      * intros x [->|Hx]%elem_of_cons; [|apply Hmin, Hx].
        apply Qc_ltb_true in E.
        eapply Qcle_trans; [apply Hmin; left|apply Qclt_le_weak, E].
    + destruct (IH best) as [Hin Hmin]. split.
      * apply elem_of_cons in Hin as [->|Hin]; [left|right; right; exact Hin].
      * intros x [->|[->|Hx]%elem_of_cons]%elem_of_cons.
        -- apply Hmin. left.
        -- apply Qc_ltb_false in E.
           eapply Qcle_trans; [apply Hmin; left|exact E].
        -- apply Hmin. right. exact Hx.
Qed.

(** ** Levels for the size clusters *)

Lemma Level_all (l : Level) : l ∈ [H1; H2; H3; H4].
Proof. destruct l; repeat constructor. Qed.

Lemma unused_true (assigned : list Level) (l : Level) :
  unused assigned l = true ↔ l ∉ assigned.
Proof.
  unfold unused. rewrite negb_true_iff, bool_decide_eq_false. reflexivity.
Qed.

(** With fewer than four levels given out, one is still free. *)
Lemma free_level (assigned : list Level) :
  NoDup assigned → (List.length assigned < 4)%nat →
  ∃ l, l ∉ assigned.
Proof.
  intros Hnd Hlen.
  destruct (decide (H1 ∈ assigned)); [|eauto].
  destruct (decide (H2 ∈ assigned)); [|eauto].
  destruct (decide (H3 ∈ assigned)); [|eauto].
  destruct (decide (H4 ∈ assigned)); [|eauto].
  exfalso.
  assert ([H1; H2; H3; H4] ⊆+ assigned) as Hsub.
  { apply NoDup_submseteq.
    - repeat constructor; rewrite ?elem_of_cons, ?elem_of_nil; intuition congruence.
    - intros x Hx. destruct x; assumption. }
  apply submseteq_length in Hsub. cbn in Hsub. lia.
Qed.

(** The fallback is the first level of H1, H2, H3, H4 that is not used. *)
Lemma fallback_level_first (assigned : list Level) (level : Level) :
  fallback_level assigned = Some level ↔
  ((level ∉ assigned) ∧
   ∀ l, (level_rank l < level_rank level)%nat → l ∈ assigned).
Proof.
  split.
  - unfold fallback_level. cbn [List.find].
    destruct (decide (H1 ∈ assigned)) as [I1|I1],
             (decide (H2 ∈ assigned)) as [I2|I2],
             (decide (H3 ∈ assigned)) as [I3|I3],
             (decide (H4 ∈ assigned)) as [I4|I4];
      pose proof I1 as J1; pose proof I2 as J2; pose proof I3 as J3;
      pose proof I4 as J4; decide_unused assigned; cbn;
      intros [= <-]; (split; [assumption|]);
      intros l Hl; destruct l; cbn in Hl; try lia; assumption.
  - intros [Hn Hall]. unfold fallback_level. cbn [List.find].
    destruct level;
      repeat match goal with
             | |- context [unused assigned ?l] =>
                 let E := fresh "E" in
                 destruct (unused assigned l) eqn:E;
                 [apply unused_true in E
                 |apply negb_false_iff, bool_decide_eq_true in E]
             end;
      try reflexivity; try contradiction;
      exfalso;
      match goal with
      | E : ?x ∉ assigned |- _ => apply E, Hall; cbn; lia
      end.
Qed.

Lemma gated_level_unused (assigned : list Level) (a : SizeAnalysis)
    (level : Level) :
  gated_level assigned a = Some level → level ∉ assigned.
Proof.
  unfold gated_level.
  destruct (List.find _ level_thresholds) as [[[l r] s]|] eqn:E; [|discriminate].
  intros [= <-]. apply find_some in E as [_ E].
  apply andb_true_iff in E as [E _]. apply andb_true_iff in E as [E _].
  apply unused_true, E.
Qed.

Lemma pick_level_unused (assigned : list Level) (a : SizeAnalysis)
    (level : Level) :
  pick_level assigned a = Some level → level ∉ assigned.
Proof.
  unfold pick_level. destruct (gated_level assigned a) eqn:E.
  - intros [= <-]. eapply gated_level_unused, E.
  - intros H. apply fallback_level_first in H as [H _]. exact H.
Qed.

Lemma pick_level_some (assigned : list Level) (a : SizeAnalysis) :
  NoDup assigned → (List.length assigned < 4)%nat →
  ∃ level, pick_level assigned a = Some level.
Proof.
  intros Hnd Hlen. unfold pick_level.
  destruct (gated_level assigned a); [eauto|].
  destruct (fallback_level assigned) as [l|] eqn:E; [eauto|].
  exfalso. destruct (free_level assigned Hnd Hlen) as [l Hl].
  unfold fallback_level in E.
  pose proof (find_none _ _ E l (proj1 (list_elem_of_In _ _) (Level_all l)))
    as Hf.
  apply unused_true in Hl. congruence.
Qed.

(** *** The size-to-level dict *)

Lemma dict_set_keys {V} (k : Qc) (v : V) (m : list (Qc * V)) (x : Qc) :
  x ∈ map fst (dict_set k v m) ↔ x = k ∨ x ∈ map fst m.
Proof.
  induction m as [|[k' v'] m IH]; cbn.
  - rewrite list_elem_of_singleton, elem_of_nil. tauto.
  - destruct (Qc_eqb k' k) eqn:E; cbn; rewrite !elem_of_cons.
    + apply Qc_eqb_true in E. subst. tauto.
    + rewrite IH. tauto.
Qed.





(** *** The analysis of a size never divides by zero *)





Section Clusters.
Variable set_order : list Qc → list Qc.
Hypothesis set_order_valid : valid_set_order set_order.




End Clusters.



(** * Further properties *)

(** ** Counters *)

Lemma counter_add_get (k : string) (n : nat) (c : list (string * nat)) (k' : string) :
  counter_get k' (counter_add k n c)
  = (counter_get k' c + (if String.eqb k' k then n else 0))%nat.
Proof.
  induction c as [|[k1 m] c IH]; cbn.
  - destruct (String.eqb k' k); lia.
  - destruct (String.eqb_spec k k1) as [->|Hne]; cbn.
    + destruct (String.eqb_spec k' k1); lia.
    + destruct (String.eqb_spec k' k1) as [->|Hne'].
      * destruct (String.eqb_spec k1 k); [congruence|lia].
      * exact IH.
Qed.

Lemma counter_add_keys (k : string) (n : nat) (c : list (string * nat)) (x : string) :
  x ∈ map fst (counter_add k n c) ↔ x = k ∨ x ∈ map fst c.
Proof.
  induction c as [|[k1 m] c IH]; cbn.
  - rewrite list_elem_of_singleton, elem_of_nil. tauto.
  - destruct (String.eqb_spec k k1) as [->|Hne]; cbn; rewrite !elem_of_cons.
    + tauto.
    + rewrite IH. tauto.
Qed.

Lemma counter_add_NoDup (k : string) (n : nat) (c : list (string * nat)) :
  NoDup (map fst c) → NoDup (map fst (counter_add k n c)).
Proof.
  induction c as [|[k1 m] c IH]; cbn; intros Hnd.
  - repeat constructor. intros H. inversion H.
  - apply NoDup_cons in Hnd as [Hk Hnd].
    destruct (String.eqb_spec k k1) as [->|Hne]; cbn.
    + constructor; assumption.
    + constructor; [|auto].
      rewrite counter_add_keys. intros [->|H]; [congruence|contradiction].
Qed.

(** With distinct keys, the entries of a counter are its nonzero values. *)
Lemma counter_entry_get (c : list (string * nat)) (k : string) (n : nat) :
  NoDup (map fst c) → (k, n) ∈ c → counter_get k c = n.
Proof.
  induction c as [|[k1 m] c IH]; cbn; intros Hnd Hin; [inversion Hin|].
  apply NoDup_cons in Hnd as [Hk Hnd].
  apply elem_of_cons in Hin as [[= -> ->]|Hin].
  - rewrite String.eqb_refl. reflexivity.
  - destruct (String.eqb_spec k k1) as [->|Hne]; [|auto].
    exfalso. apply Hk, elem_of_map. exists (k1, n). auto.
Qed.

Lemma counter_get_entry (c : list (string * nat)) (k : string) :
  (0 < counter_get k c)%nat → (k, counter_get k c) ∈ c.
Proof.
  induction c as [|[k1 m] c IH]; cbn; [lia|].
  destruct (String.eqb_spec k k1) as [->|Hne]; intros H; [left|right; auto].
Qed.

Lemma counter_update_get (k : string) (upd : list (string * nat)) :
  ∀ c, counter_get k (counter_update c upd)
       = (counter_get k c + sum_for k upd)%nat.
Proof.
  unfold counter_update.
  induction upd as [|[k' n] upd IH]; intros c; cbn [fold_left sum_for fst snd].
  - lia.
  - rewrite IH, counter_add_get. lia.
Qed.

Lemma counter_update_NoDup (upd : list (string * nat)) :
  ∀ c, NoDup (map fst c) → NoDup (map fst (counter_update c upd)).
Proof.
  unfold counter_update.
  induction upd as [|[k' n] upd IH]; intros c Hnd; cbn [fold_left];
    [exact Hnd|].
  apply IH, counter_add_NoDup, Hnd.
Qed.

Lemma sum_for_counter_add (k : string) (k' : string) (n : nat)
    (c : list (string * nat)) :
  sum_for k (counter_add k' n c)
  = (sum_for k c + (if String.eqb k k' then n else 0))%nat.
Proof.
  induction c as [|[k1 m] c IH]; cbn [counter_add sum_for].
  - lia.
  - destruct (String.eqb_spec k' k1) as [->|Hne]; cbn [sum_for].
    + destruct (String.eqb k k1); lia.
    + rewrite IH. lia.
Qed.

(** ** The style profile *)

Lemma stats_add_keys (size : Qc) (span : Span) (m : list (Qc * SizeStats)) :
  ∀ x, x ∈ map fst (stats_add size span m) ↔ x = size ∨ x ∈ map fst m.
Proof.
  induction m as [|[k st] m IH]; intros x; cbn.
  - rewrite list_elem_of_singleton, elem_of_nil. tauto.
  - destruct (Qc_eqb k size) eqn:E; cbn; rewrite !elem_of_cons.
    + apply Qc_eqb_true in E. subst. tauto.
    + rewrite IH. tauto.
Qed.

Lemma stats_add_NoDup (size : Qc) (span : Span) (m : list (Qc * SizeStats)) :
  NoDup (map fst m) → NoDup (map fst (stats_add size span m)).
Proof.
  induction m as [|[k st] m IH]; cbn; intros Hnd.
  - repeat constructor. intros H. inversion H.
  - apply NoDup_cons in Hnd as [Hk Hnd].
    destruct (Qc_eqb k size) eqn:E; cbn.
    + constructor; assumption.
    + constructor; [|auto].
      rewrite stats_add_keys. intros [->|H]; [|contradiction].
      unfold Qc_eqb in E. rewrite bool_decide_eq_false in E. congruence.
Qed.

Lemma Qc_eqb_sym (x y : Qc) : Qc_eqb x y = Qc_eqb y x.
Proof.
  destruct (Qc_eqb x y) eqn:E1, (Qc_eqb y x) eqn:E2; try reflexivity.
  - apply Qc_eqb_true in E1. subst.
    assert (Qc_eqb y y = true) by (apply Qc_eqb_true; reflexivity). congruence.
  - apply Qc_eqb_true in E2. subst.
    assert (Qc_eqb x x = true) by (apply Qc_eqb_true; reflexivity). congruence.
Qed.

Lemma stats_add_get (size : Qc) (span : Span) (m : list (Qc * SizeStats))
    (x : Qc) :
  stats_get x (stats_add size span m)
  = if Qc_eqb size x then add_span span (stats_get x m) else stats_get x m.
Proof.
  induction m as [|[k st] m IH]; cbn [stats_add stats_get].
  - reflexivity.
  - destruct (Qc_eqb k size) eqn:Eks; cbn [stats_get].
    + apply Qc_eqb_true in Eks. subst k.
      destruct (Qc_eqb size x); reflexivity.
    + rewrite IH. destruct (Qc_eqb k x) eqn:Ekx; [|reflexivity].
      apply Qc_eqb_true in Ekx. subst k. rewrite Qc_eqb_sym, Eks.
      reflexivity.
Qed.

Lemma stats_get_fold (x : Qc) (spans : list Span) :
  ∀ m,
    stats_get x (fold_left (λ m span, stats_add (round2 (span_size span)) span m)
                           spans m)
    = fold_left (λ st span, add_span span st) (spans_of_size x spans)
                (stats_get x m).
Proof.
  induction spans as [|span spans IH]; intros m;
    cbn [fold_left spans_of_size List.filter]; [reflexivity|].
  rewrite IH, stats_add_get. fold (spans_of_size x spans).
  destruct (Qc_eqb (round2 (span_size span)) x); reflexivity.
Qed.

Lemma add_span_fold (spans : list Span) :
  ∀ st,
    let st' := fold_left (λ st span, add_span span st) spans st in
    count st' = (count st + List.length spans)%nat ∧
    bold_count st'
    = (bold_count st + List.length (List.filter bold_font spans))%nat ∧
    total_chars st' = (total_chars st + text_chars spans)%nat ∧
    ∀ font, counter_get font (fonts st')
            = (counter_get font (fonts st) + font_uses font spans)%nat.
Proof.
  induction spans as [|span spans IH]; intros st; cbn [fold_left]; cbv zeta.
  - unfold text_chars, font_uses. cbn. repeat split; intros; lia.
  - destruct (IH (add_span span st)) as (Hc & Hb & Ht & Hf). cbv zeta in *.
    rewrite Hc, Hb, Ht. unfold add_span at 1 2 3.
    cbn [count bold_count total_chars].
    unfold text_chars, font_uses. cbn [map list_sum List.filter].
    fold (bold_font span). fold (text_chars spans).
    split; [cbn [List.length]; lia|]. split.
    { destruct (bold_font span); cbn [List.length]; lia. }
    split; [unfold text_chars, list_sum; cbn [map fold_right]; lia|].
    intros font. rewrite Hf. unfold add_span. cbn [fonts].
    rewrite counter_add_get. unfold font_uses.
    destruct (String.eqb font (span_font span)); cbn [List.length]; lia.
Qed.

Lemma stats_entry_get (m : list (Qc * SizeStats)) (size : Qc) (st : SizeStats) :
  NoDup (map fst m) → (size, st) ∈ m → stats_get size m = st.
Proof.
  induction m as [|[k st'] m IH]; cbn [map fst stats_get]; intros Hnd Hin;
    [inversion Hin|].
  apply NoDup_cons in Hnd as [Hk Hnd].
  apply elem_of_cons in Hin as [[= -> ->]|Hin].
  - replace (Qc_eqb k k) with true
      by (symmetry; apply Qc_eqb_true; reflexivity).
    reflexivity.
  - destruct (Qc_eqb k size) eqn:E; [|auto].
    apply Qc_eqb_true in E. subst k. exfalso. apply Hk, elem_of_map.
    exists (size, st). auto.
Qed.

Lemma stats_of_keys (spans : list Span) :
  ∀ m,
    NoDup (map fst m) →
    let m' := fold_left (λ m span, stats_add (round2 (span_size span)) span m)
                        spans m in
    NoDup (map fst m') ∧
    ∀ x, x ∈ map fst m' ↔
         x ∈ map (λ span, round2 (span_size span)) spans ∨ x ∈ map fst m.
Proof.
  induction spans as [|span spans IH]; intros m Hnd; cbn [fold_left map];
    cbv zeta.
  - split; [exact Hnd|]. intros x. rewrite elem_of_nil. tauto.
  - destruct (IH (stats_add (round2 (span_size span)) span m))
      as (Hnd' & Hkeys); [apply stats_add_NoDup, Hnd|].
    split; [exact Hnd'|].
    intros x. rewrite Hkeys, stats_add_keys, elem_of_cons. tauto.
Qed.

Lemma profile_stats (doc : Document) (sp : StyleProfile) :
  _profile_document_styles doc = Some sp →
  font_size_stats sp = stats_of (all_spans blocks doc) ∧
  all_spans blocks doc ≠ [].
Proof.
  unfold _profile_document_styles.
  destruct (all_spans blocks doc) as [|s0 ss] eqn:E; [discriminate|].
  intros [= <-]. cbn [font_size_stats]. split; [reflexivity|discriminate].
Qed.

(** What [font_size_stats] holds: one entry for each rounded size of a
    span, and in it the spans of that size. *)
Lemma stats_of_spec (spans : list Span) :
  NoDup (map fst (stats_of spans)) ∧
  (∀ x, x ∈ map fst (stats_of spans) ↔
        x ∈ map (λ span, round2 (span_size span)) spans) ∧
  ∀ size st, (size, st) ∈ stats_of spans →
    let here := spans_of_size size spans in
    (1 ≤ List.length here)%nat ∧
    count st = List.length here ∧
    bold_count st = List.length (List.filter bold_font here) ∧
    total_chars st = text_chars here ∧
    ∀ font, counter_get font (fonts st) = font_uses font here.
Proof.
  destruct (stats_of_keys spans []) as (Hnd & Hkeys); [constructor|].
  cbv zeta in Hnd, Hkeys. fold (stats_of spans) in Hnd, Hkeys.
  split; [exact Hnd|]. split.
  { intros x. rewrite Hkeys, elem_of_nil. tauto. }
  intros size st Hin. cbv zeta.
  pose proof (stats_entry_get _ _ _ Hnd Hin) as Hget.
  unfold stats_of in Hget. rewrite stats_get_fold in Hget.
  destruct (add_span_fold (spans_of_size size spans) (stats_get size []))
    as (Hc & Hb & Ht & Hf).
  cbv zeta in Hc, Hb, Ht, Hf. rewrite Hget in Hc, Hb, Ht, Hf.
  cbn [stats_get empty_stats count bold_count total_chars fonts counter_get]
    in Hc, Hb, Ht, Hf.
  split; [|auto].
  assert (size ∈ map (λ span, round2 (span_size span)) spans) as Hs.
  { assert (size ∈ map fst (stats_of spans)) as Hk
      by (apply elem_of_map; exists (size, st); auto).
    apply Hkeys in Hk as [Hk|Hk]; [exact Hk|inversion Hk]. }
  apply elem_of_map in Hs as (span & -> & Hspan).
  assert (span ∈ spans_of_size (round2 (span_size span)) spans) as Hhere.
  { apply elem_of_filter_bool. split; [exact Hspan|].
    apply Qc_eqb_true. reflexivity. }
  destruct (spans_of_size _ spans); [inversion Hhere|cbn; lia].
Qed.

(** X1: the per-size statistics.  [font_size_stats] has exactly one entry for
    each rounded size that occurs among the spans of the document.  The
    entry of a size counts the spans of that size (at least one), the bold
    ones among them, the characters of their stripped texts, and for every
    font the spans of that size set in it. *)
Theorem font_size_stats_account_for_spans (doc : Document) (sp : StyleProfile) :
  _profile_document_styles doc = Some sp →
  NoDup (map fst (font_size_stats sp)) ∧
  (∀ size, size ∈ map fst (font_size_stats sp) ↔ size ∈ rounded_sizes doc) ∧
  ∀ size st, (size, st) ∈ font_size_stats sp →
    let here := spans_of_size size (all_spans blocks doc) in
    (1 ≤ List.length here)%nat ∧
    count st = List.length here ∧
    bold_count st = List.length (List.filter bold_font here) ∧
    total_chars st = text_chars here ∧
    ∀ font, counter_get font (fonts st) = font_uses font here.
Proof.
  intros [-> _]%profile_stats. apply stats_of_spec.
Qed.

Lemma font_size_stats_account_for_spans_witness :
  ∃ sp,
    _profile_document_styles sample_doc = Some sp ∧
    NoDup (map fst (font_size_stats sp)) ∧
    (∀ size, size ∈ map fst (font_size_stats sp)
             ↔ size ∈ rounded_sizes sample_doc) ∧
    ∀ size st, (size, st) ∈ font_size_stats sp →
      let here := spans_of_size size (all_spans blocks sample_doc) in
      (1 ≤ List.length here)%nat ∧
      count st = List.length here ∧
      bold_count st = List.length (List.filter bold_font here) ∧
      total_chars st = text_chars here ∧
      ∀ font, counter_get font (fonts st) = font_uses font here.
Proof.
  destruct (_profile_document_styles sample_doc) as [sp|] eqn:Esp;
    [|vm_compute in Esp; discriminate].
  exists sp. split; [reflexivity|].
  apply (font_size_stats_account_for_spans sample_doc sp Esp).
Defined.

Lemma py_max_by_count {A} (g : A → nat) (l : list A) :
  ∀ best,
    let r := py_max_by (λ a b, (g a <? g b)%nat) best l in
    r ∈ best :: l ∧ ∀ x, x ∈ best :: l → (g x ≤ g r)%nat.
Proof.
  induction l as [|y l IH]; intros best; cbn [py_max_by].
  - split; [left|]. intros x ->%list_elem_of_singleton. lia.
  - destruct (Nat.ltb_spec (g best) (g y)) as [Hlt|Hge].
    + destruct (IH y) as [Hin Hmax]. split; [right; exact Hin|].
      intros x [->|Hx]%elem_of_cons; [|apply Hmax, Hx].
      pose proof (Hmax y ltac:(left)). lia.
    + destruct (IH best) as [Hin Hmax]. split.
      * apply elem_of_cons in Hin as [->|Hin]; [left|right; right; exact Hin].
      * intros x [->|[->|Hx]%elem_of_cons]%elem_of_cons.
        -- apply Hmax. left.
        -- pose proof (Hmax best ltac:(left)). lia.
        -- apply Hmax. right. exact Hx.
Qed.

Lemma profile_body_size (doc : Document) (sp : StyleProfile) :
  _profile_document_styles doc = Some sp →
  body_size sp =
  match List.filter substantial (font_size_stats sp) with
  | c :: cs => fst (py_max_by count_lt c cs)
  | [] =>
      match font_size_stats sp with
      | c :: cs => fst (py_max_by count_lt c cs)
      | [] => dec 10 1
      end
  end.
Proof.
  unfold _profile_document_styles.
  destruct (all_spans blocks doc) as [|s0 ss]; [discriminate|].
  intros [= <-]. reflexivity.
Qed.

Lemma stats_nonempty (doc : Document) (sp : StyleProfile) :
  _profile_document_styles doc = Some sp → font_size_stats sp ≠ [].
Proof.
  intros [-> Hne]%profile_stats E.
  destruct (stats_of_spec (all_spans blocks doc)) as (_ & Hkeys & _).
  destruct (all_spans blocks doc) as [|s0 ss]; [congruence|].
  assert (round2 (span_size s0) ∈ map fst (stats_of (s0 :: ss))) as H
    by (apply Hkeys; left).
  rewrite E in H. inversion H.
Qed.

(** The entry of [font_size_stats] that gives the body size. *)
Lemma body_size_entry (doc : Document) (sp : StyleProfile) :
  _profile_document_styles doc = Some sp →
  ∃ st,
    (body_size sp, st) ∈ font_size_stats sp ∧
    (∀ kv, kv ∈ font_size_stats sp → substantial kv = true →
           substantial (body_size sp, st) = true ∧
           (count (snd kv) ≤ count st)%nat) ∧
    ((∀ kv, kv ∈ font_size_stats sp → substantial kv = false) →
     ∀ kv, kv ∈ font_size_stats sp → (count (snd kv) ≤ count st)%nat).
Proof.
  intros H. rewrite (profile_body_size doc sp H).
  pose proof (stats_nonempty doc sp H) as Hne.
  destruct (List.filter substantial (font_size_stats sp)) as [|c cs] eqn:Ef.
  - destruct (font_size_stats sp) as [|c cs] eqn:Es; [congruence|].
    destruct (py_max_by_count (λ kv : Qc * SizeStats, count (snd kv)) cs c)
      as [Hin Hmax].
    fold count_lt in Hin, Hmax.
    set (r := py_max_by count_lt c cs) in *.
    exists (snd r). rewrite <- surjective_pairing.
    split; [exact Hin|]. split.
    + intros kv Hkv Hs. exfalso.
      assert (kv ∈ List.filter substantial (c :: cs)) as Hf
        by (apply elem_of_filter_bool; auto).
      rewrite Ef in Hf. inversion Hf.
    + intros _ kv Hkv. apply Hmax, Hkv.
  - destruct (py_max_by_count (λ kv : Qc * SizeStats, count (snd kv)) cs c)
      as [Hin Hmax].
    fold count_lt in Hin, Hmax.
    set (r := py_max_by count_lt c cs) in *.
    rewrite <- Ef in Hin, Hmax.
    apply elem_of_filter_bool in Hin as [Hin Hsub].
    exists (snd r). rewrite <- surjective_pairing.
    split; [exact Hin|]. split.
    + intros kv Hkv Hs. split; [exact Hsub|].
      apply Hmax, elem_of_filter_bool. auto.
    + intros Hnone. specialize (Hnone r Hin). congruence.
Qed.

Lemma body_size_rounded (doc : Document) (sp : StyleProfile) :
  _profile_document_styles doc = Some sp → body_size sp ∈ rounded_sizes doc.
Proof.
  intros H. destruct (body_size_entry doc sp H) as (st & Hin & _).
  pose proof H as [Hs _]%profile_stats.
  destruct (stats_of_spec (all_spans blocks doc)) as (_ & Hkeys & _).
  apply Hkeys. rewrite <- Hs. apply elem_of_map. exists (body_size sp, st).
  split; [reflexivity|exact Hin].
Qed.

Lemma rounded_size_entry (doc : Document) (sp : StyleProfile) (size : Qc) :
  _profile_document_styles doc = Some sp →
  size ∈ rounded_sizes doc →
  ∃ st, (size, st) ∈ font_size_stats sp.
Proof.
  intros [-> _]%profile_stats Hs.
  destruct (stats_of_spec (all_spans blocks doc)) as (_ & Hkeys & _).
  apply Hkeys in Hs. apply elem_of_map in Hs as ([k st] & -> & Hin).
  exists st. exact Hin.
Qed.

Lemma spans_of_size_rounded (doc : Document) (size : Qc) :
  size ∈ rounded_sizes doc ∨ spans_of_size size (all_spans blocks doc) = [].
Proof.
  destruct (spans_of_size size (all_spans blocks doc)) as [|span l] eqn:E;
    [right; reflexivity|left].
  assert (span ∈ spans_of_size size (all_spans blocks doc)) as H
    by (rewrite E; left).
  apply elem_of_filter_bool in H as [H Hs]. apply Qc_eqb_true in Hs.
  apply elem_of_map. exists span. auto.
Qed.

(** X2: the body size.  The body size is the rounded size of some span.
    When some size has more than 100 characters of text, the body size is
    such a size and no such size has more spans; when none has, no size at
    all has more spans than the body size. *)
Theorem body_size_is_most_frequent (doc : Document) (sp : StyleProfile) :
  _profile_document_styles doc = Some sp →
  let spans := all_spans blocks doc in
  body_size sp ∈ rounded_sizes doc ∧
  (∀ size,
     (100 < text_chars (spans_of_size size spans))%nat →
     (100 < text_chars (spans_of_size (body_size sp) spans))%nat ∧
     (List.length (spans_of_size size spans)
      ≤ List.length (spans_of_size (body_size sp) spans))%nat) ∧
  ((∀ size, (text_chars (spans_of_size size spans) ≤ 100)%nat) →
   ∀ size, (List.length (spans_of_size size spans)
            ≤ List.length (spans_of_size (body_size sp) spans))%nat).
Proof.
  intros H spans. subst spans.
  split; [apply body_size_rounded, H|].
  destruct (body_size_entry doc sp H) as (st & Hin & Hbig & Hsmall).
  pose proof H as [Hs _]%profile_stats.
  destruct (stats_of_spec (all_spans blocks doc)) as (_ & _ & Hentry).
  rewrite <- Hs in Hentry.
  destruct (Hentry _ _ Hin) as (_ & Hc & _ & Ht & _). cbv zeta in Hc, Ht.
  unfold substantial in Hbig, Hsmall. cbn [snd] in Hbig, Hsmall.
  split.
  - intros size Hsize.
    destruct (spans_of_size_rounded doc size) as [Hr|He];
      [|rewrite He in Hsize; cbn in Hsize; lia].
    destruct (rounded_size_entry doc sp size H Hr) as [st' Hin'].
    destruct (Hentry _ _ Hin') as (_ & Hc' & _ & Ht' & _).
    cbv zeta in Hc', Ht'.
    destruct (Hbig (size, st') Hin') as [Hb Hle].
    { cbn [snd]. apply Nat.ltb_lt. lia. }
    apply Nat.ltb_lt in Hb. cbn [snd] in Hle. lia.
  - intros Hnone size.
    destruct (spans_of_size_rounded doc size) as [Hr|He];
      [|rewrite He; cbn; lia].
    destruct (rounded_size_entry doc sp size H Hr) as [st' Hin'].
    destruct (Hentry _ _ Hin') as (_ & Hc' & _).
    cbv zeta in Hc'.
    assert (count (snd (size, st')) ≤ count st)%nat as Hle; [|cbn in Hle; lia].
    apply Hsmall; [|exact Hin'].
    intros [k s] Hk. cbn [snd]. apply Nat.ltb_ge.
    destruct (Hentry _ _ Hk) as (_ & _ & _ & Ht' & _). cbv zeta in Ht'.
    rewrite Ht'. apply Hnone.
Qed.

Lemma body_size_is_most_frequent_witness :
  ∃ sp,
    _profile_document_styles sample_doc = Some sp ∧
    this (body_size sp) = 10 # 1 ∧
    body_size sp ∈ rounded_sizes sample_doc ∧
    (100 < text_chars (spans_of_size (body_size sp)
                         (all_spans blocks sample_doc)))%nat.
Proof.
  destruct (_profile_document_styles sample_doc) as [sp|] eqn:Esp;
    [|vm_compute in Esp; discriminate].
  exists sp. split; [reflexivity|].
  destruct (body_size_is_most_frequent sample_doc sp Esp) as (Hin & Hbig & _).
  split; [vm_compute in Esp; injection Esp as <-; reflexivity|].
  split; [exact Hin|].
  apply (Hbig (dec 10 1)).
  vm_compute. lia.
Defined.

(** ** The body font *)

Lemma stats_add_fonts_total (k : string) (size : Qc) (span : Span)
    (m : list (Qc * SizeStats)) :
  fonts_total k (stats_add size span m)
  = (fonts_total k m + (if String.eqb k (span_font span) then 1 else 0))%nat.
Proof.
  induction m as [|[k' st] m IH]; cbn [stats_add fonts_total].
  - cbn. lia.
  - destruct (Qc_eqb k' size); cbn [fonts_total snd].
    + unfold add_span. cbn [fonts]. rewrite sum_for_counter_add. lia.
    + rewrite IH. lia.
Qed.

Lemma stats_fold_fonts_total (k : string) (spans : list Span) :
  ∀ m,
    fonts_total k (fold_left (λ m span, stats_add (round2 (span_size span)) span m)
                             spans m)
    = (fonts_total k m + font_uses k spans)%nat.
Proof.
  unfold font_uses.
  induction spans as [|span spans IH]; intros m; cbn [fold_left List.filter].
  - cbn. lia.
  - rewrite IH, stats_add_fonts_total.
    destruct (String.eqb k (span_font span)); cbn [List.length]; lia.
Qed.

Lemma all_fonts_fold (k : string) (m : list (Qc * SizeStats)) :
  ∀ c,
    NoDup (map fst c) →
    let c' := fold_left (λ acc kv, counter_update acc (fonts (snd kv))) m c in
    NoDup (map fst c') ∧
    counter_get k c' = (counter_get k c + fonts_total k m)%nat.
Proof.
  induction m as [|kv m IH]; intros c Hnd; cbn [fold_left fonts_total];
    cbv zeta.
  - split; [exact Hnd|lia].
  - destruct (IH (counter_update c (fonts (snd kv))))
      as [Hnd' Hget]; [apply counter_update_NoDup, Hnd|].
    split; [exact Hnd'|]. cbv zeta in Hget.
    rewrite Hget, counter_update_get. lia.
Qed.

Lemma profile_body_font (doc : Document) (sp : StyleProfile) :
  _profile_document_styles doc = Some sp →
  body_font sp =
  match all_fonts_of (font_size_stats sp) with
  | c :: cs => fst (py_max_by (λ a b, (snd a <? snd b)%nat) c cs)
  | [] => "Unknown"
  end.
Proof.
  unfold _profile_document_styles.
  destruct (all_spans blocks doc) as [|s0 ss]; [discriminate|].
  intros [= <-]. reflexivity.
Qed.

Lemma all_fonts_get (doc : Document) (sp : StyleProfile) :
  _profile_document_styles doc = Some sp →
  NoDup (map fst (all_fonts_of (font_size_stats sp))) ∧
  ∀ font, counter_get font (all_fonts_of (font_size_stats sp))
          = font_uses font (all_spans blocks doc).
Proof.
  intros [-> _]%profile_stats. unfold all_fonts_of. split.
  - apply (all_fonts_fold "" _ []). constructor.
  - intros font.
    destruct (all_fonts_fold font (stats_of (all_spans blocks doc)) [])
      as [_ ->]; [constructor|].
    unfold stats_of. rewrite stats_fold_fonts_total. reflexivity.
Qed.

(** X3: the body font.  The body font is the font of some span of the
    document, and no font is the font of more spans. *)
Theorem body_font_is_most_common (doc : Document) (sp : StyleProfile) :
  _profile_document_styles doc = Some sp →
  let spans := all_spans blocks doc in
  (1 ≤ font_uses (body_font sp) spans)%nat ∧
  ∀ font, (font_uses font spans ≤ font_uses (body_font sp) spans)%nat.
Proof.
  intros H spans. subst spans.
  destruct (all_fonts_get doc sp H) as [Hnd Hget].
  rewrite (profile_body_font doc sp H).
  pose proof H as [_ Hne]%profile_stats.
  destruct (all_spans blocks doc) as [|s0 ss] eqn:Es; [congruence|].
  rewrite <- Es in *.
  assert (1 ≤ font_uses (span_font s0) (all_spans blocks doc))%nat as H0.
  { rewrite Es. unfold font_uses. cbn [List.filter].
    rewrite String.eqb_refl. cbn. lia. }
  destruct (all_fonts_of (font_size_stats sp)) as [|c cs] eqn:Ea.
  { specialize (Hget (span_font s0)). cbn in Hget. lia. }
  destruct (py_max_by_count (λ kv : string * nat, snd kv) cs c) as [Hin Hmax].
  cbv zeta in Hin, Hmax.
  set (r := py_max_by _ c cs) in *.
  assert (snd r = font_uses (fst r) (all_spans blocks doc)) as Hr.
  { rewrite <- Hget. symmetry. apply counter_entry_get; [exact Hnd|].
    rewrite <- surjective_pairing. exact Hin. }
  assert (∀ font, (font_uses font (all_spans blocks doc) ≤ snd r)%nat) as Hall.
  { intros font.
    destruct (font_uses font (all_spans blocks doc)) as [|n] eqn:En; [lia|].
    rewrite <- En, <- Hget.
    apply (Hmax (font, counter_get font (c :: cs))).
    apply counter_get_entry. rewrite Hget. lia. }
  split.
  - rewrite <- Hr. specialize (Hall (span_font s0)). lia.
  - intros font. rewrite <- Hr. apply Hall.
Qed.

Lemma body_font_is_most_common_witness :
  ∃ sp,
    _profile_document_styles sample_doc = Some sp ∧
    body_font sp = "Helvetica-Bold" ∧
    (1 ≤ font_uses (body_font sp) (all_spans blocks sample_doc))%nat ∧
    ∀ font, (font_uses font (all_spans blocks sample_doc)
             ≤ font_uses (body_font sp) (all_spans blocks sample_doc))%nat.
Proof.
  destruct (_profile_document_styles sample_doc) as [sp|] eqn:Esp;
    [|vm_compute in Esp; discriminate].
  exists sp. split; [reflexivity|].
  split; [vm_compute in Esp; injection Esp as <-; reflexivity|].
  apply (body_font_is_most_common sample_doc sp Esp).
Defined.

(** ** The sizes of the profile and its heading tiers *)

Lemma desc_total (x y : Qc) : desc x y = true ∨ desc y x = true.
Proof.
  unfold desc. rewrite !Qc_leb_true.
  destruct (Qclt_le_dec x y) as [H|H]; [right; apply Qclt_le_weak, H|left; exact H].
Qed.

Lemma desc_trans : Transitive (le_rel desc).
Proof.
  intros x y z. unfold le_rel, desc. rewrite !Qc_leb_true.
  intros H1' H2'. eapply Qcle_trans; eassumption.
Qed.

(** A descending sort of distinct numbers is strictly descending. *)
Lemma sort_desc_strict (l : list Qc) :
  NoDup l → StronglySorted (λ a b, (b < a)%Qc) (sort_by desc l).
Proof.
  intros Hnd.
  assert (NoDup (sort_by desc l)) as Hnd' by (rewrite sort_by_perm; exact Hnd).
  pose proof (sort_by_Sorted desc desc_total l) as Hs.
  apply (@Sorted_StronglySorted _ _ desc_trans) in Hs.
  induction Hs as [|a l' Hl' IH Ha]; [constructor|].
  apply NoDup_cons in Hnd' as [Hna Hnd'].
  constructor; [apply IH, Hnd'|].
  rewrite Forall_forall in *. intros b Hb.
  specialize (Ha b Hb). unfold le_rel, desc in Ha. apply Qc_leb_true in Ha.
  apply Qcle_lt_or_eq in Ha as [Ha| ->]; [exact Ha|contradiction].
Qed.

Lemma profile_sorted_sizes (doc : Document) (sp : StyleProfile) :
  _profile_document_styles doc = Some sp →
  sorted_sizes sp = sort_by desc (map fst (font_size_stats sp)) ∧
  heading_sizes sp =
  {| largest := nth 0 (sorted_sizes sp) (body_size sp);
     second_largest := nth 1 (sorted_sizes sp) (body_size sp);
     third_largest := nth 2 (sorted_sizes sp) (body_size sp) |}.
Proof.
  unfold _profile_document_styles.
  destruct (all_spans blocks doc) as [|s0 ss]; [discriminate|].
  intros [= <-]. split; reflexivity.
Qed.

Lemma sorted_sizes_spec (doc : Document) (sp : StyleProfile) :
  _profile_document_styles doc = Some sp →
  StronglySorted (λ a b, (b < a)%Qc) (sorted_sizes sp) ∧
  (∀ size, size ∈ sorted_sizes sp ↔ size ∈ rounded_sizes doc) ∧
  sorted_sizes sp ≠ [].
Proof.
  intros H. destruct (profile_sorted_sizes doc sp H) as [-> _].
  pose proof H as [Hs Hne]%profile_stats.
  destruct (stats_of_spec (all_spans blocks doc)) as (Hnd & Hkeys & _).
  rewrite <- Hs in Hnd, Hkeys.
  split; [apply sort_desc_strict, Hnd|]. split.
  - intros size. rewrite elem_of_sort_by. apply Hkeys.
  - intros E. apply (f_equal (@List.length Qc)) in E.
    rewrite (Permutation_length (sort_by_perm _ _)), length_map in E.
    pose proof (stats_nonempty doc sp H).
    destruct (font_size_stats sp); [congruence|discriminate].
Qed.

(** X4: the list of sizes of the profile.  [sorted_sizes] is strictly
    descending, so it lists no size twice, and its members are exactly the
    rounded font sizes of the spans of the document. *)
Theorem sorted_sizes_are_the_sizes (doc : Document) (sp : StyleProfile) :
  _profile_document_styles doc = Some sp →
  Sorted (λ a b, (b < a)%Qc) (sorted_sizes sp) ∧
  NoDup (sorted_sizes sp) ∧
  ∀ size, size ∈ sorted_sizes sp ↔ size ∈ rounded_sizes doc.
Proof.
  intros H. destruct (sorted_sizes_spec doc sp H) as (Hs & He & _).
  split; [apply StronglySorted_Sorted, Hs|]. split; [|exact He].
  destruct (profile_sorted_sizes doc sp H) as [-> _].
  rewrite sort_by_perm.
  pose proof H as [Hst _]%profile_stats.
  destruct (stats_of_spec (all_spans blocks doc)) as (Hnd & _).
  rewrite Hst. exact Hnd.
Qed.

Lemma nth_in_or_default {A} (n : nat) (l : list A) (dflt : A) :
  nth n l dflt ∈ l ∨ ((List.length l ≤ n)%nat ∧ nth n l dflt = dflt).
Proof.
  destruct (Nat.lt_ge_cases n (List.length l)) as [Hlt|Hge].
  - left. apply list_elem_of_In, nth_In, Hlt.
  - right. split; [exact Hge|apply nth_overflow, Hge].
Qed.

(** X5: the heading tiers.  The largest tier is the largest font size of the
    document, and the second and third tiers are font sizes of the document.
    With at least two sizes the second tier is below the largest, and with
    at least three the third is below the second; a tier that the document
    has too few sizes for is the body size. *)
Theorem heading_sizes_tiers (doc : Document) (sp : StyleProfile) :
  _profile_document_styles doc = Some sp →
  let hs := heading_sizes sp in
  (largest hs ∈ rounded_sizes doc ∧
   ∀ size, size ∈ rounded_sizes doc → (size ≤ largest hs)%Qc) ∧
  (second_largest hs ∈ rounded_sizes doc ∧
   third_largest hs ∈ rounded_sizes doc) ∧
  ((List.length (sorted_sizes sp) < 2)%nat → second_largest hs = body_size sp) ∧
  ((List.length (sorted_sizes sp) < 3)%nat → third_largest hs = body_size sp) ∧
  ((2 ≤ List.length (sorted_sizes sp))%nat →
   (second_largest hs < largest hs)%Qc) ∧
  ((3 ≤ List.length (sorted_sizes sp))%nat →
   (third_largest hs < second_largest hs)%Qc).
Proof.
  intros H hs. subst hs.
  destruct (profile_sorted_sizes doc sp H) as [_ ->]. cbn [largest second_largest third_largest].
  destruct (sorted_sizes_spec doc sp H) as (Hs & He & Hne).
  destruct (body_size_entry doc sp H) as (st & Hbody & _).
  assert (body_size sp ∈ rounded_sizes doc) as Hb.
  { pose proof H as [Hst _]%profile_stats.
    destruct (stats_of_spec (all_spans blocks doc)) as (_ & Hkeys & _).
    apply Hkeys. rewrite <- Hst. apply elem_of_map.
    exists (body_size sp, st). split; [reflexivity|exact Hbody]. }
  destruct (sorted_sizes sp) as [|a l] eqn:E; [congruence|].
  apply StronglySorted_inv in Hs as [Hl Ha]. rewrite Forall_forall in Ha.
  split; [|split; [|split; [|split; [|split]]]].
  - split; [apply He; left|].
    intros size [->|Hx]%He%elem_of_cons; [apply Qcle_refl|].
    apply Qclt_le_weak, Ha, Hx.
  - split.
    + destruct (nth_in_or_default 1 (a :: l) (body_size sp)) as [Hin|[_ ->]];
        [apply He, Hin|exact Hb].
    + destruct (nth_in_or_default 2 (a :: l) (body_size sp)) as [Hin|[_ ->]];
        [apply He, Hin|exact Hb].
  - intros Hlen. apply nth_overflow. cbn in *. lia.
  - intros Hlen. apply nth_overflow. cbn in *. lia.
  - intros Hlen. destruct l as [|b l]; cbn in Hlen; [lia|]. cbn.
    apply Ha. left.
  - intros Hlen. destruct l as [|b [|c l]]; cbn in Hlen; try lia. cbn.
    apply StronglySorted_inv in Hl as [_ Hb']. rewrite Forall_forall in Hb'.
    apply Hb'. left.
Qed.

Lemma sorted_sizes_are_the_sizes_witness :
  ∃ sp,
    _profile_document_styles sample_doc = Some sp ∧
    map this (sorted_sizes sp) = [24 # 1; 18 # 1; 16 # 1; 14 # 1; 10 # 1] ∧
    Sorted (λ a b, (b < a)%Qc) (sorted_sizes sp) ∧
    NoDup (sorted_sizes sp) ∧
    ∀ size, size ∈ sorted_sizes sp ↔ size ∈ rounded_sizes sample_doc.
Proof.
  destruct (_profile_document_styles sample_doc) as [sp|] eqn:Esp;
    [|vm_compute in Esp; discriminate].
  exists sp. split; [reflexivity|].
  split; [vm_compute in Esp; injection Esp as <-; reflexivity|].
  apply (sorted_sizes_are_the_sizes sample_doc sp Esp).
Defined.

Lemma heading_sizes_tiers_witness :
  ∃ sp,
    _profile_document_styles small_title_doc = Some sp ∧
    map this (sorted_sizes sp) = [12 # 1; 10 # 1] ∧
    (second_largest (heading_sizes sp) < largest (heading_sizes sp))%Qc ∧
    third_largest (heading_sizes sp) = body_size sp.
Proof.
  destruct (_profile_document_styles small_title_doc) as [sp|] eqn:Esp;
    [|vm_compute in Esp; discriminate].
  exists sp. split; [reflexivity|].
  assert (map this (sorted_sizes sp) = [12 # 1; 10 # 1]) as Hs
    by (vm_compute in Esp; injection Esp as <-; reflexivity).
  split; [exact Hs|].
  apply (f_equal (@List.length Q)) in Hs. rewrite length_map in Hs.
  destruct (heading_sizes_tiers small_title_doc sp Esp)
    as (_ & _ & _ & H3 & H2 & _).
  split; [apply H2; rewrite Hs; cbn; lia|apply H3; rewrite Hs; cbn; lia].
Defined.

(** ** [_is_repetitive_text] *)

Lemma word_counts_spec (words : list string) :
  ∀ c, NoDup (map fst c) →
    let c' := fold_left (λ acc word,
                           if (2 <? py_len word)%nat
                           then counter_add word 1 acc else acc) words c in
    NoDup (map fst c') ∧
    ∀ k, counter_get k c'
         = (counter_get k c + occurrences k (List.filter long_word words))%nat.
Proof.
  induction words as [|w words IH]; intros c Hnd; cbn [fold_left].
  - split; [exact Hnd|]. intros k. cbn. lia.
  - destruct (2 <? py_len w)%nat eqn:E.
    + destruct (IH (counter_add w 1 c) (counter_add_NoDup _ _ _ Hnd))
        as [Hnd' Hget].
      split; [exact Hnd'|]. intros k. rewrite Hget, counter_add_get.
      unfold occurrences. cbn [List.filter]. unfold long_word at 2. rewrite E.
      cbn [List.filter]. destruct (String.eqb k w); cbn; lia.
    + destruct (IH c Hnd) as [Hnd' Hget].
      split; [exact Hnd'|]. intros k. rewrite Hget.
      unfold occurrences. cbn [List.filter]. unfold long_word at 2. rewrite E.
      reflexivity.
Qed.

Lemma occurrences_filter_long (k : string) (words : list string) :
  occurrences k (List.filter long_word words)
  = if long_word k then occurrences k words else 0%nat.
Proof.
  unfold occurrences. induction words as [|w words IH]; cbn [List.filter].
  - destruct (long_word k); reflexivity.
  - destruct (long_word w) eqn:Ew; cbn [List.filter].
    + destruct (String.eqb_spec k w) as [->|Hne]; cbn [List.length]; rewrite IH.
      * rewrite Ew. reflexivity.
      * reflexivity.
    + destruct (String.eqb_spec k w) as [->|Hne]; [|exact IH].
      rewrite IH, Ew. reflexivity.
Qed.

Lemma occurrences_le_length (k : string) (words : list string) :
  (occurrences k words ≤ List.length words)%nat.
Proof. unfold occurrences. apply filter_length_le. Qed.

(** X6: when a text counts as repetitive.  [_is_repetitive_text] holds
    exactly when some word of more than 2 characters occurs more than 3
    times among the lowercased words of the text. *)
Theorem is_repetitive_text_iff (text : string) :
  _is_repetitive_text text = true ↔
  ∃ word, (2 < py_len word)%nat ∧
          (3 < occurrences word (py_split (py_lower text)))%nat.
Proof.
  unfold _is_repetitive_text.
  set (words := py_split (py_lower text)).
  destruct (word_counts_spec words [] (NoDup_nil_2)) as [Hnd Hget].
  cbv zeta in Hnd, Hget.
  set (c := fold_left _ words []) in *.
  assert (∀ k, counter_get k c
               = if long_word k then occurrences k words else 0%nat) as Hc.
  { intros k. rewrite Hget, occurrences_filter_long. reflexivity. }
  clear Hget. split.
  - destruct (List.length words <? 3)%nat; [discriminate|].
    intros ([k n] & Hin & Hn)%existsb_exists.
    apply list_elem_of_In in Hin. change ((3 <? n)%nat = true) in Hn.
    apply Nat.ltb_lt in Hn.
    pose proof (counter_entry_get c k n Hnd Hin) as Hk. rewrite Hc in Hk.
    exists k. destruct (long_word k) eqn:El; [|lia].
    split; [apply Nat.ltb_lt, El|lia].
  - intros (w & Hlen & Hocc).
    destruct (Nat.ltb_spec (List.length words) 3) as [Hshort|_].
    { pose proof (occurrences_le_length w words). lia. }
    apply existsb_exists. exists (w, counter_get w c).
    assert (counter_get w c = occurrences w words) as Hw.
    { rewrite Hc. unfold long_word.
      replace (2 <? py_len w)%nat with true
        by (symmetry; apply Nat.ltb_lt, Hlen). reflexivity. }
    split.
    + apply list_elem_of_In, counter_get_entry. lia.
    + change ((3 <? counter_get w c)%nat = true). apply Nat.ltb_lt. lia.
Qed.

(** ** [_clean_repetitive_title] *)

Lemma clean_words_sublist (words : list string) (rest : list string) :
  ∀ i cleaned, ∃ kept,
    kept `sublist_of` rest ∧ clean_words words i rest cleaned = cleaned ++ kept.
Proof.
  induction rest as [|word rest IH]; intros i cleaned; cbn [clean_words].
  - exists []. split; [constructor|]. rewrite app_nil_r. reflexivity.
  - cbv zeta.
    destruct (_ && _).
    { destruct (IH (S i) cleaned) as (kept & Hs & ->).
      exists kept. split; [apply sublist_cons, Hs|reflexivity]. }
    destruct (_ && _).
    { destruct (IH (S i) cleaned) as (kept & Hs & ->).
      exists kept. split; [apply sublist_cons, Hs|reflexivity]. }
    destruct (IH (S i) (cleaned ++ [word])) as (kept & Hs & ->).
    exists (word :: kept). split; [apply sublist_skip, Hs|].
    rewrite <- app_assoc. reflexivity.
Qed.

Lemma clean_words_unchanged (words : list string) :
  no_close_repeat words →
  ∀ rest i cleaned, drop i words = rest →
    clean_words words i rest cleaned = cleaned ++ rest.
Proof.
  intros Hno. induction rest as [|word rest IH]; intros i cleaned Hdrop;
    cbn [clean_words].
  - rewrite app_nil_r. reflexivity.
  - cbv zeta.
    assert (words !! i = Some word) as Hi.
    { rewrite <- (Nat.add_0_r i), <- lookup_drop, Hdrop. reflexivity. }
    assert (drop (S i) words = rest) as Hrest.
    { rewrite (drop_S _ _ _ Hi) in Hdrop. congruence. }
    assert (∀ b, ((0 <? i)%nat &&
              match words !! (i - 1)%nat with
              | Some w1 => String.eqb (py_lower word) (py_lower w1)
              | None => false
              end) = b → b = false) as H1.
    { intros b <-. destruct i as [|j]; [reflexivity|].
      replace (S j - 1)%nat with j by lia. cbn [Nat.ltb Nat.leb andb].
      destruct (words !! j) as [w1|] eqn:Ej; [|reflexivity].
      apply String.eqb_neq. apply (Hno j w1 word Ej). left. exact Hi. }
    rewrite (H1 _ eq_refl).
    assert (∀ b, ((1 <? i)%nat &&
              match words !! (i - 2)%nat, words !! (i - 1)%nat with
              | Some w2, Some w1 =>
                  String.eqb (py_lower word) (py_lower w2) &&
                  (1 <? List.length cleaned)%nat &&
                  last_lower_is cleaned w1
              | _, _ => false
              end) = b → b = false) as H2.
    { intros b <-. destruct i as [|[|j]]; [reflexivity|reflexivity|].
      replace (S (S j) - 2)%nat with j by lia.
      destruct (words !! j) as [w2|] eqn:Ej; [|apply andb_false_r].
      destruct (words !! (S (S j) - 1)%nat); [|apply andb_false_r].
      assert (String.eqb (py_lower word) (py_lower w2) = false) as ->.
      { apply String.eqb_neq. apply (Hno j w2 word Ej). right. exact Hi. }
      apply andb_false_r. }
    rewrite (H2 _ eq_refl).
    rewrite (IH (S i) (cleaned ++ [word]) Hrest), <- app_assoc. reflexivity.
Qed.

(** X7: what [_clean_repetitive_title] returns.  The result is the
    single-space join of a subsequence of the words of the title; the
    first word is always kept; and when no word repeats, ignoring case,
    the word before it or the word two places before it, every word is
    kept. *)
Theorem clean_repetitive_title_keeps_words (title : string) :
  ∃ kept,
    _clean_repetitive_title title = py_join " " kept ∧
    kept `sublist_of` py_split title ∧
    head kept = head (py_split title) ∧
    (no_close_repeat (py_split title) → kept = py_split title).
Proof.
  unfold _clean_repetitive_title. cbv zeta.
  set (words := py_split title).
  exists (clean_words words 0 words []). split; [reflexivity|].
  split; [|split].
  - destruct (clean_words_sublist words words 0 []) as (kept & Hs & ->).
    exact Hs.
  - destruct words as [|w rest] eqn:E; [reflexivity|].
    cbn [clean_words]. cbv zeta. cbn [Nat.ltb Nat.leb andb].
    destruct (clean_words_sublist (w :: rest) rest 1 ([] ++ [w]))
      as (kept & _ & ->).
    reflexivity.
  - intros Hno. apply (clean_words_unchanged words Hno words 0 []).
    reflexivity.
Qed.

(** ** The title loop of [_extract_title] *)

Lemma merge_title_parts_spec (best_size : Qc) (remaining : list TitleCandidate) :
  ∀ best_y title_parts, ∃ n,
    merge_title_parts best_size best_y title_parts remaining
    = title_parts ++ map tc_text (take n remaining) ∧
    Forall (λ c, (3 ≤ tc_score c)%Z ∧
                 (Qc_abs (tc_size c - best_size) < dec 4 1)%Qc)
           (take n remaining) ∧
    (n = 0%nat ∨
     _is_repetitive_text
       (py_join " " (title_parts ++ map tc_text (take n remaining))) = false).
Proof.
  induction remaining as [|c rest IH]; intros best_y parts;
    cbn [merge_title_parts].
  - exists 0%nat. cbn. rewrite app_nil_r. auto.
  - cbv zeta.
    destruct (_ && _ && _) eqn:Econd;
      [|exists 0%nat; cbn; rewrite app_nil_r; auto].
    apply andb_prop in Econd as [[_ Hsize]%andb_prop Hscore].
    destruct (_is_repetitive_text _) eqn:Erep; cbn [negb];
      [exists 0%nat; cbn; rewrite app_nil_r; auto|].
    destruct (IH (tc_y c) (parts ++ [tc_text c])) as (n & Heq & Hall & Hrep).
    exists (S n). cbn [take map]. rewrite Heq, <- app_assoc. cbn [app].
    split; [reflexivity|]. split.
    + constructor; [|exact Hall]. split.
      * apply Z.leb_le, Hscore.
      * apply Qc_ltb_true, Hsize.
    + right. destruct Hrep as [->|Hrep].
      * cbn [take map]. exact Erep.
      * rewrite <- app_assoc in Hrep. exact Hrep.
Qed.

(** X8: how the title is put together from several lines.  After the
    best-scored line, the loop takes the following candidates in rank
    order without gaps: the parts are the best line followed by the texts of
    a prefix of the remaining candidates.  Every line taken has score at
    least 3 and a font size within 4 points of the best line, and a title of
    more than one line is never repetitive. *)
Theorem title_parts_are_a_prefix (best : TitleCandidate)
    (remaining : list TitleCandidate) :
  ∃ n,
    let taken := take n remaining in
    let title_parts :=
      merge_title_parts (tc_size best) (tc_y best) [tc_text best] remaining in
    title_parts = tc_text best :: map tc_text taken ∧
    Forall (λ c, (3 ≤ tc_score c)%Z ∧
                 (Qc_abs (tc_size c - tc_size best) < dec 4 1)%Qc) taken ∧
    (taken = [] ∨ _is_repetitive_text (py_join " " title_parts) = false).
Proof.
  destruct (merge_title_parts_spec (tc_size best) remaining (tc_y best)
              [tc_text best]) as (n & Heq & Hall & Hrep).
  exists n. cbv zeta. rewrite Heq. split; [reflexivity|].
  split; [exact Hall|].
  destruct Hrep as [->|Hrep]; [left; reflexivity|right; exact Hrep].
Qed.

(** ** Stripping *)

Lemma lstrip_chars_head (p : ascii → bool) (l : chars) (c : ascii) :
  head (lstrip_chars p l) = Some c → p c = false.
Proof.
  induction l as [|x l IH]; cbn; [discriminate|].
  destruct (p x) eqn:E; [exact IH|]. cbn. intros [= <-]. exact E.
Qed.

Lemma lstrip_chars_suffix (p : ascii → bool) (l : chars) :
  lstrip_chars p l `suffix_of` l.
Proof.
  induction l as [|x l IH]; cbn; [reflexivity|].
  destruct (p x); [|reflexivity]. apply suffix_cons_r, IH.
Qed.

Lemma suffix_last {A} (l1 l2 : list A) (x : A) :
  l1 `suffix_of` l2 → last l1 = Some x → last l2 = Some x.
Proof.
  intros [k ->] H. destruct l1 as [|y l1]; [discriminate|].
  rewrite last_app, H. reflexivity.
Qed.

Lemma rstrip_chars_last (p : ascii → bool) (l : chars) (c : ascii) :
  last (rstrip_chars p l) = Some c → p c = false.
Proof.
  unfold rstrip_chars. rewrite rev_alt. fold (reverse (lstrip_chars p (rev l))).
  rewrite last_reverse. apply lstrip_chars_head.
Qed.

Lemma rstrip_chars_prefix (p : ascii → bool) (l : chars) :
  rstrip_chars p l `prefix_of` l.
Proof.
  unfold rstrip_chars.
  destruct (lstrip_chars_suffix p (rev l)) as [k Hk].
  exists (rev k). apply (f_equal (@rev ascii)) in Hk.
  rewrite rev_involutive, rev_app_distr in Hk. exact Hk.
Qed.

Lemma prefix_head {A} (l1 l2 : list A) (x : A) :
  l1 `prefix_of` l2 → head l1 = Some x → head l2 = Some x.
Proof. intros [k ->] H. destruct l1; [discriminate|exact H]. Qed.

Lemma strip_chars_trimmed (p : ascii → bool) (l : chars) :
  trimmed p (strip_chars p l).
Proof.
  unfold strip_chars. split; intros c Hc.
  - apply (lstrip_chars_head p l).
    eapply prefix_head; [apply rstrip_chars_prefix|exact Hc].
  - eapply rstrip_chars_last, Hc.
Qed.

Lemma strip_chars_sublist (p : ascii → bool) (l : chars) :
  strip_chars p l `sublist_of` l.
Proof.
  unfold strip_chars.
  transitivity (lstrip_chars p l).
  - destruct (rstrip_chars_prefix p (lstrip_chars p l)) as [k Hk].
    rewrite Hk at 2. apply sublist_inserts_r. reflexivity.
  - destruct (lstrip_chars_suffix p l) as [k Hk].
    rewrite Hk at 2. apply sublist_inserts_l. reflexivity.
Qed.

Lemma to_of_chars (l : chars) : to_chars (of_chars l) = l.
Proof. apply list_ascii_of_string_of_list_ascii. Qed.

Lemma line_text_trimmed (line : Line) :
  trimmed is_space (to_chars (line_text line)).
Proof.
  unfold line_text, py_strip. rewrite to_of_chars. apply strip_chars_trimmed.
Qed.

(** ** What the scan of the pages accepts *)

Lemma orb_false_l_r (a b : bool) : a || b = false → a = false ∧ b = false.
Proof. destruct a, b; auto. Qed.

Lemma discarded_false (text : string) :
  discarded text = false →
  (2 ≤ py_len text)%nat ∧ (2 ≤ word_count_of text ≤ 15)%nat ∧
  existsb (λ pattern, String.eqb pattern (py_strip (py_lower text)))
          skip_patterns = false.
Proof.
  unfold discarded. cbv zeta. intros H.
  repeat (apply orb_false_l_r in H as [H ?]).
  repeat match goal with
         | Hx : (_ <? _)%nat = false |- _ => apply Nat.ltb_ge in Hx
         end.
  auto.
Qed.

Lemma min_threshold_bounds (s : Signals) :
  (6 ≤ min_threshold s)%Z ∧
  (is_larger s = false ∨ (10 < word_count s)%nat → min_threshold s = 10%Z).
Proof.
  unfold min_threshold. split.
  - destruct (_ || negb _); [lia|].
    destruct (_ || _ || _); [lia|].
    destruct (_ && _); [lia|]. destruct (_ && _); lia.
  - intros [->|H].
    + rewrite orb_true_r. reflexivity.
    + replace (10 <? word_count s)%nat with true
        by (symmetry; apply Nat.ltb_lt, H).
      reflexivity.
Qed.

Lemma heading_line_accepted (style_profile : StyleProfile) (page : Page)
    (page_num : nat) (previous_block : option Block) (block : Block)
    (line : Line) (c : HeadingCandidate) :
  heading_line style_profile page page_num previous_block block line
    = Ok (Some c) →
  accepted_candidate c.
Proof.
  unfold heading_line.
  destruct (line_spans line) as [|span rest]; [discriminate|].
  destruct (discarded (line_text line)) eqn:Ed; [discriminate|].
  intros (s & Hs & H)%bind_Ok.
  destruct (min_threshold s <=? score_of s)%Z eqn:Et; [|discriminate].
  injection H as <-. apply Z.leb_le in Et.
  unfold signals in Hs. apply bind_Ok in Hs as (ratio & _ & [= <-]).
  destruct (discarded_false _ Ed) as (_ & Hwc & _).
  unfold accepted_candidate. cbn [h_text h_score h_size_ratio h_is_numbered
    h_is_chapter h_is_appendix make_candidate is_numbered is_chapter
    is_appendix size_ratio].
  match type of Et with (min_threshold ?s ≤ _)%Z =>
    pose proof (min_threshold_bounds s) as [H6 H10] end.
  cbn [is_larger word_count] in H10.
  split; [apply line_text_trimmed|].
  repeat split; try tauto; try lia.
  intros Hor. rewrite <- H10; [exact Et|].
  destruct Hor as [Hr|Hw]; [left; apply Qc_ltb_false, Hr|right; exact Hw].
Qed.

Lemma heading_blocks_accepted (style_profile : StyleProfile) (page : Page)
    (page_num : nat) (bs : list Block) :
  ∀ (previous_block : option Block) (l : list HeadingCandidate),
    heading_blocks style_profile page page_num previous_block bs = Ok l →
    Forall accepted_candidate l.
Proof.
  induction bs as [|block bs IH]; intros prev l; cbn [heading_blocks].
  - intros [= <-]. constructor.
  - destruct (in_margin page block); [apply IH|].
    intros (found & Hfound & H)%bind_Ok.
    apply bind_Ok in H as (rest & Hrest & [= <-]).
    apply Forall_app. split; [|eapply IH; eassumption].
    apply Forall_forall. intros c (o & Ho & Hc)%list_elem_of_omap.
    cbn in Hc. subst o.
    apply mapM_Ok in Hfound.
    apply list_elem_of_lookup in Ho as [i Hi].
    destruct (Forall2_lookup_r _ _ _ _ _ Hfound Hi) as (line & _ & Hline).
    eapply heading_line_accepted, Hline.
Qed.

Lemma heading_pages_accepted (style_profile : StyleProfile) (ps : list Page) :
  ∀ (page_num : nat) (l : list HeadingCandidate),
    heading_pages style_profile page_num ps = Ok l →
    Forall (λ c, (page_num ≤ h_page c < page_num + List.length ps)%nat ∧
                 accepted_candidate c) l.
Proof.
  induction ps as [|page ps IH]; intros n l; cbn [heading_pages].
  - intros [= <-]. constructor.
  - intros (here & Hhere & H)%bind_Ok.
    apply bind_Ok in H as (rest & Hrest & [= <-]).
    apply Forall_app. split.
    + pose proof (heading_blocks_page _ _ _ _ _ _ Hhere) as Hp.
      pose proof (heading_blocks_accepted _ _ _ _ _ _ Hhere) as Ha.
      rewrite Forall_forall in *. intros c Hc.
      rewrite (Hp c Hc). cbn [List.length]. split; [lia|auto].
    + apply IH in Hrest. eapply Forall_impl; [exact Hrest|].
      cbn [List.length]. intros c [Hc Ha]. split; [lia|exact Ha].
Qed.

Lemma heading_candidates_accepted_all (doc : Document)
    (style_profile : StyleProfile) (cands : list HeadingCandidate) :
  heading_candidates doc style_profile = Ok cands →
  Forall (λ c, (1 ≤ h_page c < List.length (pages doc))%nat ∧
               accepted_candidate c) cands.
Proof.
  unfold heading_candidates. intros H.
  apply heading_pages_accepted in H.
  eapply Forall_impl; [exact H|]. cbn beta. intros c [Hp Ha].
  split; [|exact Ha]. rewrite length_drop in Hp. lia.
Qed.

(** X10: what every heading candidate satisfies.  A candidate lies on a page
    from index 1 up to the last page; its text has no white space around it,
    passed the non-heading filter and has 2 to 15 words; its score is at least 6, and at least 10 when its
    font is not more than 1.1 times the body size or it has more than 10
    words; and its numbered, chapter and appendix flags are those of its
    text. *)
Theorem heading_candidates_are_accepted (doc : Document)
    (style_profile : StyleProfile) (cands : list HeadingCandidate) :
  heading_candidates doc style_profile = Ok cands →
  Forall (λ c, (1 ≤ h_page c < List.length (pages doc))%nat ∧
               accepted_candidate c) cands.
Proof. apply heading_candidates_accepted_all. Qed.

Lemma heading_candidates_are_accepted_witness :
  ∃ style_profile cands,
    _profile_document_styles sample_doc = Some style_profile ∧
    heading_candidates sample_doc style_profile = Ok cands ∧
    List.length cands = 5%nat ∧
    Forall (λ c, (1 ≤ h_page c < List.length (pages sample_doc))%nat ∧
                 accepted_candidate c) cands.
Proof.
  destruct (_profile_document_styles sample_doc) as [sp|] eqn:Esp;
    [|vm_compute in Esp; discriminate].
  destruct (heading_candidates sample_doc sp) as [cands|e] eqn:Ec.
  - exists sp, cands. split; [reflexivity|]. split; [exact Ec|].
    split; [|apply (heading_candidates_are_accepted sample_doc sp cands Ec)].
    vm_compute in Esp. injection Esp as <-.
    vm_compute in Ec. injection Ec as <-. reflexivity.
  - vm_compute in Esp. injection Esp as <-. vm_compute in Ec. discriminate.
Defined.

(** ** The cleanup of an unnumbered heading *)

Lemma collapse_ws_chars_spaces (l : chars) :
  ∀ in_run, Forall (λ c, is_space c = true → c = " "%char)
                   (collapse_ws_chars in_run l).
Proof.
  induction l as [|x l IH]; intros in_run; cbn [collapse_ws_chars];
    [constructor|].
  destruct (is_space x) eqn:E.
  - destruct in_run; [apply IH|]. constructor; [reflexivity|apply IH].
  - constructor; [congruence|apply IH].
Qed.

Lemma Forall_filter_bool {A} (P : A → Prop) (f : A → bool) (l : list A) :
  Forall P l → Forall P (List.filter f l).
Proof.
  rewrite !Forall_forall. intros H x [Hx _]%elem_of_filter_bool. auto.
Qed.

Lemma Forall_filter_true {A} (f : A → bool) (l : list A) :
  Forall (λ x, f x = true) (List.filter f l).
Proof.
  rewrite Forall_forall. intros x [_ Hx]%elem_of_filter_bool. exact Hx.
Qed.

Lemma Forall_sublist_of {A} (P : A → Prop) (l1 l2 : list A) :
  l1 `sublist_of` l2 → Forall P l2 → Forall P l1.
Proof.
  rewrite !Forall_forall. intros Hs H x Hx.
  eapply H, elem_of_sublist; eassumption.
Qed.

Lemma clean_heading_text_edges (text : string) :
  trimmed (λ c, is_space c || one_of "._" c)
          (to_chars (clean_heading_text text)).
Proof.
  unfold clean_heading_text, strip_punct. cbv zeta. rewrite to_of_chars.
  apply strip_chars_trimmed.
Qed.

(** X11: the shape of a cleaned heading text.  Whatever the raw text is, the
    cleaned text neither starts nor ends with white space, a dot or an
    underscore; it has no control character; and its only white space
    characters are spaces. *)
Theorem clean_heading_text_shape (text : string) :
  let cs := to_chars (clean_heading_text text) in
  trimmed (λ c, is_space c || one_of "._" c) cs ∧
  Forall (λ c, is_control c = false ∧ (is_space c = true → c = " "%char)) cs.
Proof.
  cbv zeta. split; [apply clean_heading_text_edges|].
  unfold clean_heading_text, strip_punct, remove_control, collapse_ws.
  rewrite !to_of_chars.
  eapply Forall_sublist_of; [apply strip_chars_sublist|].
  apply Forall_and. split.
  - eapply Forall_impl; [apply Forall_filter_true|].
    cbn beta. intros c Hc. apply negb_true_iff, Hc.
  - apply Forall_filter_bool, collapse_ws_chars_spaces.
Qed.

(** ** Texts that never become headings *)

Lemma is_space_lower_char (c : ascii) : is_space (lower_char c) = is_space c.
Proof. by_char c. Qed.

Lemma split_ws_aux_lower (l : chars) :
  ∀ cur, List.length (split_ws_aux (map lower_char cur) (map lower_char l))
         = List.length (split_ws_aux cur l).
Proof.
  induction l as [|c l IH]; intros cur; cbn [map split_ws_aux].
  - destruct cur; reflexivity.
  - rewrite is_space_lower_char. destruct (is_space c).
    + destruct cur; cbn [map List.length]; [|f_equal]; apply (IH []).
    + apply (IH (c :: cur)).
Qed.

Lemma word_count_of_lower (text : string) :
  word_count_of (py_lower text) = word_count_of text.
Proof.
  unfold word_count_of, py_split, py_lower.
  rewrite !length_map, to_of_chars. apply (split_ws_aux_lower _ []).
Qed.

Lemma discarded_toc_words (text : string) :
  py_lower text ∈ toc_words → discarded text = true.
Proof.
  unfold toc_words. rewrite !elem_of_cons, elem_of_nil.
  intros [H|[H|[H|[]]]].
  - unfold discarded. cbv zeta.
    assert (existsb (λ pattern, String.eqb pattern (py_strip (py_lower text)))
                    skip_patterns = true) as ->
      by (rewrite H; vm_compute; reflexivity).
    rewrite orb_true_r. reflexivity.
  - apply discarded_short. rewrite <- word_count_of_lower, H.
    vm_compute. lia.
  - apply discarded_short. rewrite <- word_count_of_lower, H.
    vm_compute. lia.
Qed.

Lemma keep_clean_text_true (doc_title clean_text : string) :
  keep_clean_text doc_title clean_text = true →
  (2 < py_len clean_text)%nat ∧ py_lower clean_text ∉ toc_words.
Proof.
  unfold keep_clean_text.
  intros [[Hlen _]%andb_prop Htoc%negb_true_iff]%andb_prop.
  split; [apply Nat.ltb_lt, Hlen|].
  intros Hin. apply not_true_iff_false in Htoc. apply Htoc.
  apply existsb_exists. exists (py_lower clean_text).
  split; [apply list_elem_of_In, Hin|apply String.eqb_refl].
Qed.

(** ** The entries of the returned outline *)

Lemma by_page_text_iff (a b : OutlineEntry) :
  by_page_text a b = true ↔ page_text_le a b.
Proof.
  unfold by_page_text, page_text_le.
  rewrite orb_true_iff, andb_true_iff, Nat.ltb_lt, Nat.eqb_eq. reflexivity.
Qed.

Lemma string_lt_trans (s1 : string) :
  ∀ s2 s3, String.compare s1 s2 = Lt → String.compare s2 s3 = Lt →
           String.compare s1 s3 = Lt.
Proof.
  induction s1 as [|c1 s1 IH]; intros [|c2 s2] [|c3 s3]; cbn;
    try discriminate; try reflexivity.
  destruct (Ascii.compare c1 c2) eqn:E12; try discriminate;
    destruct (Ascii.compare c2 c3) eqn:E23; try discriminate.
  - apply Ascii.compare_eq_iff in E12, E23. subst c2 c3.
    replace (Ascii.compare c1 c1) with Eq
      by (symmetry; apply N.compare_refl).
    apply IH.
  - apply Ascii.compare_eq_iff in E12. subst c2. rewrite E23. reflexivity.
  - apply Ascii.compare_eq_iff in E23. subst c3. rewrite E12. reflexivity.
  - replace (Ascii.compare c1 c3) with Lt; [reflexivity|].
    symmetry. unfold Ascii.compare in *.
    rewrite N.compare_lt_iff in *. lia.
Qed.

Lemma string_leb_trans (s1 s2 s3 : string) :
  String.leb s1 s2 = true → String.leb s2 s3 = true → String.leb s1 s3 = true.
Proof.
  unfold String.leb.
  destruct (String.compare s1 s2) eqn:E12; [| |discriminate]; intros _;
    destruct (String.compare s2 s3) eqn:E23; try discriminate; intros _.
  - apply String.compare_eq_iff in E12 as ->. rewrite E23. reflexivity.
  - apply String.compare_eq_iff in E12 as ->. rewrite E23. reflexivity.
  - apply String.compare_eq_iff in E23 as <-. rewrite E12. reflexivity.
  - rewrite (string_lt_trans _ _ _ E12 E23). reflexivity.
Qed.

Lemma by_page_text_total (a b : OutlineEntry) :
  by_page_text a b = true ∨ by_page_text b a = true.
Proof.
  rewrite !by_page_text_iff. unfold page_text_le.
  destruct (String.leb_total (o_text a) (o_text b));
    destruct (lt_eq_lt_dec (o_page a) (o_page b)) as [[?|?]|?]; auto.
Qed.

Lemma page_text_le_trans (a b c : OutlineEntry) :
  page_text_le a b → page_text_le b c → page_text_le a c.
Proof.
  unfold page_text_le. intros [H1|[H1 T1]] [H2|[H2 T2]];
    [left; lia..|].
  right. split; [lia|]. eapply string_leb_trans; eassumption.
Qed.

Lemma StronglySorted_sublist {A} (R : relation A) (l1 l2 : list A) :
  l1 `sublist_of` l2 → StronglySorted R l2 → StronglySorted R l1.
Proof.
  induction 1 as [|x l1 l2 Hs IH|x l1 l2 Hs IH]; intros H2.
  - constructor.
  - apply StronglySorted_inv in H2 as [H2 Hx].
    constructor; [auto|]. eapply Forall_sublist_of; eassumption.
  - apply StronglySorted_inv in H2 as [H2 _]. auto.
Qed.

Lemma sort_by_page_text_sorted (raw : list OutlineEntry) :
  StronglySorted page_text_le (sort_by by_page_text raw).
Proof.
  apply Sorted_StronglySorted; [intros a b c; apply page_text_le_trans|].
  pose proof (sort_by_Sorted by_page_text by_page_text_total raw) as H.
  induction H as [|x l Hl IH Hx]; constructor; [exact IH|].
  destruct Hx as [|y l Hy]; constructor. apply by_page_text_iff, Hy.
Qed.

Lemma finish_outline_sorted (raw : list OutlineEntry) :
  StronglySorted page_text_le (finish_outline raw).
Proof.
  unfold finish_outline.
  eapply StronglySorted_sublist;
    [apply remove_duplicates_sublist|apply sort_by_page_text_sorted].
Qed.

(** A sorted list is left as it is by the sort. *)
Lemma sort_by_sorted_id {A} (le : A → A → bool) (l : list A) :
  Sorted (le_rel le) l → sort_by le l = l.
Proof.
  induction 1 as [|x l Hl IH Hx]; cbn [sort_by]; [reflexivity|].
  rewrite IH. destruct Hx as [|y l Hy]; cbn [insert_sorted]; [reflexivity|].
  unfold le_rel in Hy. rewrite Hy. reflexivity.
Qed.

Lemma remove_duplicates_id (l : list OutlineEntry) :
  ∀ seen : gset (string * nat),
    NoDup (map entry_key l) →
    (∀ x, x ∈ l → entry_key x ∉ seen) →
    remove_duplicates seen l = l.
Proof.
  induction l as [|x l IH]; intros seen Hnd Hseen; cbn [remove_duplicates];
    [reflexivity|].
  cbn [map] in Hnd. apply NoDup_cons in Hnd as [Hx Hnd].
  cbv zeta. rewrite bool_decide_eq_false_2 by (apply Hseen; left).
  f_equal. apply IH; [exact Hnd|].
  intros y Hy [Hin%elem_of_singleton|Hin]%elem_of_union.
  - apply Hx. rewrite <- Hin. apply elem_of_map. eauto.
  - apply (Hseen y); [right; exact Hy|exact Hin].
Qed.

(** X15: the final sort and the removal of duplicates give a normal form:
    applied to an outline they have already produced, they change
    nothing. *)
Theorem finish_outline_idempotent (raw : list OutlineEntry) :
  finish_outline (finish_outline raw) = finish_outline raw.
Proof.
  unfold finish_outline at 1.
  rewrite sort_by_sorted_id.
  - apply remove_duplicates_id.
    + apply remove_duplicates_NoDup.
    + intros x _. apply not_elem_of_empty.
  - pose proof (StronglySorted_Sorted (finish_outline_sorted raw)) as H.
    induction H as [|x l Hl IH Hx]; constructor; [exact IH|].
    destruct Hx as [|y l Hy]; constructor. apply by_page_text_iff, Hy.
Qed.

Section OutlineEntries.
Variable set_order : list Qc → list Qc.

(** Every entry of the outline comes from a heading candidate: it has the
    page of the candidate and either its text or its cleaned text. *)
Lemma build_outline_entry (style_profile : StyleProfile) (doc_title : string)
    (cands : list HeadingCandidate) (out : list OutlineEntry) :
  build_outline set_order style_profile doc_title cands = Ok out →
  ∀ e, e ∈ out →
    ∃ h, h ∈ cands ∧ o_page e = h_page h ∧
      (o_text e = h_text h ∨
       (o_text e = clean_heading_text (h_text h) ∧
        keep_clean_text doc_title (o_text e) = true)).
Proof.
  unfold build_outline. destruct cands as [|c0 cs] eqn:E.
  - intros [= <-] e He. inversion He.
  - rewrite <- E. clear E c0 cs.
    intros (leveled & Hlev & [= <-])%bind_Ok e He.
    apply finish_outline_elem in He.
    apply elem_of_app in He as [He|He]; [|apply elem_of_app in He as [He|He]].
    + apply elem_of_map in He as (h & -> & Hh).
      apply elem_of_sort_by, elem_of_filter_bool in Hh as [Hh _]. eauto.
    + apply elem_of_map in He as (h & -> & Hh).
      apply elem_of_sort_by, elem_of_filter_bool in Hh as [Hh _]. eauto.
    + unfold unnumbered_entries in Hlev.
      destruct (List.filter is_unnumbered cands) as [|u0 us] eqn:Eu.
      * injection Hlev as <-. inversion He.
      * rewrite <- Eu in Hlev.
        apply bind_Ok in Hlev as (m & _ & [= <-]).
        apply list_elem_of_omap in He as (h & Hh & Hentry).
        apply elem_of_sort_by, elem_of_filter_bool in Hh as [Hh _].
        exists h. split; [exact Hh|].
        unfold unnumbered_entry in Hentry.
        destruct (level_for m h); [|discriminate].
        destruct (keep_clean_text _ _) eqn:Ek; [|discriminate].
        injection Hentry as <-. cbn. auto.
Qed.

Lemma outline_entry_source (pdf : OpenResult) (e : OutlineEntry) :
  e ∈ outline (fst (extract_document_structure set_order pdf)) →
  ∃ doc h,
    pdf = Opened doc ∧
    (1 ≤ h_page h < List.length (pages doc))%nat ∧ accepted_candidate h ∧
    o_page e = h_page h ∧
    (o_text e = h_text h ∨
     ∃ doc_title, o_text e = clean_heading_text (h_text h) ∧
                  keep_clean_text doc_title (o_text e) = true).
Proof.
  destruct (result_outline set_order pdf) as [->|(doc & sp & -> & _ & H)];
    [intros He; inversion He|].
  intros He. unfold _extract_headings in H.
  apply bind_Ok in H as (cands & Hc & Hb).
  destruct (build_outline_entry _ _ _ _ Hb e He) as (h & Hh & Hp & Ht).
  pose proof (heading_candidates_accepted_all doc sp cands Hc) as Hall.
  rewrite Forall_forall in Hall. destruct (Hall h Hh) as [Hpage Hacc].
  exists doc, h. split; [reflexivity|]. split; [exact Hpage|].
  split; [exact Hacc|]. split; [exact Hp|].
  destruct Ht as [Ht|[Ht Hk]]; [left; exact Ht|right; eauto].
Qed.

Lemma outline_finished (pdf : OpenResult) :
  ∃ raw, outline (fst (extract_document_structure set_order pdf))
         = finish_outline raw.
Proof.
  destruct (result_outline set_order pdf) as [->|(doc & sp & _ & _ & H)];
    [exists []; reflexivity|].
  unfold _extract_headings in H.
  apply bind_Ok in H as (cands & _ & H).
  unfold build_outline in H. destruct cands as [|c0 cs] eqn:E.
  - injection H as <-. exists []. reflexivity.
  - rewrite <- E in H. apply bind_Ok in H as (leveled & _ & [= <-]).
    eexists. reflexivity.
Qed.

(** X12: the pages of the outline lie inside the document.  Every entry of
    the outline of a document has a page index below the number of pages, so
    a document of one page always has an empty outline. *)
Theorem outline_pages_within_document (doc : Document) :
  let out := outline (fst (extract_document_structure set_order (Opened doc))) in
  Forall (λ e, (o_page e < List.length (pages doc))%nat) out ∧
  ((List.length (pages doc) ≤ 1)%nat → out = []).
Proof.
  cbv zeta.
  assert (Forall (λ e, (1 ≤ o_page e < List.length (pages doc))%nat)
            (outline (fst (extract_document_structure set_order (Opened doc)))))
    as Hall.
  { apply Forall_forall. intros e He.
    destruct (outline_entry_source _ e He)
      as (doc' & h & [= <-] & Hp & _ & -> & _).
    exact Hp. }
  split.
  - eapply Forall_impl; [exact Hall|]. cbn beta. lia.
  - intros Hlen. destruct (outline _) as [|e out]; [reflexivity|].
    apply Forall_cons in Hall as [He _]. lia.
Qed.

(** X13: the texts of the outline.  Every entry of a returned outline has a
    text of at least 2 characters, without white space at its start or end,
    that is not one of the table-of-contents words "table of contents",
    "contents" and "index" in any letter case. *)
Theorem outline_texts_are_headings (pdf : OpenResult) :
  Forall (λ e, (2 ≤ py_len (o_text e))%nat ∧
               trimmed is_space (to_chars (o_text e)) ∧
               py_lower (o_text e) ∉ toc_words)
         (outline (fst (extract_document_structure set_order pdf))).
Proof.
  apply Forall_forall. intros e He.
  destruct (outline_entry_source _ e He)
    as (doc & h & _ & _ & Hacc & _ & [Ht|(doc_title & Ht & Hk)]).
  - rewrite Ht. destruct Hacc as (Htrim & Hd & _).
    destruct (discarded_false _ Hd) as (Hlen & _ & _).
    split; [exact Hlen|]. split; [exact Htrim|].
    intros Hin. apply discarded_toc_words in Hin. congruence.
  - apply keep_clean_text_true in Hk as [Hlen Htoc].
    split; [lia|]. split; [|exact Htoc].
    rewrite Ht. destruct (clean_heading_text_edges (h_text h)) as [Hh Hl].
    split; intros c Hc.
    + apply Hh in Hc. apply orb_false_l_r in Hc as [Hc _]. exact Hc.
    + apply Hl in Hc. apply orb_false_l_r in Hc as [Hc _]. exact Hc.
Qed.

(** X14: the order of the outline.  Every returned outline is sorted by page
    and, within a page, by text in the order of the character codes: of two
    entries, the earlier one has the smaller page, or the same page and a
    text that is not greater. *)
Theorem outline_is_sorted (pdf : OpenResult) :
  StronglySorted page_text_le
    (outline (fst (extract_document_structure set_order pdf))).
Proof.
  destruct (outline_finished pdf) as [raw ->]. apply finish_outline_sorted.
Qed.

End OutlineEntries.

(** ** The levels of the size clusters *)

Lemma dict_set_entries {V} (k : Qc) (v : V) (m : list (Qc * V)) (x : Qc)
    (y : V) :
  (x, y) ∈ dict_set k v m → (x, y) ∈ m ∨ (x = k ∧ y = v).
Proof.
  induction m as [|[k' v'] m IH]; cbn [dict_set].
  - intros [= -> ->]%list_elem_of_singleton. auto.
  - destruct (Qc_eqb k' k) eqn:E.
    + apply Qc_eqb_true in E. subst k'.
      intros [[= -> ->]|H]%elem_of_cons; [auto|].
      left. right. exact H.
    + intros [[= -> ->]|H]%elem_of_cons; [left; left|].
      apply IH in H as [H|H]; [left; right; exact H|auto].
Qed.

Lemma dict_set_NoDup {V} (k : Qc) (v : V) (m : list (Qc * V)) :
  NoDup (map fst m) → NoDup (map fst (dict_set k v m)).
Proof.
  induction m as [|[k' v'] m IH]; cbn [dict_set map fst]; intros Hnd.
  - repeat constructor. intros H. inversion H.
  - apply NoDup_cons in Hnd as [Hk Hnd].
    destruct (Qc_eqb k' k) eqn:E; cbn [map fst].
    + constructor; assumption.
    + constructor; [|auto].
      rewrite dict_set_keys. intros [->|H]; [|contradiction].
      assert (Qc_eqb k k = true) by (apply Qc_eqb_true; reflexivity).
      congruence.
Qed.

Lemma fold_dict_set_entries {V} (v : V) (cs : list Qc) :
  ∀ (m : list (Qc * V)) (x : Qc) (y : V),
    (x, y) ∈ fold_left (λ m c, dict_set c v m) cs m →
    (x, y) ∈ m ∨ (x ∈ cs ∧ y = v).
Proof.
  induction cs as [|c cs IH]; intros m x y; cbn [fold_left]; [auto|].
  intros [H|[H ->]]%IH.
  - apply dict_set_entries in H as [H|[-> ->]]; [auto|].
    right. split; [left|reflexivity].
  - right. split; [right; exact H|reflexivity].
Qed.

Lemma fold_dict_set_NoDup {V} (v : V) (cs : list Qc) :
  ∀ m : list (Qc * V),
    NoDup (map fst m) →
    NoDup (map fst (fold_left (λ m c, dict_set c v m) cs m)).
Proof.
  induction cs as [|c cs IH]; intros m Hnd; cbn [fold_left]; [exact Hnd|].
  apply IH, dict_set_NoDup, Hnd.
Qed.

Lemma levels_at_most_four (assigned : list Level) :
  NoDup assigned → (List.length assigned ≤ 4)%nat.
Proof.
  intros Hnd.
  assert (assigned ⊆+ [H1; H2; H3; H4]) as Hsub
    by (apply NoDup_submseteq; [exact Hnd|intros x _; apply Level_all]).
  apply submseteq_length in Hsub. exact Hsub.
Qed.


Lemma assign_step_ok (unique_sizes : list Qc)
    (st : list Level * list (Qc * Level)) (sa : Qc * SizeAnalysis) :
  levels_state_ok unique_sizes st →
  let st' := assign_step unique_sizes st sa in
  levels_state_ok unique_sizes st' ∧
  List.length (fst st')
  = Nat.min 4 (S (List.length (fst st))).
Proof.
  destruct st as [assigned m], sa as [size a].
  intros (Hnd & Hkeys & Hval). cbn [fst snd] in Hnd, Hkeys, Hval.
  cbv zeta. unfold assign_step.
  pose proof (levels_at_most_four assigned Hnd) as Hle.
  destruct (pick_level assigned a) as [level|] eqn:Ep.
  - pose proof (pick_level_unused _ _ _ Ep) as Hfresh.
    assert (List.length (level :: assigned) ≤ 4)%nat as Hle'
      by (apply levels_at_most_four; constructor; assumption).
    cbn [List.length] in Hle'.
    split; [|cbn [fst List.length]; lia].
    split; [constructor; assumption|]. cbn [fst snd].
    split; [apply fold_dict_set_NoDup, Hkeys|].
    intros x y [H|[H ->]]%fold_dict_set_entries.
    + destruct (Hval x y H) as [Hy Hx]. split; [right; exact Hy|exact Hx].
    + split; [left|].
      unfold similar_sizes in H. apply elem_of_filter_bool in H as [H _].
      exact H.
  - split; [split; [exact Hnd|split; [exact Hkeys|exact Hval]]|]. cbn [fst].
    destruct (decide (List.length assigned = 4%nat)) as [->|Hne];
      [reflexivity|].
    destruct (pick_level_some assigned a Hnd) as [level Hl]; [lia|].
    congruence.
Qed.

Lemma assign_fold_ok (unique_sizes : list Qc)
    (todo : list (Qc * SizeAnalysis)) :
  ∀ st : list Level * list (Qc * Level),
    levels_state_ok unique_sizes st →
    let st' := fold_left (assign_step unique_sizes) todo st in
    levels_state_ok unique_sizes st' ∧
    List.length (fst st')
    = Nat.min 4 (List.length (fst st) + List.length todo).
Proof.
  induction todo as [|sa todo IH]; intros st Hok; cbn [fold_left]; cbv zeta.
  - split; [exact Hok|].
    destruct Hok as (Hnd & _). apply levels_at_most_four in Hnd.
    cbn [List.length]. lia.
  - destruct (assign_step_ok unique_sizes st sa Hok) as [Hok' Hlen].
    destruct (IH _ Hok') as [Hok'' Hlen'].
    split; [exact Hok''|]. rewrite Hlen', Hlen. cbn [List.length]. lia.
Qed.

(** X16: how the levels are handed out to the size clusters.  The levels
    given to clusters are pairwise different; the first four clusters in
    rank order receive one each and every later cluster receives none; and
    the size-to-level map lists each size once, holds only sizes of the
    candidates, and only levels that were handed out. *)
Theorem cluster_levels_are_distinct (unique_sizes : list Qc)
    (ranked : list (Qc * SizeAnalysis)) :
  let st := assign_levels unique_sizes ranked in
  NoDup (fst st) ∧
  List.length (fst st) = Nat.min 4 (List.length ranked) ∧
  NoDup (map fst (snd st)) ∧
  ∀ size level, (size, level) ∈ snd st →
                level ∈ fst st ∧ size ∈ unique_sizes.
Proof.
  cbv zeta. unfold assign_levels.
  destruct (assign_fold_ok unique_sizes ranked ([], []))
    as [(Hnd & Hkeys & Hval) Hlen].
  { split; [constructor|]. split; [constructor|].
    intros x y H. inversion H. }
  cbn [fst List.length] in Hlen. auto.
Qed.

(** ** The driver *)

Section DriverFacts.
Variable set_order : list Qc → list Qc.

Lemma failure_title (pdf : OpenResult) (msg : string) :
  failure set_order pdf msg →
  title (fst (extract_document_structure set_order pdf)) = "Error: " +:+ msg.
Proof.
  intros Hf. destruct Hf as [e|doc Hp|doc Hp Hs|doc sp e Hp Hsp He].
  - reflexivity.
  - unfold extract_document_structure. rewrite Hp. reflexivity.
  - unfold extract_document_structure.
    destruct (pages doc) as [|p ps] eqn:E; [congruence|]. cbn.
    apply profile_none_iff in Hs. rewrite Hs. reflexivity.
  - unfold extract_document_structure.
    destruct (pages doc) as [|p ps] eqn:E; [congruence|]. cbn.
    rewrite Hsp, He. reflexivity.
Qed.

Lemma dumps_app (t1 t2 : list Event) : dumps (t1 ++ t2) = dumps t1 ++ dumps t2.
Proof. apply omap_app. Qed.

Lemma dumps_flat_map (pdf_files : list PdfFile) :
  dumps (flat_map (process_pdf set_order) pdf_files)
  = map (λ f, ("/app/output/" +:+ pdf_stem f +:+ ".json",
               fst (extract_document_structure set_order (pdf_contents f))))
        pdf_files.
Proof.
  induction pdf_files as [|f fs IH]; [reflexivity|].
  cbn [flat_map map]. rewrite dumps_app, IH.
  unfold process_pdf at 1. cbv zeta.
  destruct (py_in _ _); reflexivity.
Qed.

(** X17: what the driver writes and reports.  For the PDF files of the input
    directory, in their order, the driver writes one JSON file each, named
    after the file's stem, holding the record that
    [extract_document_structure] returns for it; and every file whose
    processing fails is reported as finished with an error. *)
Theorem driver_writes_and_reports (pdf_files : list PdfFile) :
  dumps (process_pdfs set_order pdf_files)
  = map (λ f, ("/app/output/" +:+ pdf_stem f +:+ ".json",
               fst (extract_document_structure set_order (pdf_contents f))))
        pdf_files ∧
  ∀ f msg, f ∈ pdf_files → failure set_order (pdf_contents f) msg →
    Print ("--> Finished " +:+ pdf_name f +:+ " with an error.")
    ∈ process_pdfs set_order pdf_files.
Proof.
  split.
  - unfold process_pdfs. rewrite !dumps_app, dumps_flat_map.
    cbn. rewrite app_nil_r. reflexivity.
  - intros f msg Hf Hfail. unfold process_pdfs.
    apply elem_of_app. right. apply elem_of_app. left.
    apply list_elem_of_In, in_flat_map. exists f.
    split; [apply list_elem_of_In, Hf|].
    unfold process_pdf. cbv zeta.
    rewrite (failure_title _ _ Hfail).
    right. right. left. reflexivity.
Qed.

End DriverFacts.

(** ** The title of a first page without a large line *)

Lemma mapM_all_None {A B} (f : A → exc (option B)) (l : list A) :
  Forall (λ x, f x = Ok None) l →
  ∃ bs, mapM f l = Ok bs ∧ omap id bs = [].
Proof.
  induction 1 as [|x l Hx _ (bs & Hbs & Hnone)].
  - exists []. split; reflexivity.
  - exists (None :: bs). rewrite mapM_cons, Hx. cbn. rewrite Hbs.
    split; [reflexivity|exact Hnone].
Qed.

Lemma max_size_spec (ls : list TextLine) :
  ∀ m0,
    let m := fold_left (λ m l, if Qc_ltb m (tl_size l) then tl_size l else m)
                       ls m0 in
    (m = m0 ∨ m ∈ map tl_size ls) ∧ (m0 ≤ m)%Qc ∧
    ∀ l, l ∈ ls → (tl_size l ≤ m)%Qc.
Proof.
  induction ls as [|x ls IH]; intros m0; cbn [fold_left]; cbv zeta.
  - split; [left; reflexivity|]. split; [apply Qcle_refl|].
    intros l Hl. inversion Hl.
  - destruct (Qc_ltb m0 (tl_size x)) eqn:E.
    + destruct (IH (tl_size x)) as (Hin & Hge & Hall). cbv zeta in *.
      apply Qc_ltb_true in E. split; [|split].
      * right. cbn [map]. destruct Hin as [->|Hin]; [left|right; exact Hin].
      * eapply Qcle_trans; [apply Qclt_le_weak, E|exact Hge].
      * intros l [->|Hl]%elem_of_cons; [exact Hge|apply Hall, Hl].
    + destruct (IH m0) as (Hin & Hge & Hall). cbv zeta in *.
      apply Qc_ltb_false in E. split; [|split].
      * destruct Hin as [->|Hin]; [left; reflexivity|].
        right. cbn [map]. right. exact Hin.
      * exact Hge.
      * intros l [->|Hl]%elem_of_cons; [|apply Hall, Hl].
        eapply Qcle_trans; [exact E|exact Hge].
Qed.

(** X9: the title of a first page without a large line.  When the top half
    of the first page has text lines but none of at least 1.3 times the body
    size, the title is the text of one of these lines: a line of the largest
    font size among them and, of the lines of that size, one that is highest
    on the page. *)
Theorem title_without_large_line (doc : Document) (style_profile : StyleProfile)
    (page : Page) (rest : list Page) :
  pages doc = page :: rest →
  title_text_lines page ≠ [] →
  Forall (λ l, (tl_size l < body_size style_profile * dec 13 10)%Qc)
         (title_text_lines page) →
  ∃ best,
    best ∈ title_text_lines page ∧
    _extract_title doc style_profile = tl_text best ∧
    ∀ l, l ∈ title_text_lines page →
         (tl_size l ≤ tl_size best)%Qc ∧
         (tl_size l = tl_size best → (tl_y best ≤ tl_y l)%Qc).
Proof.
  intros Hp Hne Hsmall.
  unfold _extract_title, extract_title_body. rewrite Hp.
  destruct (title_text_lines page) as [|t0 ts] eqn:Et; [congruence|].
  rewrite <- Et in *. clear Hne. cbv zeta.
  set (sorted := sort_by (λ a b, Qc_leb (tl_y a) (tl_y b))
                         (title_text_lines page)).
  assert (∀ l, l ∈ sorted ↔ l ∈ title_text_lines page) as Hmem
    by (intros l; apply elem_of_sort_by).
  destruct (mapM_all_None (title_candidate page (body_size style_profile))
              sorted) as (bs & -> & Hnone).
  { apply Forall_forall. intros l Hl. apply Hmem in Hl.
    rewrite Forall_forall in Hsmall. unfold title_candidate.
    replace (Qc_ltb (tl_size l) (body_size style_profile * dec 13 10))
      with true by (symmetry; apply Qc_ltb_true, Hsmall, Hl).
    reflexivity. }
  cbn [mbind exc_bind]. rewrite Hnone. cbn [sort_by].
  destruct sorted as [|l0 ls] eqn:Es.
  { exfalso. assert (t0 ∈ title_text_lines page) as H0
      by (rewrite Et; left).
    apply Hmem in H0. inversion H0. }
  destruct (max_size_spec ls (tl_size l0)) as (Hin & _ & Hall).
  cbv zeta in Hin, Hall.
  set (max_size := fold_left _ ls (tl_size l0)) in *.
  assert (∀ l, l ∈ l0 :: ls → (tl_size l ≤ max_size)%Qc) as Hmax.
  { intros l [->|Hl]%elem_of_cons; [|apply Hall, Hl].
    destruct (max_size_spec ls (tl_size l0)) as (_ & Hge & _). exact Hge. }
  assert (∃ l, l ∈ l0 :: ls ∧ tl_size l = max_size) as (lm & Hlm & Hsize).
  { destruct Hin as [Hin|Hin].
    - exists l0. split; [left|congruence].
    - apply elem_of_map in Hin as (l & Hl & Hin).
      exists l. split; [right; exact Hin|congruence]. }
  destruct (List.filter (λ l, Qc_eqb (tl_size l) max_size) (l0 :: ls))
    as [|b bs'] eqn:Ef.
  { exfalso. assert (lm ∈ List.filter (λ l, Qc_eqb (tl_size l) max_size)
                                      (l0 :: ls)) as H
      by (apply elem_of_filter_bool; split;
          [exact Hlm|apply Qc_eqb_true, Hsize]).
    rewrite Ef in H. inversion H. }
  destruct (py_min_by_spec tl_y bs' b) as [Hbest Hmin]. cbv zeta in Hbest, Hmin.
  set (best := py_min_by _ b bs') in *.
  assert (∀ l, l ∈ b :: bs' ↔ l ∈ l0 :: ls ∧ tl_size l = max_size) as Hlargest.
  { intros l. rewrite <- Ef, elem_of_filter_bool, Qc_eqb_true. reflexivity. }
  apply Hlargest in Hbest as [Hbest Hbsize].
  exists best. split; [apply Hmem, Hbest|]. split; [reflexivity|].
  intros l Hl. apply Hmem in Hl. split.
  - rewrite Hbsize. apply Hmax, Hl.
  - intros Heq. apply Hmin, Hlargest. split; [exact Hl|congruence].
Qed.

Lemma title_without_large_line_witness :
  _extract_title small_title_doc
    (default any_profile (_profile_document_styles small_title_doc))
  = "Annual Report" ∧
  ∃ style_profile best,
    _profile_document_styles small_title_doc = Some style_profile ∧
    best ∈ title_text_lines small_title_page ∧
    _extract_title small_title_doc style_profile = tl_text best ∧
    ∀ l, l ∈ title_text_lines small_title_page →
         (tl_size l ≤ tl_size best)%Qc ∧
         (tl_size l = tl_size best → (tl_y best ≤ tl_y l)%Qc).
Proof.
  split; [vm_compute; reflexivity|].
  destruct (_profile_document_styles small_title_doc) as [sp|] eqn:Esp;
    [|vm_compute in Esp; discriminate].
  exists sp.
  destruct (title_without_large_line small_title_doc sp small_title_page [])
    as (best & Hbest); [reflexivity|vm_compute; discriminate| |eauto].
  vm_compute in Esp. injection Esp as <-.
  vm_compute. repeat constructor.
Defined.

(** ** The removal of duplicates, for any lowercasing *)

Section Dedupe.
Variable lower : string → string.

Lemma remove_duplicates_with_sublist (seen : gset (string * nat))
    (l : list OutlineEntry) :
  remove_duplicates_with lower seen l `sublist_of` l.
Proof.
  revert seen. induction l as [|item l IH]; intros seen; cbn.
  - constructor.
  - case_bool_decide.
    + apply sublist_cons, IH.
    + apply sublist_skip, IH.
Qed.

Lemma remove_duplicates_with_fresh (seen : gset (string * nat))
    (l : list OutlineEntry) (item : OutlineEntry) :
  item ∈ remove_duplicates_with lower seen l →
  entry_key_with lower item ∉ seen.
Proof.
  revert seen. induction l as [|x l IH]; intros seen; cbn.
  - intros H. inversion H.
  - case_bool_decide as Hx.
    + apply IH.
    + intros [->|H]%elem_of_cons; [exact Hx|].
      apply IH in H. intros Hs. apply H, elem_of_union_r, Hs.
Qed.

Lemma remove_duplicates_with_NoDup (seen : gset (string * nat))
    (l : list OutlineEntry) :
  NoDup (map (entry_key_with lower) (remove_duplicates_with lower seen l)).
Proof.
  revert seen. induction l as [|x l IH]; intros seen; cbn.
  - constructor.
  - case_bool_decide as Hx; [apply IH|].
    cbn. constructor; [|apply IH].
    intros (y & Hy & Hin)%elem_of_map.
    apply remove_duplicates_with_fresh in Hin. apply Hin. rewrite <- Hy.
    apply elem_of_union_l, elem_of_singleton. reflexivity.
Qed.

Lemma remove_duplicates_with_complete (seen : gset (string * nat))
    (l : list OutlineEntry) (item : OutlineEntry) :
  item ∈ l → entry_key_with lower item ∉ seen →
  ∃ kept, kept ∈ remove_duplicates_with lower seen l ∧
          entry_key_with lower kept = entry_key_with lower item.
Proof.
  revert seen. induction l as [|x l IH]; intros seen Hin Hseen.
  - inversion Hin.
  - cbn. case_bool_decide as Hx.
    + apply elem_of_cons in Hin as [->|Hin]; [contradiction|]. auto.
    + destruct (decide (entry_key_with lower item = entry_key_with lower x))
        as [E|Hne].
      * exists x. split; [left|congruence].
      * apply elem_of_cons in Hin as [->|Hin]; [congruence|].
        destruct (IH ({[entry_key_with lower x]} ∪ seen) Hin)
          as (kept & Hk & Hkey).
        { intros [Hs%elem_of_singleton|Hs]%elem_of_union; contradiction. }
        exists kept. split; [right; exact Hk|exact Hkey].
Qed.

Lemma remove_duplicates_with_first (seen : gset (string * nat))
    (l : list OutlineEntry) (item : OutlineEntry) :
  item ∈ remove_duplicates_with lower seen l →
  ∃ front back, l = front ++ item :: back ∧
    Forall (λ x, entry_key_with lower x ≠ entry_key_with lower item) front.
Proof.
  revert seen. induction l as [|x l IH]; intros seen; cbn.
  - intros H. inversion H.
  - case_bool_decide as Hx.
    + intros H. pose proof (remove_duplicates_with_fresh _ _ _ H) as Hfresh.
      destruct (IH _ H) as (front & back & -> & Hfront).
      exists (x :: front), back. split; [reflexivity|].
      constructor; [congruence|exact Hfront].
    + intros [->|H]%elem_of_cons.
      * exists [], l. split; [reflexivity|constructor].
      * pose proof (remove_duplicates_with_fresh _ _ _ H) as Hfresh.
        destruct (IH _ H) as (front & back & -> & Hfront).
        exists (x :: front), back. split; [reflexivity|].
        constructor; [|exact Hfront].
        intros E. apply Hfresh. rewrite E.
        apply elem_of_union_l, elem_of_singleton. reflexivity.
Qed.

End Dedupe.

Lemma remove_duplicates_with_py_lower (seen : gset (string * nat))
    (l : list OutlineEntry) :
  remove_duplicates_with py_lower seen l = remove_duplicates seen l.
Proof.
  revert seen. induction l as [|x l IH]; intros seen; cbn; [reflexivity|].
  fold (entry_key x). rewrite !IH. reflexivity.
Qed.

(** ** The final outline and the entries it is made of *)

Section FinalOutline.
Variable set_order : list Qc → list Qc.

Lemma build_outline_raw (style_profile : StyleProfile) (doc_title : string)
    (cands : list HeadingCandidate) :
  build_outline set_order style_profile doc_title cands
  = (raw ← raw_outline set_order style_profile doc_title cands;
     Ok (finish_outline raw)).
Proof.
  unfold build_outline, raw_outline.
  destruct cands as [|c0 cs]; [reflexivity|].
  destruct (unnumbered_entries _ _ _ _); reflexivity.
Qed.

Lemma outline_of_raw (doc : Document) (style_profile : StyleProfile)
    (cands : list HeadingCandidate) (raw : list OutlineEntry) :
  _profile_document_styles doc = Some style_profile →
  heading_candidates doc style_profile = Ok cands →
  raw_outline set_order style_profile (_extract_title doc style_profile) cands
  = Ok raw →
  outline (fst (extract_document_structure set_order (Opened doc)))
  = finish_outline raw.
Proof.
  intros Hsp Hc Hraw. unfold extract_document_structure.
  destruct (List.length (pages doc) =? 0)%nat eqn:El.
  { exfalso. apply Nat.eqb_eq, length_zero_iff_nil in El.
    assert (_profile_document_styles doc = None) as Hn; [|congruence].
    apply profile_none_iff. unfold all_spans. rewrite El. reflexivity. }
  rewrite Hsp. unfold _extract_headings. rewrite Hc. cbn [mbind exc_bind].
  rewrite build_outline_raw, Hraw. reflexivity.
Qed.

(** C8: in every returned outline no two entries have the same (lowercased
    text, page) pair.  The outline is made of the entries that the special,
    numbered and unnumbered paths have appended ([raw_outline]): these are
    sorted by (page, text) and the duplicates are removed.  The outline
    keeps the order of the sorted list; every entry that is kept is the
    first one with its pair in the sorted list; and for every appended entry
    an entry with its pair is in the outline.  The loop that removes the
    duplicates does so for any lowercasing of the texts. *)
Theorem outline_has_no_duplicates (pdf : OpenResult) :
  let out := outline (fst (extract_document_structure set_order pdf)) in
  NoDup (map entry_key out) ∧
  (∀ doc style_profile cands raw,
     pdf = Opened doc →
     _profile_document_styles doc = Some style_profile →
     heading_candidates doc style_profile = Ok cands →
     raw_outline set_order style_profile (_extract_title doc style_profile)
                 cands = Ok raw →
     let sorted := sort_by by_page_text raw in
     out = remove_duplicates ∅ sorted ∧
     out `sublist_of` sorted ∧
     (∀ item, item ∈ out →
        ∃ front back,
          sorted = front ++ item :: back ∧
          Forall (λ x, entry_key x ≠ entry_key item) front) ∧
     (∀ item, item ∈ raw →
        ∃ kept, kept ∈ out ∧ entry_key kept = entry_key item)) ∧
  (∀ (lower : string → string) (entries : list OutlineEntry),
     remove_duplicates_with py_lower ∅ entries = remove_duplicates ∅ entries ∧
     let kept := remove_duplicates_with lower ∅ entries in
     NoDup (map (entry_key_with lower) kept) ∧
     kept `sublist_of` entries ∧
     (∀ item, item ∈ kept →
        ∃ front back,
          entries = front ++ item :: back ∧
          Forall (λ x, entry_key_with lower x ≠ entry_key_with lower item)
                 front) ∧
     (∀ item, item ∈ entries →
        ∃ k, k ∈ kept ∧ entry_key_with lower k = entry_key_with lower item)).
Proof.
  cbv zeta. split; [|split].
  - destruct (outline_finished set_order pdf) as [raw ->].
    apply remove_duplicates_NoDup.
  - intros doc sp cands raw -> Hsp Hc Hraw.
    rewrite (outline_of_raw doc sp cands raw Hsp Hc Hraw).
    unfold finish_outline. rewrite <- remove_duplicates_with_py_lower.
    split; [reflexivity|].
    split; [apply remove_duplicates_with_sublist|]. split.
    + intros item. apply (remove_duplicates_with_first py_lower).
    + intros item Hin.
      apply (remove_duplicates_with_complete py_lower).
      * apply elem_of_sort_by, Hin.
      * apply not_elem_of_empty.
  - intros lower entries.
    split; [apply remove_duplicates_with_py_lower|].
    split; [apply remove_duplicates_with_NoDup|].
    split; [apply remove_duplicates_with_sublist|]. split.
    + intros item. apply remove_duplicates_with_first.
    + intros item Hin. apply remove_duplicates_with_complete;
        [exact Hin|apply not_elem_of_empty].
Qed.

End FinalOutline.

Lemma outline_has_no_duplicates_witness :
  ∃ style_profile cands raw,
    _profile_document_styles duplicate_headings_doc = Some style_profile ∧
    heading_candidates duplicate_headings_doc style_profile = Ok cands ∧
    raw_outline first_seen_order style_profile
                (_extract_title duplicate_headings_doc style_profile) cands
    = Ok raw ∧
    map o_text raw
    = ["1. introduction"; "1. Introduction"; "Project Scope Notes";
       "PROJECT SCOPE NOTES"] ∧
    outline (fst (extract_document_structure first_seen_order
                    (Opened duplicate_headings_doc)))
    = [ {| o_level := H1; o_text := "1. Introduction"; o_page := 1 |};
        {| o_level := H1; o_text := "PROJECT SCOPE NOTES"; o_page := 1 |} ] ∧
    outline (fst (extract_document_structure first_seen_order
                    (Opened duplicate_headings_doc)))
    = remove_duplicates ∅ (sort_by by_page_text raw) ∧
    ∀ item, item ∈ raw →
      ∃ kept,
        kept ∈ outline (fst (extract_document_structure first_seen_order
                               (Opened duplicate_headings_doc))) ∧
        entry_key kept = entry_key item.
Proof.
  destruct (_profile_document_styles duplicate_headings_doc) as [sp|] eqn:Esp;
    [|vm_compute in Esp; discriminate].
  destruct (heading_candidates duplicate_headings_doc sp) as [cands|e] eqn:Ec;
    [|vm_compute in Esp; injection Esp as <-; vm_compute in Ec; discriminate].
  destruct (raw_outline first_seen_order sp
              (_extract_title duplicate_headings_doc sp) cands)
    as [raw|e] eqn:Er;
    [|vm_compute in Esp; injection Esp as <-;
      vm_compute in Ec; injection Ec as <-;
      vm_compute in Er; discriminate].
  exists sp, cands, raw.
  destruct (proj1 (proj2 (outline_has_no_duplicates first_seen_order
                            (Opened duplicate_headings_doc)))
              duplicate_headings_doc sp cands raw eq_refl Esp Ec Er)
    as (Hout & _ & _ & Hkept).
  split; [reflexivity|]. split; [exact Ec|]. split; [exact Er|].
  split.
  { vm_compute in Esp. injection Esp as <-.
    vm_compute in Ec. injection Ec as <-.
    vm_compute in Er. injection Er as <-. reflexivity. }
  split; [vm_compute; reflexivity|]. split; [exact Hout|exact Hkept].
Defined.

(** ** The rule of one round of the level assignment *)








(** ** Clusters ranked after the fourth *)



(** ** The level of a heading by the closest mapped size *)




Section ClusterLevels.
Variable set_order : list Qc → list Qc.
Hypothesis set_order_valid : valid_set_order set_order.


End ClusterLevels.

